(** * Stats pipeline of the Detect-It-Easy site (js/script.js)

    A shallow embedding of [Utils.formatNumber], the [GitHubStats] class
    (cache read, remote fetch, cache write, rendering, fallback), the
    [StorageManager.clearOldCache] sweep and the [DOMContentLoaded]
    handler, together with the fragment of ECMAScript they run on:
    IEEE-754 binary64 numbers, the coercions [ToNumber] and [ToBoolean],
    [Number::toString], [Number.prototype.toFixed], [JSON.parse] and
    [JSON.stringify], the Web Storage map and the text slots of the
    document. *)

From Stdlib Require Import ZArith List String Ascii Bool Lia.
From Stdlib Require Import SpecFloat DecimalString.
From Stdlib Require DecimalFacts DecimalPos DecimalN.
Import ListNotations.

Local Open Scope string_scope.
Local Open Scope Z_scope.

(** ** ECMAScript Number values: IEEE-754 binary64 *)

Module Number.

Definition prec : Z := 53.
Definition emax : Z := 1024.

Definition number := spec_float.

Definition NaN : number := S754_nan.
Definition Infinity : number := S754_infinity false.
Definition neg_Infinity : number := S754_infinity true.

(** 𝔽(p/q): the Number nearest to the rational p/q (ties to even),
    for 0 <= p. *)
Definition of_ratio (neg : bool) (p : Z) (q : positive) : number :=
  match p with
  | Zpos _ =>
      let '(m, e, l) := SFdiv_core_binary prec emax p 0 (Zpos q) 0 in
      binary_round_aux prec emax neg m e l
  | _ => S754_zero neg
  end.

(** 𝔽(n) for an integer n. *)
Definition of_Z (n : Z) : number := binary_normalize prec emax n 0 false.

(** 𝔽(m * 10^e10) for 0 <= m: the value of a decimal literal. *)
Definition of_decimal (neg : bool) (m : Z) (e10 : Z) : number :=
  if 0 <=? e10 then of_ratio neg (m * 10 ^ e10) 1
  else of_ratio neg m (Z.to_pos (10 ^ (- e10))).

Definition sub (x y : number) : number := SFsub prec emax x y.
Definition mul (x y : number) : number := SFmul prec emax x y.
Definition div (x y : number) : number := SFdiv prec emax x y.
Definition ltb (x y : number) : bool := SFltb x y.
Definition leb (x y : number) : bool := SFleb x y.
(** [x > y] and [x >= y] are [y < x] and [y <= x]; all four are false
    when an operand is NaN. *)
Definition gtb (x y : number) : bool := SFltb y x.
Definition geb (x y : number) : bool := SFleb y x.

Definition eqb (x y : number) : bool :=
  match x, y with
  | S754_zero a, S754_zero b => Bool.eqb a b
  | S754_infinity a, S754_infinity b => Bool.eqb a b
  | S754_nan, S754_nan => true
  | S754_finite a m e, S754_finite b m' e' =>
      Bool.eqb a b && Pos.eqb m m' && Z.eqb e e'
  | _, _ => false
  end.

(** The exact value of a finite Number as a fraction (numerator,
    denominator), sign dropped. *)
Definition magnitude (x : number) : Z * Z :=
  match x with
  | S754_finite _ m e =>
      if 0 <=? e then (Zpos m * 2 ^ e, 1) else (Zpos m, 2 ^ (- e))
  | _ => (0, 1)
  end.

Definition is_negative (x : number) : bool :=
  match x with
  | S754_finite s _ _ => s
  | S754_infinity s => s
  | _ => false
  end.

(** Decimal digits of a non-negative integer. *)
Definition decimal (n : Z) : string :=
  NilZero.string_of_uint (N.to_uint (Z.to_N n)).

Fixpoint zeros (n : nat) : string :=
  match n with O => "" | S n' => String "0" (zeros n') end.

Definition take (n : Z) (s : string) : string := substring 0 (Z.to_nat n) s.
Definition drop (n : Z) (s : string) : string :=
  substring (Z.to_nat n) (String.length s - Z.to_nat n)%nat s.

(** *** Number::toString (radix 10), ECMA-262 6.1.6.1.20 *)

(** The n with 10^(n-1) <= num/den < 10^n. *)
Fixpoint find_scale_up (fuel : nat) (num den n : Z) : Z :=
  match fuel with
  | O => n
  | S f => if num <? den * 10 ^ n then n
           else find_scale_up f num den (n + 1)
  end.

Fixpoint find_scale_down (fuel : nat) (num den j : Z) : Z :=
  match fuel with
  | O => 1 - j
  | S f => if den <=? num * 10 ^ j then 1 - j
           else find_scale_down f num den (j + 1)
  end.

Definition decimal_exponent (num den : Z) : Z :=
  if den <=? num then find_scale_up 400 num den 1
  else find_scale_down 400 num den 1.

(** Candidate digit strings with [k] digits for num/den at scale [n]:
    the two integers s nearest to num/den * 10^(k-n); a candidate is
    kept when 𝔽(s * 10^(n-k)) is the number itself. The result is
    (s, n) with the closer candidate first, the even one on a tie. *)
Definition candidates (x : number) (num den n k : Z) : option (Z * Z) :=
  let scaled_num := if 0 <=? k - n then num * 10 ^ (k - n) else num in
  let scaled_den := if 0 <=? k - n then den else den * 10 ^ (n - k) in
  let lo := scaled_num / scaled_den in
  let r := scaled_num mod scaled_den in
  let hi := lo + 1 in
  let ok s := (10 ^ (k - 1) <=? s) && eqb (of_decimal false s (n - k)) x in
  let lo_first :=
    match 2 * r ?= scaled_den with
    | Lt => true
    | Gt => false
    | Eq => Z.even lo
    end in
  let norm s := if s =? 10 ^ k then (10 ^ (k - 1), n + 1) else (s, n) in
  match ok lo, ok hi with
  | true, true => Some (norm (if lo_first then lo else hi))
  | true, false => Some (norm lo)
  | false, true => Some (norm hi)
  | false, false => None
  end.

Fixpoint shortest (fuel : nat) (x : number) (num den n k : Z)
  : Z * Z * Z :=
  match fuel with
  | O => (num * 10 ^ (k - n) / den, n, k)
  | S f =>
      match candidates x num den n k with
      | Some (s, n') => (s, n', k)
      | None => shortest f x num den n (k + 1)
      end
  end.

Definition exponent_part (n : Z) : string :=
  if 0 <=? n - 1 then "e+" ++ decimal (n - 1)
  else "e-" ++ decimal (1 - n).

Definition format_digits (s n k : Z) : string :=
  let ds := decimal s in
  if (k <=? n) && (n <=? 21) then ds ++ zeros (Z.to_nat (n - k))
  else if (0 <? n) && (n <=? 21) then take n ds ++ "." ++ drop n ds
  else if (-6 <? n) && (n <=? 0) then "0." ++ zeros (Z.to_nat (- n)) ++ ds
  else if k =? 1 then ds ++ exponent_part n
  else take 1 ds ++ "." ++ drop 1 ds ++ exponent_part n.

Definition toString_pos (x : number) : string :=
  let '(num, den) := magnitude x in
  let n := decimal_exponent num den in
  let '(s, n', k) := shortest 17 x num den n 1 in
  format_digits s n' k.

Definition toString (x : number) : string :=
  match x with
  | S754_nan => "NaN"
  | S754_zero _ => "0"
  | S754_infinity false => "Infinity"
  | S754_infinity true => "-Infinity"
  | S754_finite false _ _ => toString_pos x
  | S754_finite true m e => "-" ++ toString_pos (S754_finite false m e)
  end.

(** *** Number.prototype.toFixed(1), ECMA-262 21.1.3.3 *)

Definition toFixed1 (x : number) : string :=
  match x with
  | S754_nan | S754_infinity _ => toString x
  | _ =>
      let '(num, den) := magnitude x in
      let sign := if is_negative x then "-" else "" in
      if den * 10 ^ 21 <=? num then sign ++ toString (SFabs x)
      else
        (* the integer n with n/10 nearest to x, the larger on a tie;
           its digits, with a point before the last one *)
        let n := (20 * num + den) / (2 * den) in
        sign ++ decimal (n / 10) ++ "." ++ decimal (n mod 10)
  end.

End Number.

(** ** ECMAScript language values

    The values [JSON.parse] can produce, and [undefined]. A string is
    held as the UTF-8 bytes of its text; an object as its own properties
    in property order. None of these values is callable. *)

Unset Elimination Schemes.
Inductive value : Type :=
| Undefined
| Null
| Bool (b : bool)
| Num (x : Number.number)
| Str (s : string)
| Arr (elements : list value)
| Obj (props : list (string * value)).
Set Elimination Schemes.

(** Thrown values, by kind. *)
Inductive exn : Type :=
| TypeError
| SyntaxError
| NetworkError
| HttpError (status : Z) (statusText : string)
| QuotaExceededError.

(** Completion of an expression: a value or a throw. *)
Inductive completion (A : Type) : Type :=
| Normal (a : A)
| Throw (e : exn).
Arguments Normal {A} a.
Arguments Throw {A} e.

Definition cbind {A B} (c : completion A) (k : A -> completion B)
  : completion B :=
  match c with
  | Normal a => k a
  | Throw e => Throw e
  end.

Declare Scope completion_scope.
Delimit Scope completion_scope with completion.
Notation "'let?' x ':=' c 'in' k" := (cbind c (fun x => k))
  (at level 10, x name, c at level 100, k at level 200)
  : completion_scope.
Local Open Scope completion_scope.

Module Text.

Definition code (c : ascii) : Z := Z.of_N (N_of_ascii c).
Definition char (n : Z) : ascii := ascii_of_N (Z.to_N n).

Definition dquote : ascii := "034"%char.

(** JSON text written with single quotes for double quotes. *)
Fixpoint q (s : string) : string :=
  match s with
  | EmptyString => ""
  | String c r => String (if code c =? 39 then dquote else c) (q r)
  end.

Definition is_digit (c : ascii) : bool := (48 <=? code c) && (code c <=? 57).

(** Value of a digit in the given radix (letters in either case). *)
Definition digit_in (radix : Z) (c : ascii) : option Z :=
  let n := code c in
  let v :=
    if (48 <=? n) && (n <=? 57) then n - 48
    else if (97 <=? n) && (n <=? 122) then n - 87
    else if (65 <=? n) && (n <=? 90) then n - 55
    else radix in
  if v <? radix then Some v else None.

(** Longest prefix of digits: its value, its length, the rest. *)
Fixpoint read_digits (radix : Z) (s : string) (acc count : Z)
  : Z * Z * string :=
  match s with
  | String c r =>
      match digit_in radix c with
      | Some d => read_digits radix r (acc * radix + d) (count + 1)
      | None => (acc, count, s)
      end
  | EmptyString => (acc, count, s)
  end.

Fixpoint rev_onto (s acc : string) : string :=
  match s with
  | EmptyString => acc
  | String c r => rev_onto r (String c acc)
  end.
Definition rev (s : string) : string := rev_onto s "".

(** WhiteSpace and LineTerminator code points, as UTF-8 byte
    sequences: U+0009..U+000D, U+0020, U+00A0, U+1680, U+2000..U+200A,
    U+2028, U+2029, U+202F, U+205F, U+3000, U+FEFF. *)
Definition is_space1 (a : Z) : bool := ((9 <=? a) && (a <=? 13)) || (a =? 32).
Definition is_space2 (a b : Z) : bool := (a =? 194) && (b =? 160).
Definition is_space3 (a b c : Z) : bool :=
  ((a =? 225) && (b =? 154) && (c =? 128))
  || ((a =? 226) && (b =? 128)
      && (((128 <=? c) && (c <=? 138)) || (c =? 168) || (c =? 169)
          || (c =? 175)))
  || ((a =? 226) && (b =? 129) && (c =? 159))
  || ((a =? 227) && (b =? 128) && (c =? 128))
  || ((a =? 239) && (b =? 187) && (c =? 191)).

Fixpoint trim_start (s : string) : string :=
  match s with
  | String a r1 =>
      if is_space1 (code a) then trim_start r1
      else
        match r1 with
        | String b r2 =>
            if is_space2 (code a) (code b) then trim_start r2
            else
              match r2 with
              | String c r3 =>
                  if is_space3 (code a) (code b) (code c)
                  then trim_start r3 else s
              | EmptyString => s
              end
        | EmptyString => s
        end
  | EmptyString => s
  end.

(** The same on a reversed string, where each sequence is reversed. *)
Fixpoint trim_start_rev (s : string) : string :=
  match s with
  | String a r1 =>
      if is_space1 (code a) then trim_start_rev r1
      else
        match r1 with
        | String b r2 =>
            if is_space2 (code b) (code a) then trim_start_rev r2
            else
              match r2 with
              | String c r3 =>
                  if is_space3 (code c) (code b) (code a)
                  then trim_start_rev r3 else s
              | EmptyString => s
              end
        | EmptyString => s
        end
  | EmptyString => s
  end.

Definition trim (s : string) : string :=
  rev (trim_start_rev (rev (trim_start s))).

(** UTF-8 bytes of a code point (a lone surrogate is encoded the same
    way, in three bytes), pushed on a reversed accumulator. *)
Definition push_code_point (cp : Z) (acc : string) : string :=
  if cp <? 128 then String (char cp) acc
  else if cp <? 2048 then
    String (char (128 + cp mod 64)) (String (char (192 + cp / 64)) acc)
  else if cp <? 65536 then
    String (char (128 + cp mod 64))
      (String (char (128 + (cp / 64) mod 64))
         (String (char (224 + cp / 4096)) acc))
  else
    String (char (128 + cp mod 64))
      (String (char (128 + (cp / 64) mod 64))
         (String (char (128 + (cp / 4096) mod 64))
            (String (char (240 + cp / 262144)) acc))).

(** Lower-case hexadecimal, four digits. *)
Definition hex_digit (n : Z) : ascii :=
  if n <? 10 then char (48 + n) else char (87 + n).
Definition hex4 (n : Z) : string :=
  String (hex_digit (n / 4096 mod 16))
    (String (hex_digit (n / 256 mod 16))
       (String (hex_digit (n / 16 mod 16))
          (String (hex_digit (n mod 16)) ""))).

End Text.

(** *** StringToNumber, ECMA-262 7.1.4.1.1 *)

Module StringToNumber.
Import Text.

(** ExponentPart (optional) and end of input. *)
Definition exponent (s : string) : option Z :=
  match s with
  | EmptyString => Some 0
  | String c r =>
      if (code c =? 101) || (code c =? 69) then
        let '(neg, r') :=
          match r with
          | String "-" t => (true, t)
          | String "+" t => (false, t)
          | _ => (false, r)
          end in
        match read_digits 10 r' 0 0 with
        | (v, n, EmptyString) =>
            if 0 <? n then Some (if neg then - v else v) else None
        | _ => None
        end
      else None
  end.

(** StrUnsignedDecimalLiteral, [Infinity] apart. *)
Definition unsigned_decimal (neg : bool) (s : string)
  : option Number.number :=
  let '(ip, n1, r1) := read_digits 10 s 0 0 in
  let '(fp, n2, r2) :=
    match r1 with
    | String "." t => read_digits 10 t 0 0
    | _ => (0, 0, r1)
    end in
  if 0 <? n1 + n2 then
    match exponent r2 with
    | Some e => Some (Number.of_decimal neg (ip * 10 ^ n2 + fp) (e - n2))
    | None => None
    end
  else None.

Definition str_decimal (s : string) : option Number.number :=
  let '(neg, r) :=
    match s with
    | String "-" t => (true, t)
    | String "+" t => (false, t)
    | _ => (false, s)
    end in
  if String.eqb r "Infinity" then Some (S754_infinity neg)
  else unsigned_decimal neg r.

(** NonDecimalIntegerLiteral: 0x, 0o, 0b in either case. *)
Definition non_decimal (s : string) : option Number.number :=
  match s with
  | String "0" (String p r) =>
      let radix :=
        if (code p =? 120) || (code p =? 88) then 16
        else if (code p =? 111) || (code p =? 79) then 8
        else if (code p =? 98) || (code p =? 66) then 2
        else 0 in
      if radix =? 0 then None
      else
        match read_digits radix r 0 0 with
        | (v, n, EmptyString) =>
            if 0 <? n then Some (Number.of_Z v) else None
        | _ => None
        end
  | _ => None
  end.

Definition StringToNumber (s : string) : Number.number :=
  let s := trim s in
  if String.eqb s "" then S754_zero false
  else
    match non_decimal s with
    | Some x => x
    | None =>
        match str_decimal s with
        | Some x => x
        | None => Number.NaN
        end
    end.

End StringToNumber.

(** *** ToBoolean, ToString, ToNumber, property read *)

Definition ToBoolean (v : value) : bool :=
  match v with
  | Undefined | Null => false
  | Bool b => b
  | Num (S754_zero _) | Num S754_nan => false
  | Num _ => true
  | Str s => negb (String.eqb s "")
  | Arr _ | Obj _ => true
  end.

Fixpoint lookup {A} (k : string) (l : list (string * A)) : option A :=
  match l with
  | [] => None
  | (k', a) :: r => if String.eqb k k' then Some a else lookup k r
  end.

Definition has_own (k : string) (props : list (string * value)) : bool :=
  match lookup k props with Some _ => true | None => false end.

(** ToString (ECMA-262 7.1.17). For an object, OrdinaryToPrimitive finds
    [Object.prototype.toString] unless an own property shadows it with
    a value that is not callable, in which case neither [toString] nor
    [valueOf] yields a primitive and a TypeError is thrown; an array
    goes through [Array.prototype.join]. *)
Fixpoint ToString (v : value) : completion string :=
  match v with
  | Undefined => Normal "undefined"
  | Null => Normal "null"
  | Bool true => Normal "true"
  | Bool false => Normal "false"
  | Num x => Normal (Number.toString x)
  | Str s => Normal s
  | Obj props =>
      if has_own "toString" props then Throw TypeError
      else Normal "[object Object]"
  | Arr elements =>
      (fix join (l : list value) : completion string :=
         match l with
         | [] => Normal ""
         | x :: r =>
             let? s := match x with
                       | Undefined | Null => Normal ""
                       | _ => ToString x
                       end in
             match r with
             | [] => Normal s
             | _ => let? t := join r in Normal (s ++ "," ++ t)%string
             end
         end) elements
  end.

(** ToNumber (ECMA-262 7.1.4); an object or array is first converted
    with ToPrimitive, which for these values ends in the same string as
    [ToString]. *)
Definition ToNumber (v : value) : completion Number.number :=
  match v with
  | Undefined => Normal Number.NaN
  | Null => Normal (S754_zero false)
  | Bool true => Normal (Number.of_Z 1)
  | Bool false => Normal (S754_zero false)
  | Num x => Normal x
  | Str s => Normal (StringToNumber.StringToNumber s)
  | Arr _ | Obj _ =>
      let? s := ToString v in Normal (StringToNumber.StringToNumber s)
  end.

(** [v.name] for a property name that no built-in prototype defines
    and that is not an array index or [length]: an own property of an
    object, [undefined] on other values, a TypeError on [undefined] and
    [null]. Every property the program reads is of this kind. *)
Definition Get (v : value) (name : string) : completion value :=
  match v with
  | Undefined | Null => Throw TypeError
  | Obj props =>
      match lookup name props with
      | Some x => Normal x
      | None => Normal Undefined
      end
  | _ => Normal Undefined
  end.

(** [v.toString()]: the method of the prototype of [v]. *)
Definition call_toString (v : value) : completion string :=
  match v with
  | Undefined | Null => Throw TypeError
  | _ => ToString v
  end.

(** [a - b], [a / b], [a < b], [a >= b], [a > b], [a <= b] where at
    least one operand is a Number (so the comparison is numeric). *)
Definition js_sub (a b : value) : completion Number.number :=
  let? x := ToNumber a in let? y := ToNumber b in Normal (Number.sub x y).
Definition js_div (a b : value) : completion Number.number :=
  let? x := ToNumber a in let? y := ToNumber b in Normal (Number.div x y).
Definition js_lt (a b : value) : completion bool :=
  let? x := ToNumber a in let? y := ToNumber b in Normal (Number.ltb x y).
Definition js_ge (a b : value) : completion bool :=
  let? x := ToNumber a in let? y := ToNumber b in Normal (Number.geb x y).
Definition js_gt (a b : value) : completion bool :=
  let? x := ToNumber a in let? y := ToNumber b in Normal (Number.gtb x y).
Definition js_le (a b : value) : completion bool :=
  let? x := ToNumber a in let? y := ToNumber b in Normal (Number.leb x y).

Definition num (n : Z) : value := Num (Number.of_Z n).

(** ** JSON *)

Module JSON.
Import Text.

(** JSON white space: tab, line feed, carriage return, space. *)
Fixpoint skip_ws (s : string) : string :=
  match s with
  | String c r =>
      let n := code c in
      if (n =? 9) || (n =? 10) || (n =? 13) || (n =? 32) then skip_ws r
      else s
  | EmptyString => s
  end.

(** An array index: a canonical numeric string below 2^32 - 1. *)
Definition array_index (k : string) : option Z :=
  match k with
  | EmptyString => None
  | String c r =>
      if String.eqb k "0" then Some 0
      else if (code c =? 48) then None
      else
        match read_digits 10 k 0 0 with
        | (v, _, EmptyString) => if v <? 4294967295 then Some v else None
        | _ => None
        end
  end.

(** CreateDataProperty on an ordinary object: an existing key keeps
    its place; a new array index goes among the indices, in ascending
    order, before every other key; another new key goes last. *)
Fixpoint replace (k : string) (v : value) (props : list (string * value))
  : list (string * value) :=
  match props with
  | [] => []
  | (k', v') :: r =>
      if String.eqb k k' then (k', v) :: r else (k', v') :: replace k v r
  end.

Fixpoint insert_index (i : Z) (k : string) (v : value)
  (props : list (string * value)) : list (string * value) :=
  match props with
  | [] => [(k, v)]
  | (k', v') :: r =>
      match array_index k' with
      | Some j => if j <? i then (k', v') :: insert_index i k v r
                  else (k, v) :: props
      | None => (k, v) :: props
      end
  end.

Definition define (k : string) (v : value) (props : list (string * value))
  : list (string * value) :=
  if has_own k props then replace k v props
  else
    match array_index k with
    | Some i => insert_index i k v props
    | None => (props ++ [(k, v)])%list
    end.

(** *** JSON.parse *)

Definition is_high_surrogate (u : Z) : bool := (55296 <=? u) && (u <=? 56319).
Definition is_low_surrogate (u : Z) : bool := (56320 <=? u) && (u <=? 57343).

Definition flush (pending : option Z) (acc : string) : string :=
  match pending with
  | Some hi => push_code_point hi acc
  | None => acc
  end.

Definition hex4_value (a b c d : ascii) : option Z :=
  match digit_in 16 a, digit_in 16 b, digit_in 16 c, digit_in 16 d with
  | Some x, Some y, Some z, Some w => Some (((x * 16 + y) * 16 + z) * 16 + w)
  | _, _, _, _ => None
  end.

(** The characters of a string literal after its opening quote. [acc]
    is the text read so far, reversed; [pending] a high surrogate
    escape waiting for its low half. *)
Fixpoint parse_chars (s : string) (acc : string) (pending : option Z)
  : option (string * string) :=
  match s with
  | EmptyString => None
  | String c r =>
      if code c =? 34 then Some (rev (flush pending acc), r)
      else if code c <? 32 then None
      else if code c =? 92 then
        match r with
        | String e r' =>
            let simple (n : Z) :=
              parse_chars r' (String (char n) (flush pending acc)) None in
            if code e =? 34 then simple 34
            else if code e =? 92 then simple 92
            else if code e =? 47 then simple 47
            else if code e =? 98 then simple 8
            else if code e =? 102 then simple 12
            else if code e =? 110 then simple 10
            else if code e =? 114 then simple 13
            else if code e =? 116 then simple 9
            else if code e =? 117 then
              match r' with
              | String h1 (String h2 (String h3 (String h4 r''))) =>
                  match hex4_value h1 h2 h3 h4 with
                  | Some u =>
                      match pending with
                      | Some hi =>
                          if is_low_surrogate u then
                            parse_chars r''
                              (push_code_point
                                 (65536 + (hi - 55296) * 1024 + (u - 56320))
                                 acc) None
                          else if is_high_surrogate u then
                            parse_chars r'' (push_code_point hi acc) (Some u)
                          else
                            parse_chars r''
                              (push_code_point u (push_code_point hi acc))
                              None
                      | None =>
                          if is_high_surrogate u then
                            parse_chars r'' acc (Some u)
                          else parse_chars r'' (push_code_point u acc) None
                      end
                  | None => None
                  end
              | _ => None
              end
            else None
        | EmptyString => None
        end
      else parse_chars r (String c (flush pending acc)) None
  end.

(** A JSON number: an optional minus sign; an integer part, a single
    0 or digits that do not start with 0; an optional fraction, a dot
    and at least one digit; an optional exponent, e or E, an optional
    sign and at least one digit. *)
Definition parse_number (s : string) : option (value * string) :=
  let '(neg, r) :=
    match s with String "-" t => (true, t) | _ => (false, s) end in
  let '(ip, n1, r1) := read_digits 10 r 0 0 in
  let leading_zero :=
    match r with String "0" _ => 1 <? n1 | _ => false end in
  if (n1 =? 0) || leading_zero then None
  else
    let frac :=
      match r1 with
      | String "." t =>
          let '(fp, n2, r2) := read_digits 10 t 0 0 in
          if n2 =? 0 then None else Some (fp, n2, r2)
      | _ => Some (0, 0, r1)
      end in
    match frac with
    | None => None
    | Some (fp, n2, r2) =>
        let exp :=
          match r2 with
          | String c t =>
              if (code c =? 101) || (code c =? 69) then
                let '(eneg, t') :=
                  match t with
                  | String "-" u => (true, u)
                  | String "+" u => (false, u)
                  | _ => (false, t)
                  end in
                let '(ev, n3, r3) := read_digits 10 t' 0 0 in
                if n3 =? 0 then None
                else Some (if eneg then - ev else ev, r3)
              else Some (0, r2)
          | EmptyString => Some (0, r2)
          end in
        match exp with
        | None => None
        | Some (e, r3) =>
            Some (Num (Number.of_decimal neg (ip * 10 ^ n2 + fp) (e - n2)),
                  r3)
        end
    end.

Definition literal (word : string) (v : value) (s : string)
  : option (value * string) :=
  if prefix word s
  then Some (v, substring (String.length word)
                  (String.length s - String.length word) s)
  else None.

Fixpoint parse_value (fuel : nat) (s : string) : option (value * string) :=
  match fuel with
  | O => None
  | S f =>
      match skip_ws s with
      | String c r =>
          if code c =? 123 then
            match skip_ws r with
            | String "}" r' => Some (Obj [], r')
            | r' => parse_members f r' []
            end
          else if code c =? 91 then
            match skip_ws r with
            | String "]" r' => Some (Arr [], r')
            | r' => parse_elements f r' []
            end
          else if code c =? 34 then
            match parse_chars r "" None with
            | Some (t, r') => Some (Str t, r')
            | None => None
            end
          else if code c =? 116 then literal "true" (Bool true) (String c r)
          else if code c =? 102 then literal "false" (Bool false) (String c r)
          else if code c =? 110 then literal "null" Null (String c r)
          else parse_number (String c r)
      | EmptyString => None
      end
  end
with parse_elements (fuel : nat) (s : string) (acc : list value)
  : option (value * string) :=
  match fuel with
  | O => None
  | S f =>
      match parse_value f s with
      | Some (v, r) =>
          match skip_ws r with
          | String "," r' => parse_elements f r' (v :: acc)
          | String "]" r' => Some (Arr (List.rev (v :: acc)), r')
          | _ => None
          end
      | None => None
      end
  end
with parse_members (fuel : nat) (s : string) (acc : list (string * value))
  : option (value * string) :=
  match fuel with
  | O => None
  | S f =>
      match skip_ws s with
      | String c r =>
          if code c =? 34 then
            match parse_chars r "" None with
            | Some (k, r1) =>
                match skip_ws r1 with
                | String ":" r2 =>
                    match parse_value f r2 with
                    | Some (v, r3) =>
                        match skip_ws r3 with
                        | String "," r4 =>
                            parse_members f r4 (define k v acc)
                        | String "}" r4 => Some (Obj (define k v acc), r4)
                        | _ => None
                        end
                    | None => None
                    end
                | _ => None
                end
            | None => None
            end
          else None
      | EmptyString => None
      end
  end.

(** [JSON.parse(text)]: a value, or a SyntaxError. *)
Definition parse (text : string) : completion value :=
  match parse_value (2 * String.length text + 2) text with
  | Some (v, r) =>
      match skip_ws r with
      | EmptyString => Normal v
      | _ => Throw SyntaxError
      end
  | None => Throw SyntaxError
  end.

(** *** JSON.stringify *)

(** QuoteJSONString: the escape of one byte, and of a lone surrogate
    (three bytes 237, 160..191, x). *)
Definition escape (c : ascii) : string :=
  let n := code c in
  if n =? 8 then "\b"
  else if n =? 9 then "\t"
  else if n =? 10 then "\n"
  else if n =? 12 then "\f"
  else if n =? 13 then "\r"
  else if n =? 34 then String "\" (String dquote "")
  else if n =? 92 then "\\"
  else if n <? 32 then String.append "\u" (hex4 n)
  else String c "".

Fixpoint quote_chars (s : string) : string :=
  match s with
  | EmptyString => ""
  | String c r =>
      match r with
      | String b1 (String b2 r') =>
          if (code c =? 237) && (160 <=? code b1) then
            String.append "\u"
              (String.append
                 (hex4 (53248 + (code b1 mod 64) * 64 + code b2 mod 64))
                 (quote_chars r'))
          else String.append (escape c) (quote_chars r)
      | _ => String.append (escape c) (quote_chars r)
      end
  end.

Definition quote (s : string) : string :=
  (String dquote (quote_chars s) ++ String dquote "")%string.

(** SerializeJSONProperty without replacer or indentation: [None] is
    the result [undefined]. *)
Fixpoint serialize (v : value) : option string :=
  match v with
  | Undefined => None
  | Null => Some "null"
  | Bool true => Some "true"
  | Bool false => Some "false"
  | Num x =>
      match x with
      | S754_nan | S754_infinity _ => Some "null"
      | _ => Some (Number.toString x)
      end
  | Str s => Some (quote s)
  | Arr elements =>
      let item x := match serialize x with Some t => t | None => "null" end in
      Some ("[" ++
            (fix items (l : list value) : string :=
               match l with
               | [] => ""
               | [x] => item x
               | x :: r => item x ++ "," ++ items r
               end) elements ++ "]")%string
  | Obj props =>
      Some ("{" ++
            (fix members (l : list (string * value)) (first : bool)
               : string :=
               match l with
               | [] => ""
               | (k, x) :: r =>
                   match serialize x with
                   | Some t =>
                       (if first then "" else ",") ++ quote k ++ ":" ++ t
                         ++ members r false
                   | None => members r first
                   end
               end) props true ++ "}")%string
  end.

(** [JSON.stringify(v)] converted to a string, as a caller that
    stores it does. *)
Definition stringify (v : value) : string :=
  match serialize v with
  | Some s => s
  | None => "undefined"
  end.

End JSON.

(** ** The browser: Web Storage, clock, document, network *)

Record DOMRect : Type := {
  top : Number.number;
  left : Number.number;
  bottom : Number.number;
  right : Number.number
}.

(** An element with an id: its text and its bounding client rectangle. *)
Record element : Type := {
  textContent : string;
  rect : DOMRect
}.

Record viewport : Type := {
  innerHeight : Number.number;
  innerWidth : Number.number;
  clientHeight : Number.number;
  clientWidth : Number.number
}.

Record response : Type := {
  status : Z;
  statusText : string;
  body : string      (* the body, decoded as UTF-8 text *)
}.

(** [response.ok]: the status is in the range 200 to 299. *)
Definition ok (r : response) : bool := (200 <=? status r) && (status r <=? 299).

(** What the network does with one request: the time it takes, in ms,
    and the response, or none when the request fails. *)
Record network : Type := {
  latency : Z;
  reply : option response
}.

Inductive event : Type :=
| EvFetch (url : string)
| EvSetItem (key item : string)
| EvRemoveItem (key : string)
| EvText (id text : string)
| EvAnimate (id : string) (target : value)
| EvLog
| EvUnhandledRejection (e : exn).

(** The state the program runs on. [localStorage] lists the stored
    items in key order; [accepts key item items] tells whether the
    storage, holding [items], takes the write of [item] under [key] (a
    full or blocked storage refuses it); [trace] lists the effects so
    far, newest first; [stats] is the field [this.stats] of the page's
    [GitHubStats]. *)
Record state : Type := {
  localStorage : list (string * string);
  accepts : string -> string -> list (string * string) -> bool;
  clock : Z;
  document : list (string * element);
  window : viewport;
  stats : value;
  trace : list event
}.

Definition with_storage (l : list (string * string)) (st : state) : state :=
  {| localStorage := l; accepts := accepts st; clock := clock st;
     document := document st; window := window st; stats := stats st;
     trace := trace st |}.
Definition with_clock (t : Z) (st : state) : state :=
  {| localStorage := localStorage st; accepts := accepts st; clock := t;
     document := document st; window := window st; stats := stats st;
     trace := trace st |}.
Definition with_document (d : list (string * element)) (st : state) : state :=
  {| localStorage := localStorage st; accepts := accepts st;
     clock := clock st; document := d;
     window := window st; stats := stats st; trace := trace st |}.
Definition with_stats (v : value) (st : state) : state :=
  {| localStorage := localStorage st; accepts := accepts st;
     clock := clock st;
     document := document st; window := window st; stats := v;
     trace := trace st |}.
Definition emit (e : event) (st : state) : state :=
  {| localStorage := localStorage st; accepts := accepts st;
     clock := clock st;
     document := document st; window := window st; stats := stats st;
     trace := e :: trace st |}.

(** Association lists with one entry per key. *)
Fixpoint set_item {A} (k : string) (a : A) (l : list (string * A))
  : list (string * A) :=
  match l with
  | [] => [(k, a)]
  | (k', a') :: r =>
      if String.eqb k k' then (k', a) :: r else (k', a') :: set_item k a r
  end.

Fixpoint remove_item {A} (k : string) (l : list (string * A))
  : list (string * A) :=
  match l with
  | [] => []
  | (k', a') :: r =>
      if String.eqb k k' then remove_item k r else (k', a') :: remove_item k r
  end.

Definition set_text (id text : string) (d : list (string * element))
  : list (string * element) :=
  match lookup id d with
  | Some el => set_item id {| textContent := text; rect := rect el |} d
  | None => d
  end.

(** *** Computations: state passing with throw and catch *)

Definition M (A : Type) : Type := state -> completion A * state.

Definition ret {A} (a : A) : M A := fun st => (Normal a, st).
Definition throw {A} (e : exn) : M A := fun st => (Throw e, st).
Definition lift {A} (c : completion A) : M A := fun st => (c, st).

Definition bind {A B} (m : M A) (k : A -> M B) : M B :=
  fun st =>
    match m st with
    | (Normal a, st') => k a st'
    | (Throw e, st') => (Throw e, st')
    end.

(** [try { body } catch (error) { handler }] *)
Definition try_catch {A} (body : M A) (handler : exn -> M A) : M A :=
  fun st =>
    match body st with
    | (Normal a, st') => (Normal a, st')
    | (Throw e, st') => handler e st'
    end.

Declare Scope js_scope.
Delimit Scope js_scope with js.
Notation "x <- m ;; k" := (bind m (fun x => k))
  (at level 61, m at next level, right associativity) : js_scope.
Notation "m ;; k" := (bind m (fun _ => k))
  (at level 61, right associativity) : js_scope.
Local Open Scope js_scope.

(** [list.forEach(f)] *)
Fixpoint forEach {A} (l : list A) (f : A -> M unit) : M unit :=
  match l with
  | [] => ret tt
  | a :: r => f a ;; forEach r f
  end.

(** *** Built-in operations *)

Definition Date_now : M value := fun st => (Normal (num (clock st)), st).

Definition getItem (key : string) : M value :=
  fun st =>
    (Normal match lookup key (localStorage st) with
            | Some s => Str s
            | None => Null
            end, st).

(** [localStorage.setItem(key, item)]: the item is stored, or the
    storage refuses the write and a QuotaExceededError is thrown. *)
Definition setItem (key item : string) : M unit :=
  fun st =>
    if accepts st key item (localStorage st) then
      (Normal tt,
       emit (EvSetItem key item)
         (with_storage (set_item key item (localStorage st)) st))
    else (Throw QuotaExceededError, st).

Definition removeItem (key : string) : M unit :=
  fun st =>
    (Normal tt,
     emit (EvRemoveItem key)
       (with_storage (remove_item key (localStorage st)) st)).

(** [Object.keys(localStorage)] *)
Definition storage_keys : M (list string) :=
  fun st => (Normal (map fst (localStorage st)), st).

(** [JSON.parse(v)] for a value [v], converted to a string first. *)
Definition JSON_parse (v : value) : M value :=
  lift (let? s := ToString v in JSON.parse s).

Definition getElementById (id : string) : M (option element) :=
  fun st => (Normal (lookup id (document st)), st).

(** [element.textContent = text] for the element with this id. *)
Definition set_textContent (id text : string) : M unit :=
  fun st =>
    (Normal tt,
     emit (EvText id text) (with_document (set_text id text (document st)) st)).

(** [requestAnimationFrame(animate)] for the count-up of one slot. The
    frames run later, on the display's clock; the model records the
    request and stops there. *)
Definition requestAnimation (id : string) (target : value) : M unit :=
  fun st => (Normal tt, emit (EvAnimate id target) st).

(** [await fetch(url)]: the request is issued, time passes, and the
    promise settles with a response or rejects. *)
Definition fetch (net : network) (url : string) : M response :=
  fun st =>
    let st' := emit (EvFetch url) (with_clock (clock st + latency net) st) in
    match reply net with
    | Some r => (Normal r, st')
    | None => (Throw NetworkError, st')
    end.

(** [await response.json()] *)
Definition response_json (r : response) : M value := lift (JSON.parse (body r)).

Definition get_stats : M value := fun st => (Normal (stats st), st).
Definition set_stats (v : value) : M unit :=
  fun st => (Normal tt, with_stats v st).

(** ** The program *)

Module CONFIG.
Definition GITHUB_API_URL : string :=
  "https://api.github.com/repos/horsicq/Detect-It-Easy".
Definition CACHE_KEY : string := "die_github_stats".
(** 30 * 60 * 1000 *)
Definition CACHE_DURATION : value :=
  Num (Number.mul (Number.mul (Number.of_Z 30) (Number.of_Z 60))
         (Number.of_Z 1000)).
Definition DEBUG : bool := false.
End CONFIG.

Module Utils.

(** [formatNumber(num)] *)
Definition formatNumber (n : value) : completion string :=
  let? large := js_ge n (num 1000) in
  if large then
    let? x := js_div n (num 1000) in
    Normal (Number.toFixed1 x ++ "k")%string
  else call_toString n.

(** [log(...args)] *)
Definition log : M unit :=
  if CONFIG.DEBUG then (fun st => (Normal tt, emit EvLog st)) else ret tt.

End Utils.

Module GitHubStats.

Definition getCachedStats : M value :=
  try_catch
    (cached <- getItem CONFIG.CACHE_KEY ;;
     if negb (ToBoolean cached) then ret Null
     else
       parsed <- JSON_parse cached ;;
       now <- Date_now ;;
       timestamp <- lift (Get parsed "timestamp") ;;
       age <- lift (js_sub now timestamp) ;;
       fresh <- lift (js_lt (Num age) CONFIG.CACHE_DURATION) ;;
       if fresh then ret parsed
       else removeItem CONFIG.CACHE_KEY ;; ret Null)
    (fun error => Utils.log ;; ret Null).

Definition cacheStats (stats : value) : M unit :=
  try_catch
    (now <- Date_now ;;
     let cacheData := Obj [("data", stats); ("timestamp", now)] in
     setItem CONFIG.CACHE_KEY (JSON.stringify cacheData))
    (fun error => Utils.log).

Definition isElementInViewport (el : element) : M bool :=
  fun st =>
    let r := rect el in
    let w := window st in
    let or_else a b := if ToBoolean (Num a) then a else b in
    (Normal
       (Number.geb (top r) (Number.of_Z 0)
        && Number.geb (left r) (Number.of_Z 0)
        && Number.leb (bottom r) (or_else (innerHeight w) (clientHeight w))
        && Number.leb (right r) (or_else (innerWidth w) (clientWidth w))),
     st).

Definition updateElement (id text : string) : M unit :=
  element <- getElementById id ;;
  match element with
  | Some _ => set_textContent id text
  | None => ret tt
  end.

Definition animateNumber (id : string) (targetValue : value) : M unit :=
  element <- getElementById id ;;
  match element with
  | None => ret tt
  | Some _ => requestAnimation id targetValue
  end.

(** [this.stats.name] *)
Definition stat (name : string) : M value :=
  s <- get_stats ;; lift (Get s name).

Definition updateFormatted (id name : string) : M unit :=
  v <- stat name ;;
  text <- lift (Utils.formatNumber v) ;;
  updateElement id text.

Definition updateDOM : M unit :=
  s <- get_stats ;;
  if negb (ToBoolean s) then ret tt
  else
    updateFormatted "github-stars" "stars" ;;
    updateFormatted "github-forks" "forks" ;;
    detailedStars <- getElementById "detailed-stars" ;;
    visible <- match detailedStars with
               | Some el => isElementInViewport el
               | None => ret false
               end ;;
    (if visible then
       (v <- stat "stars" ;; animateNumber "detailed-stars" v) ;;
       (v <- stat "forks" ;; animateNumber "detailed-forks" v) ;;
       (v <- stat "watchers" ;; animateNumber "detailed-watchers" v)
     else
       updateFormatted "detailed-stars" "stars" ;;
       updateFormatted "detailed-forks" "forks" ;;
       updateFormatted "detailed-watchers" "watchers") ;;
    v <- stat "openIssues" ;;
    text <- lift (call_toString v) ;;
    updateElement "detailed-issues" text.

Definition fallback : value :=
  Obj [("stars", num 10200); ("forks", num 879); ("watchers", num 168);
       ("openIssues", num 0)].

Definition showFallbackStats : M unit :=
  set_stats fallback ;;
  updateDOM.

Definition fetchFromAPI (net : network) : M unit :=
  try_catch
    (Utils.log ;;
     response <- fetch net CONFIG.GITHUB_API_URL ;;
     (if negb (ok response)
      then throw (HttpError (status response) (statusText response))
      else ret tt) ;;
     data <- response_json response ;;
     stars <- lift (Get data "stargazers_count") ;;
     forks <- lift (Get data "forks_count") ;;
     watchers <- lift (Get data "subscribers_count") ;;
     openIssues <- lift (Get data "open_issues_count") ;;
     set_stats (Obj [("stars", stars); ("forks", forks);
                     ("watchers", watchers); ("openIssues", openIssues)]) ;;
     s <- get_stats ;;
     cacheStats s ;;
     updateDOM ;;
     Utils.log)
    (fun error => Utils.log ;; showFallbackStats).

Definition loadStats (net : network) : M unit :=
  cached <- getCachedStats ;;
  if ToBoolean cached then
    data <- lift (Get cached "data") ;;
    set_stats data ;;
    updateDOM ;;
    Utils.log
  else fetchFromAPI net.

Definition init (net : network) : M unit := loadStats net.

(** [new GitHubStats()]: the promise of [init] is dropped, so a throw
    inside it surfaces as an unhandled rejection and the constructor
    returns normally. *)
Definition new (net : network) : M unit :=
  set_stats Null ;;
  try_catch (init net)
    (fun e => fun st => (Normal tt, emit (EvUnhandledRejection e) st)).

End GitHubStats.

Module StorageManager.

(** 24 * 60 * 60 * 1000 *)
Definition day : value :=
  Num (Number.mul
         (Number.mul (Number.mul (Number.of_Z 24) (Number.of_Z 60))
            (Number.of_Z 60))
         (Number.of_Z 1000)).

(** The callback of [keys.forEach] in [clearOldCache]. *)
Definition removeIfOld (key : string) : M unit :=
  if prefix "die_" key then
    item <- getItem key ;;
    if ToBoolean item then
      parsed <- JSON_parse item ;;
      now <- Date_now ;;
      timestamp <- lift (Get parsed "timestamp") ;;
      age <- lift (js_sub now timestamp) ;;
      old <- lift (js_gt (Num age) day) ;;
      if old then removeItem key ;; Utils.log else ret tt
    else ret tt
  else ret tt.

Definition clearOldCache : M unit :=
  try_catch
    (keys <- storage_keys ;;
     forEach keys removeIfOld)
    (fun error => Utils.log).

End StorageManager.

(** The [DOMContentLoaded] handler. The modules it creates after
    [GitHubStats] (scroll reveal, smooth scroll, navbar, card tilt, lazy
    images) touch neither the storage nor the text of the stat slots and
    are left out. *)
Definition onDOMContentLoaded (net : network) : M unit :=
  Utils.log ;;
  StorageManager.clearOldCache ;;
  GitHubStats.new net ;;
  Utils.log.

(** ** Observations on states and traces *)

(** Thirty minutes, in milliseconds. *)
Definition D : Number.number := Number.of_Z 1800000.

(** Number of requests sent, and of cache writes made, in a trace. *)
Fixpoint fetches (tr : list event) : nat :=
  match tr with
  | [] => O
  | EvFetch _ :: r => S (fetches r)
  | _ :: r => fetches r
  end.

Fixpoint cache_writes (tr : list event) : nat :=
  match tr with
  | [] => O
  | EvSetItem _ _ :: r => S (cache_writes r)
  | _ :: r => cache_writes r
  end.

Fixpoint text_writes (tr : list event) : nat :=
  match tr with
  | [] => O
  | EvText _ _ :: r => S (text_writes r)
  | _ :: r => text_writes r
  end.

(** The state after the stats key has been removed. *)
Definition evicted (st : state) : state :=
  emit (EvRemoveItem CONFIG.CACHE_KEY)
    (with_storage (remove_item CONFIG.CACHE_KEY (localStorage st)) st).

(** The state after a request has been sent and has settled. *)
Definition after_fetch (net : network) (st : state) : state :=
  emit (EvFetch CONFIG.GITHUB_API_URL)
    (with_clock (clock st + latency net) st).

(** A request that fails: it is rejected, or answered with a status
    outside 200..299, or with a body that is not JSON. *)
Definition fetch_fails (net : network) : Prop :=
  match reply net with
  | None => True
  | Some r => ok r = false \/ exists e, JSON.parse (body r) = Throw e
  end.

(** The cache record for a snapshot, as text, and the state after it
    has been stored. *)
Definition record_text (snapshot : value) (now : Z) : string :=
  JSON.stringify (Obj [("data", snapshot); ("timestamp", num now)]).

Definition stored (snapshot : value) (st : state) : state :=
  emit (EvSetItem CONFIG.CACHE_KEY (record_text snapshot (clock st)))
    (with_storage
       (set_item CONFIG.CACHE_KEY (record_text snapshot (clock st))
          (localStorage st)) st).

(** Whether the storage takes the record of this snapshot now, and the
    state [cacheStats] leaves: the record stored, or, when the storage
    refuses the write, the state as it was. *)
Definition takes_record (snapshot : value) (st : state) : bool :=
  accepts st CONFIG.CACHE_KEY (record_text snapshot (clock st))
    (localStorage st).

Definition after_cacheStats (snapshot : value) (st : state) : state :=
  if takes_record snapshot st then stored snapshot st else st.

(** What [fetchFromAPI] does once the snapshot is held and cached: it
    renders, and shows the fallback if rendering throws. *)
Definition render_or_fallback (st : state) : completion unit * state :=
  match GitHubStats.updateDOM st with
  | (Normal _, st') => (Normal tt, st')
  | (Throw _, st') => GitHubStats.showFallbackStats st'
  end.

(** Writing a text slot, and requesting a count-up, when the element
    exists. *)
Definition write (id text : string) (st : state) : state :=
  match lookup id (document st) with
  | Some _ =>
      emit (EvText id text) (with_document (set_text id text (document st)) st)
  | None => st
  end.

Definition schedule (id : string) (target : value) (st : state) : state :=
  match lookup id (document st) with
  | Some _ => emit (EvAnimate id target) st
  | None => st
  end.

Definition in_viewport (el : element) (w : viewport) : bool :=
  Number.geb (top (rect el)) (Number.of_Z 0)
  && Number.geb (left (rect el)) (Number.of_Z 0)
  && Number.leb (bottom (rect el))
       (if ToBoolean (Num (innerHeight w)) then innerHeight w
        else clientHeight w)
  && Number.leb (right (rect el))
       (if ToBoolean (Num (innerWidth w)) then innerWidth w
        else clientWidth w).

Definition detail_visible (st : state) : bool :=
  match lookup "detailed-stars" (document st) with
  | Some el => in_viewport el (window st)
  | None => false
  end.

(** The abbreviated text of a Number. *)
Definition abbreviate (x : Number.number) : string :=
  if Number.geb x (Number.of_Z 1000)
  then (Number.toFixed1 (Number.div x (Number.of_Z 1000)) ++ "k")%string
  else Number.toString x.

(** The text of m/10 with one decimal place. *)
Definition one_decimal (m : Z) : string :=
  (Number.decimal (m / 10) ++ "." ++ Number.decimal (m mod 10))%string.

(** What the formatting of a non-negative integer n is to yield: its
    decimal digits below 1000; from 1000 on, a tenth m/10 nearest to
    n/1000 (either neighbour when n/1000 lies halfway), followed by k. *)
Definition formatted (n : Z) (text : string) : Prop :=
  if n <? 1000 then text = Number.decimal n
  else
    exists m,
      text = (one_decimal m ++ "k")%string /\ Z.abs (100 * m - n) <= 50.

(** 1000 as a Number: mantissa 1000 * 2^43, exponent -43. *)
Definition M1000 : positive := 8796093022208000.

(** The display after the four texts have been shown: the hero slots
    and the issue slot are written; the three detailed slots count up to
    their targets when [detailed-stars] is in the viewport, and are
    written otherwise. *)
Definition painted (ta tb tc td : string) (a b c : value) (st : state)
  : state :=
  let st1 := write "github-forks" tb (write "github-stars" ta st) in
  let st2 :=
    if detail_visible st1 then
      schedule "detailed-watchers" c
        (schedule "detailed-forks" b (schedule "detailed-stars" a st1))
    else
      write "detailed-watchers" tc
        (write "detailed-forks" tb (write "detailed-stars" ta st1)) in
  write "detailed-issues" td st2.

(** The display after a snapshot of four Numbers has been rendered. *)
Definition rendered (a b c d : Number.number) (st : state) : state :=
  painted (abbreviate a) (abbreviate b) (abbreviate c) (Number.toString d)
    (Num a) (Num b) (Num c) st.

Definition snapshot (a b c d : value) : value :=
  Obj [("stars", a); ("forks", b); ("watchers", c); ("openIssues", d)].

(** What [v.name] gives on a value that is neither undefined nor null:
    the own property of an object, undefined when there is none. *)
Definition property (v : value) (name : string) : value :=
  match v with
  | Obj props =>
      match lookup name props with
      | Some x => x
      | None => Undefined
      end
  | _ => Undefined
  end.

(** The snapshot [fetchFromAPI] builds from the parsed body. *)
Definition snapshot_of_response (data : value) : completion value :=
  let? a := Get data "stargazers_count" in
  let? b := Get data "forks_count" in
  let? c := Get data "subscribers_count" in
  let? d := Get data "open_issues_count" in
  Normal (snapshot a b c d).

(** The text of a slot. *)
Definition text_of (id : string) (st : state) : option string :=
  match lookup id (document st) with
  | Some el => Some (textContent el)
  | None => None
  end.

(** A snapshot with its four fields present and non-negative. *)
Definition non_negative (x : Number.number) : Prop :=
  Number.geb x (Number.of_Z 0) = true.

Definition valid_snapshot (v : value) : Prop :=
  exists a b c d,
    v = snapshot (Num a) (Num b) (Num c) (Num d)
    /\ non_negative a /\ non_negative b /\ non_negative c /\ non_negative d.

(** States that agree on everything but the display: the document, the
    held snapshot, and the text and animation events. *)
Definition same_store (st st' : state) : Prop :=
  localStorage st' = localStorage st
  /\ clock st' = clock st
  /\ window st' = window st
  /\ fetches (trace st') = fetches (trace st)
  /\ cache_writes (trace st') = cache_writes (trace st).

Definition display_only {A} (m : M A) : Prop :=
  forall st, same_store st (snd (m st)).

(** Computations that send no request. *)
Definition quiet {A} (m : M A) : Prop :=
  forall st, fetches (trace (snd (m st))) = fetches (trace st).

(** A record that is still valid at time [t]: the age the read computes
    is below thirty minutes. *)
Definition fresh_at (timestamp : value) (t : Z) : Prop :=
  exists age,
    js_sub (num t) timestamp = Normal age /\ Number.ltb age D = true.

(** One page visit after another: each entry gives the time of the
    visit and what the network does; [loadStats] runs at each. *)
Fixpoint visits (l : list (Z * network)) (st : state) : state :=
  match l with
  | [] => st
  | (t, net) :: r =>
      visits r (snd (GitHubStats.loadStats net (with_clock t st)))
  end.

(** A value that reads as a CacheRecord: a data snapshot with its four
    fields and a numeric timestamp; and a text that parses as one. *)
Definition cache_record (v : value) : Prop :=
  exists snap ts,
    Get v "data" = Normal snap /\ valid_snapshot snap
    /\ Get v "timestamp" = Normal (Num ts).

Definition parses_as_record (s : string) : Prop :=
  exists v, JSON.parse s = Normal v /\ cache_record v.

(** What the sweep decides for one item at time [now]: remove it
    (true), keep it (false), or throw. *)
Definition verdict (now : Z) (key item : string) : completion bool :=
  if prefix "die_" key then
    if ToBoolean (Str item) then
      let? parsed := JSON.parse item in
      let? timestamp := Get parsed "timestamp" in
      let? age := js_sub (num now) timestamp in
      js_gt (Num age) StorageManager.day
    else Normal false
  else Normal false.

Definition is_old (now : Z) (entry : string * string) : bool :=
  match verdict now (fst entry) (snd entry) with
  | Normal true => true
  | _ => false
  end.

(** A text on which the read throws: [JSON.parse] rejects it, or it is
    the JSON [null], whose [timestamp] cannot be read. *)
Definition unreadable (s : string) : Prop :=
  (exists e, JSON.parse s = Throw e) \/ JSON.parse s = Normal Null.

(** Number of rejections left unhandled, in a trace. *)
Fixpoint rejections (tr : list event) : nat :=
  match tr with
  | [] => O
  | EvUnhandledRejection _ :: r => S (rejections r)
  | _ :: r => rejections r
  end.

(** Computations that leave an observation of the state as it was. *)
Definition preserves {X A} (obs : state -> X) (m : M A) : Prop :=
  forall st, obs (snd (m st)) = obs st.

(** The value of a string of decimal digits read after [acc]. *)
Fixpoint uint_value (d : Decimal.uint) (acc : Z) : Z :=
  match d with
  | Decimal.Nil => acc
  | Decimal.D0 l => uint_value l (acc * 10 + 0)
  | Decimal.D1 l => uint_value l (acc * 10 + 1)
  | Decimal.D2 l => uint_value l (acc * 10 + 2)
  | Decimal.D3 l => uint_value l (acc * 10 + 3)
  | Decimal.D4 l => uint_value l (acc * 10 + 4)
  | Decimal.D5 l => uint_value l (acc * 10 + 5)
  | Decimal.D6 l => uint_value l (acc * 10 + 6)
  | Decimal.D7 l => uint_value l (acc * 10 + 7)
  | Decimal.D8 l => uint_value l (acc * 10 + 8)
  | Decimal.D9 l => uint_value l (acc * 10 + 9)
  end.

(** A string of decimal digits followed by [j] zeros. *)
Fixpoint uint_shift (d : Decimal.uint) (j : nat) : Decimal.uint :=
  match d with
  | Decimal.Nil => Nat.iter j Decimal.D0 Decimal.Nil
  | Decimal.D0 l => Decimal.D0 (uint_shift l j)
  | Decimal.D1 l => Decimal.D1 (uint_shift l j)
  | Decimal.D2 l => Decimal.D2 (uint_shift l j)
  | Decimal.D3 l => Decimal.D3 (uint_shift l j)
  | Decimal.D4 l => Decimal.D4 (uint_shift l j)
  | Decimal.D5 l => Decimal.D5 (uint_shift l j)
  | Decimal.D6 l => Decimal.D6 (uint_shift l j)
  | Decimal.D7 l => Decimal.D7 (uint_shift l j)
  | Decimal.D8 l => Decimal.D8 (uint_shift l j)
  | Decimal.D9 l => Decimal.D9 (uint_shift l j)
  end.

(** A text that does not go on with a decimal digit. *)
Definition no_digit_ahead (rest : string) : Prop :=
  match rest with
  | String c _ => Text.digit_in 10 c = None
  | EmptyString => True
  end.

(** A text that goes on with a comma or a closing brace, as after a
    member of a JSON object. *)
Definition ends_value (rest : string) : Prop :=
  exists r, rest = String "," r \/ rest = String "}" r.

(** A text that [JSON.parse] reads as the value [v] wherever a member
    of an object may stand. *)
Definition number_text (t : string) (v : value) : Prop :=
  forall fuel rest,
    ends_value rest -> JSON.parse_value (S fuel) (t ++ rest) = Some (v, rest).

(** The text of a cache record whose five numbers are written as
    [t1] .. [t5]. *)
Definition record_string (t1 t2 t3 t4 t5 : string) : string :=
  Text.q "{'data':{'stars':" ++ t1 ++ Text.q ",'forks':" ++ t2
  ++ Text.q ",'watchers':" ++ t3 ++ Text.q ",'openIssues':" ++ t4
  ++ Text.q "},'timestamp':" ++ t5 ++ "}".

(** The six text slots the rendering writes. *)
Definition slot_ids : list string :=
  ["github-stars"; "github-forks"; "detailed-stars"; "detailed-forks";
   "detailed-watchers"; "detailed-issues"].

(** Documents that differ at most in the text of the elements named in
    [ids]: the same elements are present, each with its rectangle. *)
Definition same_layout (ids : list string)
  (d d' : list (string * element)) : Prop :=
  forall id,
    match lookup id d, lookup id d' with
    | None, None => True
    | Some el, Some el' =>
        rect el' = rect el /\ (~ In id ids -> el' = el)
    | _, _ => False
    end.

Definition writes_text_of (ids : list string) {A} (m : M A) : Prop :=
  forall st, same_layout ids (document st) (document (snd (m st))).

(** States of which the second has the storage of the first less some
    items the sweep found older than a day at time [now], and is
    otherwise the same. *)
Definition swept (now : Z) (st st' : state) : Prop :=
  clock st' = clock st /\ document st' = document st
  /\ window st' = window st /\ stats st' = stats st
  /\ fetches (trace st') = fetches (trace st)
  /\ cache_writes (trace st') = cache_writes (trace st)
  /\ text_writes (trace st') = text_writes (trace st)
  /\ forall k,
       lookup k (localStorage st') = lookup k (localStorage st)
       \/ (lookup k (localStorage st') = None
           /\ exists item,
               lookup k (localStorage st) = Some item
               /\ verdict now k item = Normal true).

(** ** A concrete page *)

Module Page.
Import Text.

Definition box (t l b r : Z) : DOMRect :=
  {| top := Number.of_Z t; left := Number.of_Z l;
     bottom := Number.of_Z b; right := Number.of_Z r |}.

Definition slot (y : Z) : element :=
  {| textContent := "-"; rect := box y 40 (y + 24) 200 |}.

(** The hero counters are on screen, the detailed ones below the
    fold of an 800 x 600 window. *)
Definition slots : list (string * element) :=
  [("github-stars", slot 120); ("github-forks", slot 150);
   ("detailed-stars", slot 1400); ("detailed-forks", slot 1430);
   ("detailed-watchers", slot 1460); ("detailed-issues", slot 1490)].

Definition screen : viewport :=
  {| innerHeight := Number.of_Z 600; innerWidth := Number.of_Z 800;
     clientHeight := Number.of_Z 600; clientWidth := Number.of_Z 800 |}.

(** A storage with room for every write, and one that takes none (it
    is full, or the browser blocks it). *)
Definition roomy (key item : string) (items : list (string * string))
  : bool := true.

Definition opened (items : list (string * string)) (now : Z) : state :=
  {| localStorage := items; accepts := roomy; clock := now;
     document := slots; window := screen; stats := Null; trace := [] |}.

(** The same page scrolled down to the detailed counters. *)
Definition scrolled (st : state) : state :=
  with_document
    [("github-stars", slot (-1180)); ("github-forks", slot (-1150));
     ("detailed-stars", slot 100); ("detailed-forks", slot 130);
     ("detailed-watchers", slot 160); ("detailed-issues", slot 190)] st.

Definition answer (code : Z) (text : string) : network :=
  {| latency := 120;
     reply := Some {| status := code; statusText := ""; body := text |} |}.

Definition offline : network := {| latency := 30; reply := None |}.

Definition t0 : Z := 1700000000000.

Definition record : string :=
  q "{'data':{'stars':12345,'forks':20,'watchers':5,'openIssues':2},'timestamp':1700000000000}".

Definition live : string :=
  q "{'stargazers_count': 500, 'forks_count': 20, 'subscribers_count': 5, 'open_issues_count': 2, 'name': 'Detect-It-Easy'}".

(** One [Math.pow] for the exponent 4: two squarings. *)
Definition pow (base exponent : Number.number) : Number.number :=
  Number.mul (Number.mul base base) (Number.mul base base).

End Page.

(** ** Timers: [setTimeout], [clearTimeout] and the event loop

    The part of the event loop [Utils.debounce] and [Utils.throttle]
    run on. A timer is never run before it is due; when it runs after
    that is up to the loop, which the model leaves to its input: a
    [Tick] is the loop taking the time to run one timer that is due. *)

Module Timers.

Record timer (K : Type) : Type := {
  handle : Z;
  due : Z;
  task : K
}.
Arguments handle {K} _.
Arguments due {K} _.
Arguments task {K} _.

(** The clock, the timers that wait, in the order they were set, and
    the handle the next timer gets. *)
Record loop (K : Type) : Type := {
  time : Z;
  pending : list (timer K);
  next_handle : Z
}.
Arguments time {K} _.
Arguments pending {K} _.
Arguments next_handle {K} _.

Definition idle {K} (t : Z) : loop K :=
  {| time := t; pending := []; next_handle := 1 |}.

(** Time passes until [t]; it never runs backwards. *)
Definition at_time {K} (t : Z) (lp : loop K) : loop K :=
  {| time := Z.max (time lp) t; pending := pending lp;
     next_handle := next_handle lp |}.

(** [setTimeout(task, delay)]: a negative delay counts as 0. *)
Definition setTimeout {K} (k : K) (delay : Z) (lp : loop K) : Z * loop K :=
  (next_handle lp,
   {| time := time lp;
      pending :=
        pending lp
        ++ [{| handle := next_handle lp;
               due := time lp + Z.max 0 delay;
               task := k |}];
      next_handle := next_handle lp + 1 |}).

Definition without {K} (h : Z) (l : list (timer K)) : list (timer K) :=
  filter (fun t => negb (handle t =? h)) l.

(** [clearTimeout(h)]: [None] is [undefined], which is no handle. *)
Definition clearTimeout {K} (h : option Z) (lp : loop K) : loop K :=
  match h with
  | Some h =>
      {| time := time lp; pending := without h (pending lp);
         next_handle := next_handle lp |}
  | None => lp
  end.

(** The timer due first, the one set first among equals. *)
Fixpoint earliest {K} (l : list (timer K)) : option (timer K) :=
  match l with
  | [] => None
  | t :: r =>
      match earliest r with
      | Some u => if due u <? due t then Some u else Some t
      | None => Some t
      end
  end.

(** The loop takes a timer that is due, if there is one. *)
Definition take_due {K} (lp : loop K) : option (timer K * loop K) :=
  match earliest (pending lp) with
  | Some t =>
      if due t <=? time lp then
        Some (t, {| time := time lp;
                    pending := without (handle t) (pending lp);
                    next_handle := next_handle lp |})
      else None
  | None => None
  end.

(** What happens to a wrapped function: it is called with arguments
    at a time, the loop takes the time to run a timer, or the page
    changes what the function acts on. *)
Inductive input (A S : Type) : Type :=
| Call (t : Z) (args : A)
| Tick (t : Z)
| Env (t : Z) (change : S -> S).
Arguments Call {A S} t args.
Arguments Tick {A S} t.
Arguments Env {A S} t change.

(** The log of a wrapped function: a call of the wrapper, and a run of
    the function it wraps, with whether the run threw. *)
Inductive entry (A : Type) : Type :=
| Called (t : Z) (args : A)
| Ran (t : Z) (args : A) (threw : bool).
Arguments Called {A} t args.
Arguments Ran {A} t args threw.

Definition threw {A} (c : completion A) : bool :=
  match c with Normal _ => false | Throw _ => true end.

End Timers.

(** ** [Utils.debounce] and [Utils.throttle] *)

Module Debounce.
Import Timers.

(** One debounced function: the variable [timeout] of its closure, the
    loop its timers wait in, the state [func] acts on, and the log,
    newest entry first. The task of a timer is [later], which closes
    over the arguments of the call that set it. *)
Record debounced (A S : Type) : Type := {
  loop : Timers.loop A;
  timeout : option Z;
  user : S;
  log : list (entry A)
}.
Arguments loop {A S} _.
Arguments timeout {A S} _.
Arguments user {A S} _.
Arguments log {A S} _.

Definition start {A S} (t : Z) (s : S) : debounced A S :=
  {| loop := idle t; timeout := None; user := s; log := [] |}.

Section Closure.

Variables A S : Type.

(** The function that is wrapped, acting on a state of its own, and
    the parameter [wait], [None] when it is left out. *)
Variable func : A -> S -> completion unit * S.
Variable wait : option Z.

(** [wait = 16] *)
Definition delay : Z := match wait with Some n => n | None => 16 end.

(** [later]: clearTimeout(timeout); func(...args) *)
Definition later (args : A) (w : debounced A S) : debounced A S :=
  let lp := clearTimeout (timeout w) (loop w) in
  let '(c, s) := func args (user w) in
  {| loop := lp; timeout := timeout w; user := s;
     log := Ran (time lp) args (threw c) :: log w |}.

(** [executedFunction(...args)]: clearTimeout(timeout);
    timeout = setTimeout(later, wait) *)
Definition executedFunction (args : A) (w : debounced A S)
  : debounced A S :=
  let lp := clearTimeout (timeout w) (loop w) in
  let '(h, lp') := setTimeout args delay lp in
  {| loop := lp'; timeout := Some h; user := user w;
     log := Called (time lp) args :: log w |}.

End Closure.

Arguments delay wait : assert.
Arguments later {A S} func args w.
Arguments executedFunction {A S} wait args w.

(** [debounce(func, wait = 16)] returns [executedFunction]. *)
Definition debounce {A S} (func : A -> S -> completion unit * S)
  (wait : option Z) : A -> debounced A S -> debounced A S :=
  executedFunction wait.

(** The debounced function in the loop. *)
Definition step {A S} (func : A -> S -> completion unit * S)
  (wait : option Z) (w : debounced A S) (i : input A S) : debounced A S :=
  match i with
  | Call t args =>
      debounce func wait args
        {| loop := at_time t (loop w); timeout := timeout w;
           user := user w; log := log w |}
  | Tick t =>
      match take_due (at_time t (loop w)) with
      | Some (tm, lp) =>
          later func (task tm)
            {| loop := lp; timeout := timeout w; user := user w;
               log := log w |}
      | None =>
          {| loop := at_time t (loop w); timeout := timeout w;
             user := user w; log := log w |}
      end
  | Env t change =>
      {| loop := at_time t (loop w); timeout := timeout w;
         user := change (user w); log := log w |}
  end.

Definition run {A S} (func : A -> S -> completion unit * S)
  (wait : option Z) (inputs : list (input A S)) (w : debounced A S)
  : debounced A S :=
  fold_left (step func wait) inputs w.

(** Every run directly follows, in the log, the call whose arguments
    it has, and comes at least [gap] after it. *)
Fixpoint served_latest {A} (gap : Z) (l : list (entry A)) : Prop :=
  match l with
  | [] => True
  | Called _ _ :: r => served_latest gap r
  | Ran t a _ :: r =>
      match r with
      | Called t0 a0 :: _ => a = a0 /\ t0 + gap <= t
      | _ => False
      end
      /\ served_latest gap r
  end.

(** What holds of a debounced function at all times: its log is as
    above, and at most one timer waits, the one of the newest call. *)
Definition consistent {A S} (gap : Z) (w : debounced A S) : Prop :=
  served_latest gap (log w)
  /\ match pending (loop w) with
     | [] => True
     | [tm] =>
         timeout w = Some (handle tm)
         /\ exists t0 r,
             log w = Called t0 (task tm) :: r /\ due tm = t0 + gap
     | _ => False
     end.

End Debounce.

Module Throttle.
Import Timers.

(** One throttled function: the variable [inThrottle] of its closure
    ([undefined] at first, which is falsy), the loop, the state [func]
    acts on, and the log. The only task of its timers is to set
    [inThrottle] to false. *)
Record throttled (A S : Type) : Type := {
  loop : Timers.loop unit;
  inThrottle : bool;
  user : S;
  log : list (entry A)
}.
Arguments loop {A S} _.
Arguments inThrottle {A S} _.
Arguments user {A S} _.
Arguments log {A S} _.

Definition start {A S} (t : Z) (s : S) : throttled A S :=
  {| loop := idle t; inThrottle := false; user := s; log := [] |}.

(** [() => inThrottle = false] *)
Definition release {A S} (w : throttled A S) : throttled A S :=
  {| loop := loop w; inThrottle := false; user := user w; log := log w |}.

(** [limit = 100] *)
Definition delay (limit : option Z) : Z :=
  match limit with Some n => n | None => 100 end.

(** [throttle(func, limit = 100)] returns the function
    if (!inThrottle) { func.apply(this, args); inThrottle = true;
    setTimeout(release, limit) }. A throw of [func] leaves the block
    before the flag is set. *)
Definition throttle {A S} (func : A -> S -> completion unit * S)
  (limit : option Z) (args : A) (w : throttled A S)
  : completion unit * throttled A S :=
  let called := Called (time (loop w)) args :: log w in
  if inThrottle w then
    (Normal tt,
     {| loop := loop w; inThrottle := inThrottle w; user := user w;
        log := called |})
  else
    match func args (user w) with
    | (Normal _, s) =>
        let '(_, lp) := setTimeout tt (delay limit) (loop w) in
        (Normal tt,
         {| loop := lp; inThrottle := true; user := s;
            log := Ran (time (loop w)) args false :: called |})
    | (Throw e, s) =>
        (Throw e,
         {| loop := loop w; inThrottle := inThrottle w; user := s;
            log := Ran (time (loop w)) args true :: called |})
    end.

(** The throttled function in the loop. *)
Definition step {A S} (func : A -> S -> completion unit * S)
  (limit : option Z) (w : throttled A S) (i : input A S) : throttled A S :=
  match i with
  | Call t args =>
      snd (throttle func limit args
             {| loop := at_time t (loop w); inThrottle := inThrottle w;
                user := user w; log := log w |})
  | Tick t =>
      match take_due (at_time t (loop w)) with
      | Some (_, lp) =>
          release {| loop := lp; inThrottle := inThrottle w;
                     user := user w; log := log w |}
      | None =>
          {| loop := at_time t (loop w); inThrottle := inThrottle w;
             user := user w; log := log w |}
      end
  | Env t change =>
      {| loop := at_time t (loop w); inThrottle := inThrottle w;
         user := change (user w); log := log w |}
  end.

Definition run {A S} (func : A -> S -> completion unit * S)
  (limit : option Z) (inputs : list (input A S)) (w : throttled A S)
  : throttled A S :=
  fold_left (step func limit) inputs w.

(** The newest run in a log: its time and whether it threw. *)
Fixpoint last_run {A} (l : list (entry A)) : option (Z * bool) :=
  match l with
  | [] => None
  | Called _ _ :: r => last_run r
  | Ran t _ b :: _ => Some (t, b)
  end.

(** Every run is the run of the call logged just before it, at the
    time of that call, and comes at least [gap] after the run before
    it unless that one threw. *)
Fixpoint spaced {A} (gap : Z) (l : list (entry A)) : Prop :=
  match l with
  | [] => True
  | Called _ _ :: r => spaced gap r
  | Ran t a _ :: r =>
      match r with
      | Called t0 a0 :: _ => a = a0 /\ t0 = t
      | _ => False
      end
      /\ match last_run r with
         | Some (t1, false) => t1 + gap <= t
         | _ => True
         end
      /\ spaced gap r
  end.

(** What holds of a throttled function at all times: its log is as
    above; while the flag is set one timer waits, due [gap] after the
    newest run, which returned; while it is not, none waits, and the
    newest run threw or lies at least [gap] back. *)
Definition consistent {A S} (gap : Z) (w : throttled A S) : Prop :=
  spaced gap (log w)
  /\ if inThrottle w then
       exists tm t1,
         pending (loop w) = [tm]
         /\ last_run (log w) = Some (t1, false)
         /\ due tm = t1 + gap
     else
       pending (loop w) = []
       /\ match last_run (log w) with
          | Some (t1, false) => t1 + gap <= time (loop w)
          | _ => True
          end.

End Throttle.

(** ** [NavbarScroll] *)

Module NavbarScroll.
Import Timers.

(** The two properties of the navbar's inline style the class writes. *)
Record style : Type := {
  background : string;
  boxShadow : string
}.

(** [window.pageYOffset], the style of [this.navbar], the field
    [this.scrolled], and the number of style properties written so
    far. *)
Record page : Type := {
  pageYOffset : Number.number;
  navbar : style;
  scrolled : bool;
  style_writes : nat
}.

Definition dark : style :=
  {| background := "rgba(10, 10, 10, 0.9)";
     boxShadow := "0 8px 32px rgba(0, 0, 0, 0.4)" |}.

Definition clear : style := {| background := ""; boxShadow := "" |}.

Definition updateNavbar (p : page) : page :=
  let currentScroll := pageYOffset p in
  let shouldBeScrolled := Number.gtb currentScroll (Number.of_Z 50) in
  if Bool.eqb shouldBeScrolled (scrolled p) then p
  else
    {| pageYOffset := pageYOffset p;
       navbar := if shouldBeScrolled then dark else clear;
       scrolled := shouldBeScrolled;
       style_writes := style_writes p + 2 |}.

(** The function [init] hands to [debounce]: () => this.updateNavbar() *)
Definition handler (_ : unit) (p : page) : completion unit * page :=
  (Normal tt, updateNavbar p).

(** [new NavbarScroll()] at time [t] on a page scrolled to [y]: without
    an element of class navbar nothing is set up; otherwise [scrolled]
    starts as false, the scroll listener is the debounced handler with
    a wait of 10, and [updateNavbar] runs once. *)
Definition new (element : option style) (t : Z) (y : Number.number)
  : option (Debounce.debounced unit page) :=
  match element with
  | None => None
  | Some st =>
      Some (Debounce.start t
              (updateNavbar
                 {| pageYOffset := y; navbar := st; scrolled := false;
                    style_writes := 0 |}))
  end.

(** What happens on the page: the window scrolls to an offset, which
    fires the scroll listener, or the loop takes the time to run a
    timer. *)
Inductive happening : Type :=
| ScrollTo (t : Z) (y : Number.number)
| Loop (t : Z).

Definition scroll (t : Z) (y : Number.number) : list (input unit page) :=
  [Env t (fun p => {| pageYOffset := y; navbar := navbar p;
                      scrolled := scrolled p;
                      style_writes := style_writes p |});
   Call t tt].

Definition inputs_of (l : list happening) : list (input unit page) :=
  flat_map (fun h => match h with
                     | ScrollTo t y => scroll t y
                     | Loop t => [Tick t]
                     end) l.

(** The style goes with the flag: dark while [scrolled] is set;
    cleared, or still as the element had it at first, while it is
    not. *)
Definition styled (first : style) (p : page) : Prop :=
  if scrolled p then navbar p = dark
  else navbar p = clear \/ navbar p = first.

End NavbarScroll.

(** ** The frames of [animateNumber] *)

Module Animation.

Definition add (x y : Number.number) : Number.number :=
  SFadd Number.prec Number.emax x y.


(** [Math.min] of two Numbers: NaN if either is NaN, and -0 below +0. *)
Definition min (x y : Number.number) : Number.number :=
  match x, y with
  | S754_nan, _ | _, S754_nan => Number.NaN
  | _, _ =>
      if Number.ltb x y then x
      else if Number.ltb y x then y
      else match x with S754_zero true => x | _ => y end
  end.

Definition duration : Number.number := Number.of_Z 1500.

(** [Math.min(elapsed / duration, 1)] for the frame at [currentTime]
    of an animation started at [startTime]. *)
Definition progress (startTime currentTime : Number.number)
  : Number.number :=
  min (Number.div (Number.sub currentTime startTime) duration)
    (Number.of_Z 1).


Section Frames.

(** [Math.pow], which ECMA-262 leaves to the implementation to
    approximate. *)
Variable pow : Number.number -> Number.number -> Number.number.



End Frames.

End Animation.

(** * Properties *)

(** ** Evaluation of computations *)

Ltac run :=
  cbv beta iota zeta delta
      [bind ret lift throw try_catch forEach
       getItem setItem removeItem storage_keys getElementById
       set_textContent requestAnimation get_stats set_stats Date_now
       JSON_parse response_json cbind negb];
  cbn [localStorage clock document window stats trace
       with_storage with_clock with_document with_stats emit fst snd].

Lemma CACHE_DURATION_value : CONFIG.CACHE_DURATION = Num D.
Proof. reflexivity. Qed.

Lemma day_value : StorageManager.day = num 86400000.
Proof. reflexivity. Qed.

Lemma log_skip : Utils.log = ret tt.
Proof. reflexivity. Qed.

(** ** Comparison of Numbers *)

Lemma SFcompare_swap (x y : spec_float) :
  SFcompare y x = option_map CompOpp (SFcompare x y).
Proof.
  destruct x as [[]|[]| |[] mx ex], y as [[]|[]| |[] my ey];
    try reflexivity; cbn [SFcompare option_map];
    rewrite (Z.compare_antisym ex ey);
    destruct (ex ?= ey); cbn [CompOpp]; try reflexivity;
    replace (Pos.compare_cont Eq my mx)
      with (CompOpp (Pos.compare_cont Eq mx my))
      by (rewrite Pos.compare_cont_antisym; reflexivity);
    destruct (Pos.compare_cont Eq mx my); reflexivity.
Qed.

Lemma geb_not_ltb (x y : Number.number) :
  Number.geb x y = true -> Number.ltb x y = false.
Proof.
  unfold Number.geb, Number.ltb, SFleb, SFltb.
  rewrite (SFcompare_swap x y).
  destruct (SFcompare x y) as [[]|]; cbn; congruence.
Qed.

(** ** Association lists *)

Lemma lookup_remove_item {A} (k : string) (l : list (string * A)) :
  lookup k (remove_item k l) = None.
Proof.
  induction l as [|[k' a] r IH]; cbn; [reflexivity|].
  destruct (String.eqb_spec k k') as [->|Hne]; [exact IH|].
  cbn. destruct (String.eqb_spec k k'); [contradiction|exact IH].
Qed.

Lemma lookup_set_item {A} (k : string) (a : A) (l : list (string * A)) :
  lookup k (set_item k a l) = Some a.
Proof.
  induction l as [|[k' a'] r IH]; cbn.
  - rewrite String.eqb_refl. reflexivity.
  - destruct (String.eqb_spec k k') as [->|Hne]; cbn.
    + rewrite String.eqb_refl. reflexivity.
    + destruct (String.eqb_spec k k'); [contradiction|exact IH].
Qed.

(** ** The cache read, case by case *)

Section CacheRead.

Variable st : state.

Lemma read_absent :
  lookup CONFIG.CACHE_KEY (localStorage st) = None ->
  GitHubStats.getCachedStats st = (Normal Null, st).
Proof.
  intros Hl. unfold GitHubStats.getCachedStats. run.
  rewrite Hl. reflexivity.
Qed.

Lemma read_empty :
  lookup CONFIG.CACHE_KEY (localStorage st) = Some "" ->
  GitHubStats.getCachedStats st = (Normal Null, st).
Proof.
  intros Hl. unfold GitHubStats.getCachedStats. run.
  rewrite Hl. reflexivity.
Qed.

Variable s : string.
Hypothesis held : lookup CONFIG.CACHE_KEY (localStorage st) = Some s.
Hypothesis nonempty : s <> "".

Lemma read_malformed e :
  JSON.parse s = Throw e ->
  GitHubStats.getCachedStats st = (Normal Null, st).
Proof.
  intros Hp. unfold GitHubStats.getCachedStats. run.
  rewrite held. cbn [ToBoolean ToString].
  destruct (String.eqb_spec s ""); [contradiction|]. run.
  rewrite Hp. reflexivity.
Qed.

Variable parsed : value.
Hypothesis parses : JSON.parse s = Normal parsed.

Lemma read_no_timestamp e :
  Get parsed "timestamp" = Throw e ->
  GitHubStats.getCachedStats st = (Normal Null, st).
Proof.
  intros Hg. unfold GitHubStats.getCachedStats. run.
  rewrite held. cbn [ToBoolean ToString].
  destruct (String.eqb_spec s ""); [contradiction|]. run.
  rewrite parses, Hg. reflexivity.
Qed.

Variable timestamp : value.
Hypothesis has_timestamp : Get parsed "timestamp" = Normal timestamp.

Lemma read_bad_timestamp e :
  js_sub (num (clock st)) timestamp = Throw e ->
  GitHubStats.getCachedStats st = (Normal Null, st).
Proof.
  intros Ha. unfold GitHubStats.getCachedStats. run.
  rewrite held. cbn [ToBoolean ToString].
  destruct (String.eqb_spec s ""); [contradiction|]. run.
  rewrite parses, has_timestamp, Ha. reflexivity.
Qed.

Variable age : Number.number.
Hypothesis has_age : js_sub (num (clock st)) timestamp = Normal age.

Lemma read_record :
  GitHubStats.getCachedStats st =
  if Number.ltb age D then (Normal parsed, st) else (Normal Null, evicted st).
Proof.
  unfold GitHubStats.getCachedStats. run.
  rewrite held. cbn [ToBoolean ToString].
  destruct (String.eqb_spec s ""); [contradiction|]. run.
  rewrite parses, has_timestamp, has_age.
  rewrite CACHE_DURATION_value. unfold js_lt. cbn [ToNumber cbind].
  destruct (Number.ltb age D); reflexivity.
Qed.

Lemma read_fresh :
  Number.ltb age D = true ->
  GitHubStats.getCachedStats st = (Normal parsed, st).
Proof. intros H. rewrite read_record, H. reflexivity. Qed.

Lemma read_expired :
  Number.ltb age D = false ->
  GitHubStats.getCachedStats st = (Normal Null, evicted st).
Proof. intros H. rewrite read_record, H. reflexivity. Qed.

End CacheRead.

(** ** Rendering touches the display only *)

Lemma same_store_refl st : same_store st st.
Proof. repeat split. Qed.

Lemma same_store_trans st1 st2 st3 :
  same_store st1 st2 -> same_store st2 st3 -> same_store st1 st3.
Proof.
  unfold same_store. intros (A1 & A2 & A3 & A4 & A5) (B1 & B2 & B3 & B4 & B5).
  repeat split; congruence.
Qed.

Lemma display_ret {A} (a : A) : display_only (ret a).
Proof. intros st. apply same_store_refl. Qed.

Lemma display_lift {A} (c : completion A) : display_only (lift c).
Proof. intros st. apply same_store_refl. Qed.

Lemma display_bind {A B} (m : M A) (k : A -> M B) :
  display_only m -> (forall a, display_only (k a)) -> display_only (bind m k).
Proof.
  intros Hm Hk st. unfold bind. specialize (Hm st).
  destruct (m st) as [[a|e] st1]; cbn [snd] in *; [|exact Hm].
  eapply same_store_trans; [exact Hm|apply Hk].
Qed.

Lemma display_get_stats : display_only get_stats.
Proof. intros st. apply same_store_refl. Qed.

Lemma display_set_stats v : display_only (set_stats v).
Proof. intros st. repeat split. Qed.

Lemma display_getElementById id : display_only (getElementById id).
Proof. intros st. apply same_store_refl. Qed.

Lemma display_set_textContent id text : display_only (set_textContent id text).
Proof. intros st. repeat split. Qed.

Lemma display_requestAnimation id v : display_only (requestAnimation id v).
Proof. intros st. repeat split. Qed.

Lemma display_isElementInViewport el :
  display_only (GitHubStats.isElementInViewport el).
Proof. intros st. apply same_store_refl. Qed.

Create HintDb display.

#[local] Hint Resolve display_ret display_lift display_get_stats
  display_set_stats display_getElementById display_set_textContent
  display_requestAnimation display_isElementInViewport : display.

Ltac display :=
  repeat first
    [ apply display_bind; [|intro]
    | match goal with
      | |- display_only (match ?x with _ => _ end) => destruct x
      | |- display_only (if ?b then _ else _) => destruct b
      end
    | solve [auto with display] ].

Lemma display_updateElement id text :
  display_only (GitHubStats.updateElement id text).
Proof. unfold GitHubStats.updateElement. display. Qed.

Lemma display_animateNumber id v :
  display_only (GitHubStats.animateNumber id v).
Proof. unfold GitHubStats.animateNumber. display. Qed.

Lemma display_stat name : display_only (GitHubStats.stat name).
Proof. unfold GitHubStats.stat. display. Qed.

#[local] Hint Resolve display_updateElement display_animateNumber
  display_stat : display.

Lemma display_updateFormatted id name :
  display_only (GitHubStats.updateFormatted id name).
Proof. unfold GitHubStats.updateFormatted. display. Qed.

#[local] Hint Resolve display_updateFormatted : display.

Lemma display_updateDOM : display_only GitHubStats.updateDOM.
Proof. unfold GitHubStats.updateDOM. display. Qed.

#[local] Hint Resolve display_updateDOM : display.

Lemma display_showFallbackStats : display_only GitHubStats.showFallbackStats.
Proof. unfold GitHubStats.showFallbackStats. display. Qed.

(** ** Rendering a snapshot of four Numbers *)

Lemma formatNumber_Num (x : Number.number) :
  Utils.formatNumber (Num x) = Normal (abbreviate x).
Proof.
  unfold Utils.formatNumber, abbreviate, js_ge, js_div, num.
  cbn [ToNumber cbind call_toString ToString].
  destruct (Number.geb x (Number.of_Z 1000)); reflexivity.
Qed.

Lemma updateElement_write id text st :
  GitHubStats.updateElement id text st = (Normal tt, write id text st).
Proof.
  unfold GitHubStats.updateElement, write. run.
  destruct (lookup id (document st)); reflexivity.
Qed.

Lemma animateNumber_schedule id v st :
  GitHubStats.animateNumber id v st = (Normal tt, schedule id v st).
Proof.
  unfold GitHubStats.animateNumber, schedule. run.
  destruct (lookup id (document st)); reflexivity.
Qed.

Lemma stats_write id text st : stats (write id text st) = stats st.
Proof. unfold write. destruct (lookup id (document st)); reflexivity. Qed.

Lemma stats_schedule id v st : stats (schedule id v st) = stats st.
Proof. unfold schedule. destruct (lookup id (document st)); reflexivity. Qed.

Lemma updateFormatted_Num id name x st :
  Get (stats st) name = Normal (Num x) ->
  GitHubStats.updateFormatted id name st
  = (Normal tt, write id (abbreviate x) st).
Proof.
  intros Hg. unfold GitHubStats.updateFormatted, GitHubStats.stat. run.
  rewrite Hg, formatNumber_Num. apply updateElement_write.
Qed.

Lemma Get_truthy v name x : Get v name = Normal (Num x) -> ToBoolean v = true.
Proof. destruct v; cbn; try discriminate; reflexivity. Qed.

Lemma stat_eval name v st :
  Get (stats st) name = Normal v -> GitHubStats.stat name st = (Normal v, st).
Proof. intros Hg. unfold GitHubStats.stat. run. rewrite Hg. reflexivity. Qed.

Lemma isElementInViewport_eval el st :
  GitHubStats.isElementInViewport el st
  = (Normal (in_viewport el (window st)), st).
Proof. reflexivity. Qed.

Lemma updateDOM_numbers a b c d st :
  Get (stats st) "stars" = Normal (Num a) ->
  Get (stats st) "forks" = Normal (Num b) ->
  Get (stats st) "watchers" = Normal (Num c) ->
  Get (stats st) "openIssues" = Normal (Num d) ->
  GitHubStats.updateDOM st = (Normal tt, rendered a b c d st).
Proof.
  intros Ha Hb Hc Hd.
  unfold GitHubStats.updateDOM, rendered, painted. run.
  rewrite (Get_truthy _ _ _ Ha).
  rewrite (updateFormatted_Num _ _ a) by exact Ha. run.
  rewrite (updateFormatted_Num _ _ b) by (rewrite stats_write; exact Hb). run.
  set (st1 := write "github-forks" _ _).
  assert (S1 : stats st1 = stats st)
    by (unfold st1; rewrite !stats_write; reflexivity).
  unfold detail_visible.
  destruct (lookup "detailed-stars" (document st1)) as [el|];
    [rewrite isElementInViewport_eval;
     destruct (in_viewport el (window st1))|].
  - rewrite (stat_eval "stars" (Num a)) by (rewrite S1; exact Ha).
    rewrite animateNumber_schedule.
    rewrite (stat_eval "forks" (Num b))
      by (rewrite stats_schedule, S1; exact Hb).
    rewrite animateNumber_schedule.
    rewrite (stat_eval "watchers" (Num c))
      by (rewrite !stats_schedule, S1; exact Hc).
    rewrite animateNumber_schedule.
    rewrite (stat_eval "openIssues" (Num d))
      by (rewrite !stats_schedule, S1; exact Hd).
    apply updateElement_write.
  - rewrite (updateFormatted_Num _ _ a) by (rewrite S1; exact Ha).
    rewrite (updateFormatted_Num _ _ b) by (rewrite stats_write, S1; exact Hb).
    rewrite (updateFormatted_Num _ _ c)
      by (rewrite !stats_write, S1; exact Hc).
    rewrite (stat_eval "openIssues" (Num d))
      by (rewrite !stats_write, S1; exact Hd).
    apply updateElement_write.
  - rewrite (updateFormatted_Num _ _ a) by (rewrite S1; exact Ha).
    rewrite (updateFormatted_Num _ _ b) by (rewrite stats_write, S1; exact Hb).
    rewrite (updateFormatted_Num _ _ c)
      by (rewrite !stats_write, S1; exact Hc).
    rewrite (stat_eval "openIssues" (Num d))
      by (rewrite !stats_write, S1; exact Hd).
    apply updateElement_write.
Qed.

Lemma showFallbackStats_eval st :
  GitHubStats.showFallbackStats st
  = (Normal tt,
     painted "10.2k" "879" "168" "0" (num 10200) (num 879) (num 168)
       (with_stats GitHubStats.fallback st)).
Proof.
  unfold GitHubStats.showFallbackStats. run.
  exact (updateDOM_numbers (Number.of_Z 10200) (Number.of_Z 879)
           (Number.of_Z 168) (Number.of_Z 0)
           (with_stats GitHubStats.fallback st)
           eq_refl eq_refl eq_refl eq_refl).
Qed.

Lemma stats_painted ta tb tc td a b c st :
  stats (painted ta tb tc td a b c st) = stats st.
Proof.
  unfold painted. rewrite stats_write.
  destruct (detail_visible _);
    repeat (rewrite stats_write || rewrite stats_schedule); reflexivity.
Qed.

(** ** C1: a failing fetch shows the fallback and writes no cache *)

Lemma fetch_failure_handled net st :
  fetch_fails net ->
  GitHubStats.fetchFromAPI net st
  = GitHubStats.showFallbackStats (after_fetch net st).
Proof.
  unfold fetch_fails, GitHubStats.fetchFromAPI. rewrite log_skip.
  unfold fetch. run. fold (after_fetch net st).
  destruct (reply net) as [r|]; [|reflexivity].
  intros [Hok|[e He]].
  - rewrite Hok. reflexivity.
  - destruct (ok r); [|reflexivity]. cbn [negb]. rewrite He. reflexivity.
Qed.

Lemma fetch_shape_error net st r data e :
  reply net = Some r ->
  ok r = true ->
  JSON.parse (body r) = Normal data ->
  snapshot_of_response data = Throw e ->
  GitHubStats.fetchFromAPI net st
  = GitHubStats.showFallbackStats (after_fetch net st).
Proof.
  intros Hr Hok Hp Hs. unfold GitHubStats.fetchFromAPI. rewrite log_skip.
  unfold fetch. run. fold (after_fetch net st).
  rewrite Hr, Hok. cbn [negb]. rewrite Hp.
  unfold snapshot_of_response in Hs.
  destruct (Get data "stargazers_count"); [|reflexivity].
  destruct (Get data "forks_count"); [|reflexivity].
  destruct (Get data "subscribers_count"); [|reflexivity].
  destruct (Get data "open_issues_count"); [|reflexivity].
  discriminate Hs.
Qed.

Lemma same_store_painted ta tb tc td a b c st :
  same_store st (painted ta tb tc td a b c st).
Proof.
  assert (W : forall id text s, same_store s (write id text s)).
  { intros id text s. unfold write.
    destruct (lookup id (document s)); repeat split. }
  assert (S : forall id v s, same_store s (schedule id v s)).
  { intros id v s. unfold schedule.
    destruct (lookup id (document s)); repeat split. }
  unfold painted.
  eapply same_store_trans; [|apply W].
  destruct (detail_visible _);
    repeat (eapply same_store_trans; [|first [apply W|apply S]]);
    apply same_store_refl.
Qed.

(** C1. When the fetch stage fails (the request is rejected, the
    response has a status outside 200..299, or its body is not JSON),
    [fetchFromAPI] ends normally with the fallback snapshot
    {stars:10200, forks:879, watchers:168, openIssues:0} held and
    shown (10.2k, 879, 168, 0), the storage as it was, and no cache
    write in the trace. *)
Theorem fetch_failure_shows_fallback net st :
  fetch_fails net ->
  let st' :=
    painted "10.2k" "879" "168" "0" (num 10200) (num 879) (num 168)
      (with_stats GitHubStats.fallback (after_fetch net st)) in
  GitHubStats.fetchFromAPI net st = (Normal tt, st')
  /\ stats st' = snapshot (num 10200) (num 879) (num 168) (num 0)
  /\ localStorage st' = localStorage st
  /\ cache_writes (trace st') = cache_writes (trace st).
Proof.
  intros Hf st'.
  split; [rewrite (fetch_failure_handled _ _ Hf); apply showFallbackStats_eval|].
  split; [unfold st'; rewrite stats_painted; reflexivity|].
  destruct (same_store_painted "10.2k" "879" "168" "0" (num 10200) (num 879)
              (num 168) (with_stats GitHubStats.fallback (after_fetch net st)))
    as (S1 & _ & _ & _ & S5).
  split; [exact S1|exact S5].
Qed.

(** ** C3: a successful fetch is normalised, cached and rendered *)

Lemma cacheStats_eval v st :
  GitHubStats.cacheStats v st = (Normal tt, after_cacheStats v st).
Proof.
  unfold GitHubStats.cacheStats, after_cacheStats, takes_record, stored,
    record_text.
  rewrite log_skip. run.
  destruct (accepts st _ _ _); reflexivity.
Qed.

Lemma after_cacheStats_taken v st :
  takes_record v st = true -> after_cacheStats v st = stored v st.
Proof. intros H. unfold after_cacheStats. rewrite H. reflexivity. Qed.

Lemma after_cacheStats_refused v st :
  takes_record v st = false -> after_cacheStats v st = st.
Proof. intros H. unfold after_cacheStats. rewrite H. reflexivity. Qed.

Lemma stats_after_cacheStats v st :
  stats (after_cacheStats v st) = stats st.
Proof. unfold after_cacheStats. destruct (takes_record v st); reflexivity. Qed.

Lemma same_store_render_or_fallback st :
  same_store st (snd (render_or_fallback st)).
Proof.
  unfold render_or_fallback.
  pose proof (display_updateDOM st) as H1.
  destruct (GitHubStats.updateDOM st) as [[u|e] st1]; cbn [snd] in *;
    [exact H1|].
  eapply same_store_trans; [exact H1|apply display_showFallbackStats].
Qed.

Section FetchSuccess.

Variables (net : network) (st : state) (r : response).
Variables (data a b c d : value).
Hypothesis answered : reply net = Some r.
Hypothesis success : ok r = true.
Hypothesis parsed : JSON.parse (body r) = Normal data.
Hypothesis stars : Get data "stargazers_count" = Normal a.
Hypothesis forks : Get data "forks_count" = Normal b.
Hypothesis watchers : Get data "subscribers_count" = Normal c.
Hypothesis issues : Get data "open_issues_count" = Normal d.

Local Abbreviation held :=
  (with_stats (snapshot a b c d) (after_fetch net st)).
Local Abbreviation cached := (after_cacheStats (snapshot a b c d) held).

Lemma fetch_success_steps :
  GitHubStats.fetchFromAPI net st = render_or_fallback cached.
Proof.
  unfold GitHubStats.fetchFromAPI, render_or_fallback. rewrite log_skip.
  unfold fetch. run. fold (after_fetch net st).
  rewrite answered, success. cbn [negb].
  rewrite parsed, stars, forks, watchers, issues.
  rewrite cacheStats_eval.
  fold (snapshot a b c d).
  destruct (GitHubStats.updateDOM cached) as [[[]|e] st3]; reflexivity.
Qed.

Lemma fetch_success_storage :
  localStorage (snd (GitHubStats.fetchFromAPI net st)) = localStorage cached.
Proof.
  rewrite fetch_success_steps.
  destruct (same_store_render_or_fallback cached) as (S1 & _). exact S1.
Qed.

Lemma fetch_success_record :
  takes_record (snapshot a b c d) held = true ->
  lookup CONFIG.CACHE_KEY
    (localStorage (snd (GitHubStats.fetchFromAPI net st)))
  = Some (record_text (snapshot a b c d) (clock st + latency net)).
Proof.
  intros T. rewrite fetch_success_storage, (after_cacheStats_taken _ _ T).
  unfold stored. cbn [localStorage emit with_storage].
  apply lookup_set_item.
Qed.

Lemma fetch_success_refused :
  takes_record (snapshot a b c d) held = false ->
  localStorage (snd (GitHubStats.fetchFromAPI net st)) = localStorage st.
Proof.
  intros T. rewrite fetch_success_storage, (after_cacheStats_refused _ _ T).
  reflexivity.
Qed.

Lemma fetch_success_numbers x y z w :
  a = Num x -> b = Num y -> c = Num z -> d = Num w ->
  GitHubStats.fetchFromAPI net st = (Normal tt, rendered x y z w cached).
Proof.
  intros Ea Eb Ec Ed. rewrite fetch_success_steps.
  unfold render_or_fallback.
  rewrite (updateDOM_numbers x y z w cached);
    [reflexivity|rewrite stats_after_cacheStats; cbn; congruence..].
Qed.

End FetchSuccess.


(** ** C2: a valid cache record keeps the network out *)

Lemma quiet_ret {A} (a : A) : quiet (ret a).
Proof. intros st. reflexivity. Qed.

Lemma quiet_lift {A} (c : completion A) : quiet (lift c).
Proof. intros st. reflexivity. Qed.

Lemma quiet_throw {A} (e : exn) : quiet (@throw A e).
Proof. intros st. reflexivity. Qed.

Lemma quiet_bind {A B} (m : M A) (k : A -> M B) :
  quiet m -> (forall a, quiet (k a)) -> quiet (bind m k).
Proof.
  intros Hm Hk st. unfold bind. specialize (Hm st).
  destruct (m st) as [[a|e] st1]; cbn [snd] in *; [|exact Hm].
  rewrite Hk. exact Hm.
Qed.

Lemma quiet_try_catch {A} (m : M A) (h : exn -> M A) :
  quiet m -> (forall e, quiet (h e)) -> quiet (try_catch m h).
Proof.
  intros Hm Hh st. unfold try_catch. specialize (Hm st).
  destruct (m st) as [[a|e] st1]; cbn [snd] in *; [exact Hm|].
  rewrite Hh. exact Hm.
Qed.

Lemma quiet_display {A} (m : M A) : display_only m -> quiet m.
Proof. intros H st. destruct (H st) as (_ & _ & _ & F & _). exact F. Qed.

Lemma quiet_getItem k : quiet (getItem k).
Proof. intros st. reflexivity. Qed.

Lemma quiet_setItem k v : quiet (setItem k v).
Proof.
  intros st. unfold setItem. destruct (accepts st k v _); reflexivity.
Qed.

Lemma quiet_removeItem k : quiet (removeItem k).
Proof. intros st. reflexivity. Qed.

Lemma quiet_Date_now : quiet Date_now.
Proof. intros st. reflexivity. Qed.

Lemma quiet_log : quiet Utils.log.
Proof. intros st. reflexivity. Qed.

Lemma quiet_set_stats v : quiet (set_stats v).
Proof. intros st. reflexivity. Qed.

Lemma quiet_updateDOM : quiet GitHubStats.updateDOM.
Proof. apply quiet_display, display_updateDOM. Qed.

Lemma quiet_showFallbackStats : quiet GitHubStats.showFallbackStats.
Proof. apply quiet_display, display_showFallbackStats. Qed.

Create HintDb quiet.

#[local] Hint Resolve quiet_ret quiet_lift quiet_throw quiet_getItem
  quiet_setItem quiet_removeItem quiet_Date_now quiet_log quiet_set_stats
  quiet_updateDOM quiet_showFallbackStats : quiet.

Ltac quiet :=
  repeat first
    [ apply quiet_bind; [|intro]
    | apply quiet_try_catch; [|intro]
    | match goal with
      | |- quiet (match ?x with _ => _ end) => destruct x
      | |- quiet (if ?b then _ else _) => destruct b
      end
    | solve [auto with quiet] ].

Lemma quiet_getCachedStats : quiet GitHubStats.getCachedStats.
Proof. unfold GitHubStats.getCachedStats, JSON_parse. quiet. Qed.

Lemma quiet_cacheStats v : quiet (GitHubStats.cacheStats v).
Proof. unfold GitHubStats.cacheStats. quiet. Qed.

#[local] Hint Resolve quiet_getCachedStats quiet_cacheStats : quiet.

(** [fetchFromAPI] sends exactly one request. *)
Lemma fetchFromAPI_one_fetch net st :
  fetches (trace (snd (GitHubStats.fetchFromAPI net st)))
  = S (fetches (trace st)).
Proof.
  unfold GitHubStats.fetchFromAPI. rewrite log_skip.
  unfold try_catch, bind at 1, ret at 1, bind at 1, fetch.
  set (st1 := emit _ _).
  assert (F1 : fetches (trace st1) = S (fetches (trace st))) by reflexivity.
  assert (Q : quiet (Utils.log ;; GitHubStats.showFallbackStats)) by quiet.
  destruct (reply net) as [r|].
  - match goal with
    | |- context [bind ?m ?k st1] =>
        assert (Qb : quiet (bind m k)) by (unfold response_json; quiet);
        specialize (Qb st1); destruct (bind m k st1) as [[u|e] st2]
    end; cbn [snd] in *.
    + congruence.
    + rewrite Q. congruence.
  - rewrite Q. exact F1.
Qed.

Lemma loadStats_at_most_one_fetch net st :
  (fetches (trace (snd (GitHubStats.loadStats net st)))
   <= S (fetches (trace st)))%nat.
Proof.
  unfold GitHubStats.loadStats, bind at 1.
  pose proof (quiet_getCachedStats st) as Q.
  destruct (GitHubStats.getCachedStats st) as [[cached|e] st1];
    cbn [snd] in *; [|rewrite Q; auto].
  destruct (ToBoolean cached).
  - assert (Q2 : quiet (data <- lift (Get cached "data") ;;
                        set_stats data ;; GitHubStats.updateDOM ;; Utils.log))
      by quiet.
    rewrite (Q2 st1), Q. auto.
  - rewrite fetchFromAPI_one_fetch, Q. auto.
Qed.

Lemma Get_total v name x :
  Get v name = Normal x -> forall name', exists y, Get v name' = Normal y.
Proof.
  destruct v; cbn; try discriminate; intros _ name'; eauto.
  destruct (lookup name' props); eauto.
Qed.

Lemma sub_NaN x : Number.sub x Number.NaN = Number.NaN.
Proof. destruct x; reflexivity. Qed.

Lemma age_of_undefined t age :
  js_sub (num t) Undefined = Normal age -> Number.ltb age D = false.
Proof.
  unfold js_sub, num. cbn [ToNumber cbind]. rewrite sub_NaN.
  intros H. injection H as <-. reflexivity.
Qed.

Section CacheHit.

Variables (s : string) (parsed timestamp data : value).
Hypothesis nonempty : s <> "".
Hypothesis parses : JSON.parse s = Normal parsed.
Hypothesis has_timestamp : Get parsed "timestamp" = Normal timestamp.
Hypothesis has_data : Get parsed "data" = Normal data.

Lemma fresh_truthy t : fresh_at timestamp t -> ToBoolean parsed = true.
Proof.
  intros (age & Ha & Hlt).
  destruct (ToBoolean parsed) eqn:Ht; [reflexivity|].
  assert (timestamp = Undefined) as ->.
  { destruct parsed as [| |b|x|str|l|props]; cbn in has_timestamp, Ht;
      congruence. }
  rewrite (age_of_undefined _ _ Ha) in Hlt. discriminate.
Qed.

Lemma loadStats_hit net st :
  lookup CONFIG.CACHE_KEY (localStorage st) = Some s ->
  fresh_at timestamp (clock st) ->
  GitHubStats.loadStats net st = GitHubStats.updateDOM (with_stats data st).
Proof.
  intros Hl Hf. pose proof (fresh_truthy _ Hf) as Ht.
  destruct Hf as (age & Ha & Hlt).
  unfold GitHubStats.loadStats, bind at 1.
  rewrite (read_fresh st s Hl nonempty parsed parses timestamp
             has_timestamp age Ha Hlt).
  rewrite Ht, log_skip. run. rewrite has_data.
  destruct (GitHubStats.updateDOM (with_stats data st)) as [[[]|e] st'];
    reflexivity.
Qed.

Lemma loadStats_hit_store net st :
  lookup CONFIG.CACHE_KEY (localStorage st) = Some s ->
  fresh_at timestamp (clock st) ->
  same_store st (snd (GitHubStats.loadStats net st)).
Proof.
  intros Hl Hf. rewrite (loadStats_hit net st Hl Hf).
  eapply same_store_trans; [|apply display_updateDOM]. repeat split.
Qed.

Lemma visits_hit l : forall st,
  lookup CONFIG.CACHE_KEY (localStorage st) = Some s ->
  (forall t net, In (t, net) l -> fresh_at timestamp t) ->
  fetches (trace (visits l st)) = fetches (trace st)
  /\ localStorage (visits l st) = localStorage st.
Proof.
  induction l as [|[t net] l IH]; intros st Hl Hf; [split; reflexivity|].
  cbn [visits].
  assert (Hl1 : lookup CONFIG.CACHE_KEY (localStorage (with_clock t st))
                = Some s) by exact Hl.
  assert (Hf1 : fresh_at timestamp (clock (with_clock t st)))
    by (apply (Hf t net); left; reflexivity).
  destruct (loadStats_hit_store net _ Hl1 Hf1) as (S1 & _ & _ & S4 & _).
  cbn [localStorage trace with_clock] in S1, S4.
  destruct (IH (snd (GitHubStats.loadStats net (with_clock t st)))) as [F L].
  - rewrite S1. exact Hl.
  - intros t' net' Hin. apply (Hf t' net'). right. exact Hin.
  - split; congruence.
Qed.

End CacheHit.

(** C2. While the stats key holds a record that parses and whose age is
    below thirty minutes, [loadStats] takes the record's data as the
    snapshot and renders it, whatever the network would do: no request
    is sent and the storage is unchanged. Hence any number of visits
    made while the record is valid send no request, and a first visit
    that leaves such a record followed by visits within its validity
    sends at most one. *)
Theorem valid_cache_skips_network s parsed timestamp :
  s <> "" ->
  JSON.parse s = Normal parsed ->
  Get parsed "timestamp" = Normal timestamp ->
  exists data,
    Get parsed "data" = Normal data
    /\ (forall net st,
          lookup CONFIG.CACHE_KEY (localStorage st) = Some s ->
          fresh_at timestamp (clock st) ->
          GitHubStats.loadStats net st
          = GitHubStats.updateDOM (with_stats data st)
          /\ fetches (trace (snd (GitHubStats.loadStats net st)))
             = fetches (trace st)
          /\ localStorage (snd (GitHubStats.loadStats net st))
             = localStorage st)
    /\ (forall l st,
          lookup CONFIG.CACHE_KEY (localStorage st) = Some s ->
          (forall t net, In (t, net) l -> fresh_at timestamp t) ->
          fetches (trace (visits l st)) = fetches (trace st))
    /\ (forall t0 net0 l st0,
          lookup CONFIG.CACHE_KEY
            (localStorage
               (snd (GitHubStats.loadStats net0 (with_clock t0 st0))))
          = Some s ->
          (forall t net, In (t, net) l -> fresh_at timestamp t) ->
          (fetches (trace (visits ((t0, net0) :: l) st0))
           <= S (fetches (trace st0)))%nat).
Proof.
  intros Hne Hp Hts.
  destruct (Get_total _ _ _ Hts "data") as [data Hd].
  exists data. split; [exact Hd|]. split; [|split].
  - intros net st Hl Hf.
    split; [exact (loadStats_hit s parsed timestamp data Hne Hp Hts Hd
                     net st Hl Hf)|].
    destruct (loadStats_hit_store s parsed timestamp data Hne Hp Hts Hd
                net st Hl Hf) as (S1 & _ & _ & S4 & _).
    split; [exact S4|exact S1].
  - intros l st Hl Hf.
    exact (proj1 (visits_hit s parsed timestamp data Hne Hp Hts Hd l st Hl Hf)).
  - intros t0 net0 l st0 Hl Hf. cbn [visits].
    rewrite (proj1 (visits_hit s parsed timestamp data Hne Hp Hts Hd l _ Hl Hf)).
    exact (loadStats_at_most_one_fetch net0 (with_clock t0 st0)).
Qed.

(** ** C5, C6: the validity window of a record *)

(** C5. For a record that parses and whose age, as the read computes
    it (now - timestamp), is a Number, the read returns the record
    exactly when age < 30 minutes holds; at an age of exactly thirty
    minutes it does not, although age <= 30 minutes does: the read
    returns null and removes the key. *)
Theorem record_at_threshold_is_expired st s parsed timestamp age :
  lookup CONFIG.CACHE_KEY (localStorage st) = Some s ->
  s <> "" ->
  JSON.parse s = Normal parsed ->
  Get parsed "timestamp" = Normal timestamp ->
  js_sub (num (clock st)) timestamp = Normal age ->
  (GitHubStats.getCachedStats st = (Normal parsed, st)
   <-> Number.ltb age D = true)
  /\ (age = D ->
      Number.leb age D = true
      /\ GitHubStats.getCachedStats st = (Normal Null, evicted st)).
Proof.
  intros Hl Hne Hp Hts Hage.
  pose proof (read_record st s Hl Hne parsed Hp timestamp Hts age Hage) as R.
  split.
  - split.
    + intros E. rewrite E in R. destruct (Number.ltb age D); [reflexivity|].
      injection R as -> _. discriminate Hts.
    + intros L. rewrite L in R. exact R.
  - intros ->. split; [reflexivity|]. exact R.
Qed.

(** C6. A read that finds a record that parses and whose age is at
    least thirty minutes returns null after removing the stats key: the
    key is absent from the storage it leaves, and the removal is in the
    trace. *)
Theorem expired_record_is_evicted st s parsed timestamp age :
  lookup CONFIG.CACHE_KEY (localStorage st) = Some s ->
  s <> "" ->
  JSON.parse s = Normal parsed ->
  Get parsed "timestamp" = Normal timestamp ->
  js_sub (num (clock st)) timestamp = Normal age ->
  Number.geb age D = true ->
  exists st',
    GitHubStats.getCachedStats st = (Normal Null, st')
    /\ lookup CONFIG.CACHE_KEY (localStorage st') = None
    /\ localStorage st' = remove_item CONFIG.CACHE_KEY (localStorage st)
    /\ trace st' = EvRemoveItem CONFIG.CACHE_KEY :: trace st.
Proof.
  intros Hl Hne Hp Hts Hage Hge. exists (evicted st).
  split; [|split; [apply lookup_remove_item|split; reflexivity]].
  apply (read_expired st s Hl Hne parsed Hp timestamp Hts age Hage).
  apply geb_not_ltb. exact Hge.
Qed.

(** ** C10: what the read does with a text that is no record *)

Lemma read_unreadable st s :
  lookup CONFIG.CACHE_KEY (localStorage st) = Some s ->
  unreadable s ->
  GitHubStats.getCachedStats st = (Normal Null, st).
Proof.
  intros Hl Hu. destruct (String.eqb_spec s "") as [->|Hne].
  - apply read_empty. exact Hl.
  - destruct Hu as [[e He]|Hn].
    + exact (read_malformed st s Hl Hne e He).
    + exact (read_no_timestamp st s Hl Hne Null Hn TypeError eq_refl).
Qed.

Lemma parse_empty : JSON.parse "" = Throw SyntaxError.
Proof. reflexivity. Qed.

Lemma read_NaN_timestamp st s parsed timestamp :
  lookup CONFIG.CACHE_KEY (localStorage st) = Some s ->
  JSON.parse s = Normal parsed ->
  Get parsed "timestamp" = Normal timestamp ->
  ToNumber timestamp = Normal Number.NaN ->
  GitHubStats.getCachedStats st = (Normal Null, evicted st).
Proof.
  intros Hl Hp Hts Hn.
  assert (Hne : s <> "").
  { intros ->. rewrite parse_empty in Hp. discriminate. }
  apply (read_expired st s Hl Hne parsed Hp timestamp Hts Number.NaN).
  - unfold js_sub, num. cbn [ToNumber cbind]. rewrite Hn. cbn [cbind].
    rewrite sub_NaN. reflexivity.
  - reflexivity.
Qed.

(** C10, as the code has it. When the stored text makes the read throw
    ([JSON.parse] rejects it, or it is the JSON null), the read returns
    null and leaves the state, the stored key included, as it was; the
    load then goes to the network: a failing fetch leaves the text in
    place, and so does a successful fetch whose write the storage
    refuses; a successful fetch whose write the storage takes
    overwrites it with the new record.  When the stored text parses to
    a value whose timestamp can be read but converts to NaN (so it is
    missing or not numeric), the read deletes the key, as it does for
    an expired record. *)
Theorem unreadable_record_is_kept st s :
  lookup CONFIG.CACHE_KEY (localStorage st) = Some s ->
  (unreadable s ->
   GitHubStats.getCachedStats st = (Normal Null, st)
   /\ (forall net,
         GitHubStats.loadStats net st = GitHubStats.fetchFromAPI net st)
   /\ (forall net,
         fetch_fails net ->
         lookup CONFIG.CACHE_KEY
           (localStorage (snd (GitHubStats.loadStats net st))) = Some s)
   /\ (forall net r data a b c d,
         reply net = Some r ->
         ok r = true ->
         JSON.parse (body r) = Normal data ->
         Get data "stargazers_count" = Normal a ->
         Get data "forks_count" = Normal b ->
         Get data "subscribers_count" = Normal c ->
         Get data "open_issues_count" = Normal d ->
         let text :=
           record_text (snapshot a b c d) (clock st + latency net) in
         lookup CONFIG.CACHE_KEY
           (localStorage (snd (GitHubStats.loadStats net st)))
         = Some (if accepts st CONFIG.CACHE_KEY text (localStorage st)
                 then text else s)))
  /\ (forall parsed timestamp,
        JSON.parse s = Normal parsed ->
        Get parsed "timestamp" = Normal timestamp ->
        ToNumber timestamp = Normal Number.NaN ->
        GitHubStats.getCachedStats st = (Normal Null, evicted st)
        /\ lookup CONFIG.CACHE_KEY (localStorage (evicted st)) = None).
Proof.
  intros Hl. split.
  - intros Hu. pose proof (read_unreadable st s Hl Hu) as Hr.
    assert (Hload : forall net,
               GitHubStats.loadStats net st = GitHubStats.fetchFromAPI net st).
    { intros net. unfold GitHubStats.loadStats, bind at 1. rewrite Hr.
      reflexivity. }
    split; [exact Hr|]. split; [exact Hload|]. split.
    + intros net Hf. rewrite Hload, (fetch_failure_handled _ _ Hf).
      destruct (display_showFallbackStats (after_fetch net st)) as (S & _).
      rewrite S. exact Hl.
    + intros net r data a b c d Hrep Hok Hp Ha Hb Hc Hd text.
      rewrite Hload.
      destruct (accepts st CONFIG.CACHE_KEY text (localStorage st)) eqn:T.
      * exact (fetch_success_record net st r data a b c d
                 Hrep Hok Hp Ha Hb Hc Hd T).
      * rewrite (fetch_success_refused net st r data a b c d
                   Hrep Hok Hp Ha Hb Hc Hd T).
        exact Hl.
  - intros parsed timestamp Hp Hts Hn.
    split; [exact (read_NaN_timestamp st s parsed timestamp Hl Hp Hts Hn)|].
    apply lookup_remove_item.
Qed.

(** ** Runs on the concrete page *)

(** Cold start, network success: the live numbers are shown and
    cached. *)
Example cold_start_success :
  let st := snd (onDOMContentLoaded (Page.answer 200 Page.live)
                   (Page.opened [] Page.t0)) in
  text_of "github-stars" st = Some "500"
  /\ text_of "detailed-issues" st = Some "2"
  /\ localStorage st
     = [(CONFIG.CACHE_KEY,
         Text.q "{'data':{'stars':500,'forks':20,'watchers':5,'openIssues':2},'timestamp':1700000000120}")]
  /\ fetches (trace st) = 1%nat.
Proof. vm_compute. repeat split. Qed.

(** Warm cache: 12345 stars are shown as 12.3k with no request. *)
Example warm_cache :
  let st := snd (onDOMContentLoaded Page.offline
                   (Page.opened [(CONFIG.CACHE_KEY, Page.record)]
                      (Page.t0 + 60000))) in
  text_of "github-stars" st = Some "12.3k"
  /\ text_of "detailed-stars" st = Some "12.3k"
  /\ text_of "detailed-issues" st = Some "2"
  /\ fetches (trace st) = 0%nat.
Proof. vm_compute. repeat split. Qed.

(** Network failure: the fallback numbers are shown, nothing is
    cached. *)
Example network_failure :
  let st := snd (onDOMContentLoaded (Page.answer 500 "oops")
                   (Page.opened [] Page.t0)) in
  text_of "github-stars" st = Some "10.2k"
  /\ text_of "github-forks" st = Some "879"
  /\ text_of "detailed-watchers" st = Some "168"
  /\ text_of "detailed-issues" st = Some "0"
  /\ localStorage st = []
  /\ cache_writes (trace st) = 0%nat.
Proof. vm_compute. repeat split. Qed.

(** Warm cache with the detailed counters on screen: they are left to
    the count-up, the other slots are written. *)
Example warm_cache_scrolled :
  let st := snd (GitHubStats.loadStats Page.offline
                   (Page.scrolled
                      (Page.opened [(CONFIG.CACHE_KEY, Page.record)]
                         (Page.t0 + 60000)))) in
  trace st
  = [EvText "detailed-issues" "2";
     EvAnimate "detailed-watchers" (num 5);
     EvAnimate "detailed-forks" (num 20);
     EvAnimate "detailed-stars" (num 12345);
     EvText "github-forks" "20"; EvText "github-stars" "12.3k"]
  /\ text_of "detailed-stars" st = Some "-".
Proof. vm_compute. repeat split. Qed.

(** Three visits within the validity of one record. *)
Example three_visits :
  fetches
    (trace
       (visits [(Page.t0 + 1000, Page.offline);
                (Page.t0 + 60000, Page.answer 200 Page.live);
                (Page.t0 + 1799999, Page.offline)]
          (Page.opened [(CONFIG.CACHE_KEY, Page.record)] Page.t0)))
  = 0%nat.
Proof. vm_compute. reflexivity. Qed.

Lemma fetch_failure_witness :
  fetch_fails (Page.answer 500 "oops")
  /\ fst (GitHubStats.fetchFromAPI (Page.answer 500 "oops")
            (Page.opened [(CONFIG.CACHE_KEY, "{oops")] Page.t0))
     = Normal tt.
Proof.
  split; [left; reflexivity|].
  destruct (fetch_failure_shows_fallback (Page.answer 500 "oops")
              (Page.opened [(CONFIG.CACHE_KEY, "{oops")] Page.t0))
    as [E _]; [left; reflexivity|].
  rewrite E. reflexivity.
Defined.



Lemma valid_cache_witness :
  exists parsed,
    JSON.parse Page.record = Normal parsed
    /\ Get parsed "timestamp" = Normal (num Page.t0)
    /\ fresh_at (num Page.t0) (Page.t0 + 60000)
    /\ exists data,
        Get parsed "data" = Normal data
        /\ forall net,
            fetches
              (trace
                 (snd (GitHubStats.loadStats net
                         (Page.opened [(CONFIG.CACHE_KEY, Page.record)]
                            (Page.t0 + 60000)))))
            = 0%nat.
Proof.
  eexists. split; [vm_compute; reflexivity|].
  match goal with |- Get ?p _ = _ /\ _ => set (parsed := p) end.
  assert (T : Get parsed "timestamp" = Normal (num Page.t0))
    by (vm_compute; reflexivity).
  split; [exact T|].
  assert (F : fresh_at (num Page.t0) (Page.t0 + 60000))
    by (eexists; split; [vm_compute; reflexivity|vm_compute; reflexivity]).
  split; [exact F|].
  destruct (valid_cache_skips_network Page.record parsed (num Page.t0))
    as (data & Hd & Hone & _).
  - discriminate.
  - vm_compute. reflexivity.
  - exact T.
  - exists data. split; [exact Hd|]. intros net.
    destruct (Hone net (Page.opened [(CONFIG.CACHE_KEY, Page.record)]
                          (Page.t0 + 60000)) eq_refl F) as (_ & Hf & _).
    exact Hf.
Defined.

(** A text that parses but is no record, here an object without
    [timestamp], is handled as an expired record: the read deletes the
    key. *)
Lemma shapeless_record_is_deleted :
  let st := Page.opened [(CONFIG.CACHE_KEY, Text.q "{'stars':500}")] Page.t0 in
  ~ parses_as_record (Text.q "{'stars':500}")
  /\ fst (GitHubStats.getCachedStats st) = Normal Null
  /\ lookup CONFIG.CACHE_KEY (localStorage (snd (GitHubStats.getCachedStats st)))
     = None.
Proof.
  split; [|split; vm_compute; reflexivity].
  intros (v & Hp & snap & ts & Hd & _ & Hts).
  vm_compute in Hp. injection Hp as <-. vm_compute in Hts. discriminate.
Qed.

Lemma unreadable_record_is_kept_witness :
  let st := Page.opened [(CONFIG.CACHE_KEY, "{oops")] Page.t0 in
  let st' :=
    Page.opened [(CONFIG.CACHE_KEY, Text.q "{'stars':500}")] Page.t0 in
  (lookup CONFIG.CACHE_KEY (localStorage st) = Some "{oops"
   /\ unreadable "{oops"
   /\ GitHubStats.getCachedStats st = (Normal Null, st))
  /\ (JSON.parse (Text.q "{'stars':500}") = Normal (Obj [("stars", num 500)])
      /\ GitHubStats.getCachedStats st' = (Normal Null, evicted st')).
Proof.
  split.
  - split; [reflexivity|].
    split; [left; exists SyntaxError; reflexivity|].
    apply (proj1 (unreadable_record_is_kept
                    (Page.opened [(CONFIG.CACHE_KEY, "{oops")] Page.t0)
                    "{oops" eq_refl)).
    left. exists SyntaxError. reflexivity.
  - split; [vm_compute; reflexivity|].
    apply (proj2 (unreadable_record_is_kept
                    (Page.opened [(CONFIG.CACHE_KEY, Text.q "{'stars':500}")]
                       Page.t0)
                    (Text.q "{'stars':500}") eq_refl)
             (Obj [("stars", num 500)]) Undefined).
    + vm_compute. reflexivity.
    + reflexivity.
    + reflexivity.
Defined.

Lemma record_at_threshold_witness :
  let st := Page.opened [(CONFIG.CACHE_KEY, Page.record)]
              (Page.t0 + 1800000) in
  js_sub (num (clock st)) (num Page.t0) = Normal D
  /\ GitHubStats.getCachedStats st = (Normal Null, evicted st).
Proof.
  split; [vm_compute; reflexivity|].
  eapply (record_at_threshold_is_expired
            (Page.opened [(CONFIG.CACHE_KEY, Page.record)]
               (Page.t0 + 1800000))
            Page.record _ (num Page.t0) D).
  - reflexivity.
  - discriminate.
  - vm_compute. reflexivity.
  - vm_compute. reflexivity.
  - vm_compute. reflexivity.
  - reflexivity.
Defined.

Lemma expired_record_witness :
  let st := Page.opened [(CONFIG.CACHE_KEY, Page.record)]
              (Page.t0 + 2700000) in
  Number.geb (Number.of_Z 2700000) D = true
  /\ exists st',
      GitHubStats.getCachedStats st = (Normal Null, st')
      /\ lookup CONFIG.CACHE_KEY (localStorage st') = None
      /\ localStorage st' = remove_item CONFIG.CACHE_KEY (localStorage st)
      /\ trace st' = EvRemoveItem CONFIG.CACHE_KEY :: trace st.
Proof.
  split; [vm_compute; reflexivity|].
  eapply (expired_record_is_evicted
            (Page.opened [(CONFIG.CACHE_KEY, Page.record)]
               (Page.t0 + 2700000))
            Page.record _ (num Page.t0) (Number.of_Z 2700000)).
  - reflexivity.
  - discriminate.
  - vm_compute. reflexivity.
  - vm_compute. reflexivity.
  - vm_compute. reflexivity.
  - vm_compute. reflexivity.
Defined.

(** ** Observations a computation preserves *)

Lemma preserves_ret {X A} (obs : state -> X) (a : A) : preserves obs (ret a).
Proof. intros st. reflexivity. Qed.

Lemma preserves_bind {X A B} (obs : state -> X) (m : M A) (k : A -> M B) :
  preserves obs m -> (forall a, preserves obs (k a)) ->
  preserves obs (bind m k).
Proof.
  intros Hm Hk st. unfold bind. specialize (Hm st).
  destruct (m st) as [[a|e] st1]; cbn [snd] in *; [|exact Hm].
  rewrite Hk. exact Hm.
Qed.

Lemma preserves_try_catch {X A} (obs : state -> X) (m : M A) h :
  preserves obs m -> (forall e, preserves obs (h e)) ->
  preserves obs (try_catch m h).
Proof.
  intros Hm Hh st. unfold try_catch. specialize (Hm st).
  destruct (m st) as [[a|e] st1]; cbn [snd] in *; [exact Hm|].
  rewrite Hh. exact Hm.
Qed.

Lemma preserves_forEach {X A} (obs : state -> X) (l : list A) f :
  (forall a, preserves obs (f a)) -> preserves obs (forEach l f).
Proof.
  intros Hf. induction l as [|a l IH]; cbn [forEach].
  - apply preserves_ret.
  - apply preserves_bind; [apply Hf|intros _; exact IH].
Qed.

Lemma preserves_fetch {X} (obs : state -> X) net url :
  (forall st, obs (emit (EvFetch url) (with_clock (clock st + latency net) st))
              = obs st) ->
  preserves obs (fetch net url).
Proof.
  intros H st. unfold fetch. destruct (reply net); cbn [snd]; apply H.
Qed.

Lemma preserves_setItem {X} (obs : state -> X) k v :
  (forall st,
     obs (emit (EvSetItem k v)
            (with_storage (set_item k v (localStorage st)) st)) = obs st) ->
  preserves obs (setItem k v).
Proof.
  intros H st. unfold setItem.
  destruct (accepts st k v _); cbn [snd]; [apply H|reflexivity].
Qed.

Ltac preserve :=
  repeat first
    [ apply preserves_bind; [|intro]
    | apply preserves_setItem; intro; reflexivity
    | apply preserves_try_catch; [|intro]
    | apply preserves_forEach; intro
    | apply preserves_fetch; intro; reflexivity
    | match goal with
      | |- preserves _ (match ?x with _ => _ end) => destruct x
      | |- preserves _ (if ?b then _ else _) => destruct b
      end
    | solve [intros ?; reflexivity]
    | progress unfold GitHubStats.getCachedStats, GitHubStats.cacheStats,
        GitHubStats.updateElement, GitHubStats.animateNumber,
        GitHubStats.stat, GitHubStats.updateFormatted,
        GitHubStats.updateDOM, GitHubStats.showFallbackStats,
        GitHubStats.fetchFromAPI, StorageManager.removeIfOld,
        StorageManager.clearOldCache, JSON_parse, response_json ].

(** ** C8: snapshots are taken as found *)

Lemma stats_rendered a b c d st : stats (rendered a b c d st) = stats st.
Proof. unfold rendered. apply stats_painted. Qed.

Lemma valid_snapshot_fields v :
  valid_snapshot v ->
  exists a b c d,
    v = snapshot (Num a) (Num b) (Num c) (Num d)
    /\ Get v "stars" = Normal (Num a) /\ Get v "forks" = Normal (Num b)
    /\ Get v "watchers" = Normal (Num c)
    /\ Get v "openIssues" = Normal (Num d).
Proof.
  intros (a & b & c & d & -> & _). exists a, b, c, d. repeat split.
Qed.

(** A response with negative counts yields a snapshot with negative
    fields, held and shown; a cached record with one field yields a
    snapshot with one field. *)
Lemma snapshot_not_validated :
  (let st := snd (GitHubStats.loadStats
                    (Page.answer 200
                       (Text.q "{'stargazers_count':-1,'forks_count':-2,'subscribers_count':-3,'open_issues_count':-4}"))
                    (Page.opened [] Page.t0)) in
   stats st = snapshot (num (-1)) (num (-2)) (num (-3)) (num (-4))
   /\ text_of "github-stars" st = Some "-1"
   /\ ~ valid_snapshot (stats st))
  /\ (let st := snd (GitHubStats.loadStats Page.offline
                       (Page.opened
                          [(CONFIG.CACHE_KEY,
                            Text.q "{'data':{'stars':7},'timestamp':1700000000000}")]
                          (Page.t0 + 1000))) in
      stats st = Obj [("stars", num 7)]
      /\ ~ valid_snapshot (stats st)).
Proof.
  split; cbv zeta.
  - split; [vm_compute; reflexivity|]. split; [vm_compute; reflexivity|].
    intros (a & b & c & d & E & Ha & _).
    vm_compute in E. injection E as <- _ _ _. vm_compute in Ha. discriminate.
  - split; [vm_compute; reflexivity|].
    intros (a & b & c & d & E & _). vm_compute in E. discriminate.
Qed.

Lemma Get_property v name :
  v <> Null -> v <> Undefined -> Get v name = Normal (property v name).
Proof.
  intros Hn Hu. destruct v; cbn; try reflexivity; try contradiction.
  destruct (lookup name props); reflexivity.
Qed.

Lemma stats_updateDOM : preserves stats GitHubStats.updateDOM.
Proof. preserve. Qed.

Lemma stats_render_or_fallback st :
  stats (snd (render_or_fallback st))
  = match fst (GitHubStats.updateDOM st) with
    | Normal _ => stats st
    | Throw _ => GitHubStats.fallback
    end.
Proof.
  unfold render_or_fallback. pose proof (stats_updateDOM st) as P.
  destruct (GitHubStats.updateDOM st) as [[u|e] st1]; cbn [fst snd] in *;
    [exact P|].
  rewrite showFallbackStats_eval. cbn [snd]. apply stats_painted.
Qed.

(** C8, as the code has it. Nothing validates a snapshot.  From a
    success response whose body parses to a value other than null, the
    snapshot built holds under stars, forks, watchers and openIssues
    what the body has under stargazers_count, forks_count,
    subscribers_count and open_issues_count, undefined where the body
    has no such field; it is held, cached when the storage takes the
    write, and rendered, and stays held unless rendering throws, in
    which case the fallback is held instead.  From a null body no
    snapshot is built and the fallback is shown.  From a valid cache
    record the snapshot is the record's data as it is, held whether or
    not rendering succeeds.  A snapshot so built has its four fields
    present and non-negative exactly when the four values taken are
    non-negative Numbers. *)
Theorem snapshot_is_taken_as_found :
  (forall net st r data,
     reply net = Some r ->
     ok r = true ->
     JSON.parse (body r) = Normal data ->
     data <> Null -> data <> Undefined ->
     let snap :=
       snapshot (property data "stargazers_count")
         (property data "forks_count")
         (property data "subscribers_count")
         (property data "open_issues_count") in
     let held := with_stats snap (after_fetch net st) in
     let cached := after_cacheStats snap held in
     let final := snd (GitHubStats.fetchFromAPI net st) in
     snapshot_of_response data = Normal snap
     /\ stats cached = snap
     /\ GitHubStats.fetchFromAPI net st = render_or_fallback cached
     /\ (takes_record snap held = true ->
         lookup CONFIG.CACHE_KEY (localStorage final)
         = Some (record_text snap (clock st + latency net)))
     /\ stats final
        = match fst (GitHubStats.updateDOM cached) with
          | Normal _ => snap
          | Throw _ => GitHubStats.fallback
          end)
  /\ (forall net st r data,
        reply net = Some r ->
        ok r = true ->
        JSON.parse (body r) = Normal data ->
        data = Null \/ data = Undefined ->
        GitHubStats.fetchFromAPI net st
        = GitHubStats.showFallbackStats (after_fetch net st))
  /\ (forall net st s parsed timestamp data,
        lookup CONFIG.CACHE_KEY (localStorage st) = Some s ->
        JSON.parse s = Normal parsed ->
        Get parsed "timestamp" = Normal timestamp ->
        fresh_at timestamp (clock st) ->
        Get parsed "data" = Normal data ->
        GitHubStats.loadStats net st
        = GitHubStats.updateDOM (with_stats data st)
        /\ stats (snd (GitHubStats.loadStats net st)) = data)
  /\ (forall a b c d,
        valid_snapshot (snapshot a b c d)
        <-> exists x y z w,
            a = Num x /\ b = Num y /\ c = Num z /\ d = Num w
            /\ non_negative x /\ non_negative y
            /\ non_negative z /\ non_negative w).
Proof.
  split; [|split; [|split]].
  - intros net st r data Hr Hok Hp Hn Hu snap held cached final.
    pose proof (Get_property data "stargazers_count" Hn Hu) as G1.
    pose proof (Get_property data "forks_count" Hn Hu) as G2.
    pose proof (Get_property data "subscribers_count" Hn Hu) as G3.
    pose proof (Get_property data "open_issues_count" Hn Hu) as G4.
    pose proof (fetch_success_steps net st r data _ _ _ _
                  Hr Hok Hp G1 G2 G3 G4) as Steps.
    fold snap held cached in Steps.
    split.
    { unfold snapshot_of_response. rewrite G1, G2, G3, G4. reflexivity. }
    split; [apply stats_after_cacheStats|].
    split; [exact Steps|].
    split.
    { exact (fetch_success_record net st r data _ _ _ _
               Hr Hok Hp G1 G2 G3 G4). }
    unfold final. rewrite Steps, stats_render_or_fallback.
    unfold cached. rewrite stats_after_cacheStats. reflexivity.
  - intros net st r data Hr Hok Hp Hd.
    apply (fetch_shape_error net st r data TypeError Hr Hok Hp).
    destruct Hd as [-> | ->]; reflexivity.
  - intros net st s parsed timestamp data Hl Hp Hts Hf Hdata.
    assert (Hne : s <> "").
    { intros ->. rewrite parse_empty in Hp. discriminate. }
    rewrite (loadStats_hit s parsed timestamp data Hne Hp Hts Hdata
               net st Hl Hf).
    split; [reflexivity|]. apply (stats_updateDOM (with_stats data st)).
  - intros a b c d. unfold valid_snapshot, snapshot. split.
    + intros (x & y & z & w & E & H). injection E as -> -> -> ->.
      exists x, y, z, w. repeat split; apply H.
    + intros (x & y & z & w & -> & -> & -> & -> & H).
      exists x, y, z, w. split; [reflexivity|exact H].
Qed.

Lemma snapshot_is_taken_as_found_witness :
  let net :=
    Page.answer 200 (Text.q "{'stargazers_count':7,'forks_count':-2}") in
  let st := Page.opened [] Page.t0 in
  let snap := snapshot (num 7) (num (-2)) Undefined Undefined in
  snapshot_of_response
    (Obj [("stargazers_count", num 7); ("forks_count", num (-2))])
  = Normal snap
  /\ lookup CONFIG.CACHE_KEY
       (localStorage (snd (GitHubStats.fetchFromAPI net st)))
     = Some (record_text snap (Page.t0 + 120)).
Proof.
  cbv zeta.
  destruct (proj1 snapshot_is_taken_as_found
              (Page.answer 200
                 (Text.q "{'stargazers_count':7,'forks_count':-2}"))
              (Page.opened [] Page.t0)
              {| status := 200; statusText := "";
                 body := Text.q "{'stargazers_count':7,'forks_count':-2}" |}
              (Obj [("stargazers_count", num 7); ("forks_count", num (-2))]))
    as (S1 & _ & _ & S4 & _).
  - reflexivity.
  - reflexivity.
  - vm_compute. reflexivity.
  - discriminate.
  - discriminate.
  - split; [exact S1|]. apply S4. reflexivity.
Defined.

(** ** C9: the cache-hit path is not guarded *)

(** The fetch path cannot throw: whatever the network does and whatever
    the body holds, [fetchFromAPI] ends normally, with the snapshot
    rendered or the fallback shown. *)
Lemma fetchFromAPI_never_throws net st :
  fst (GitHubStats.fetchFromAPI net st) = Normal tt.
Proof.
  unfold GitHubStats.fetchFromAPI, try_catch.
  match goal with
  | |- context [match ?body st with _ => _ end] =>
      destruct (body st) as [[[]|e] st1]
  end; [reflexivity|].
  rewrite log_skip. cbv beta iota delta [bind ret].
  rewrite showFallbackStats_eval. reflexivity.
Qed.

(** C9, where the code departs from it. A 200 response without the
    expected fields is cached as a record with empty data, while the
    fallback is shown. At the next visit within thirty minutes the
    record is valid, [updateDOM] throws on the first field, no slot is
    written, and the promise of [init] is rejected with nothing to
    handle it. A record without data is taken too, and then rendering
    is skipped without a word. *)
Theorem cached_partial_snapshot_is_not_rendered :
  let first := snd (onDOMContentLoaded (Page.answer 200 "{}")
                      (Page.opened [] Page.t0)) in
  let second := Page.opened (localStorage first) (Page.t0 + 60000) in
  localStorage first
  = [(CONFIG.CACHE_KEY, Text.q "{'data':{},'timestamp':1700000000120}")]
  /\ text_of "github-stars" first = Some "10.2k"
  /\ GitHubStats.loadStats Page.offline second
     = (Throw TypeError, with_stats (Obj []) second)
  /\ onDOMContentLoaded Page.offline second
     = (Normal tt,
        emit (EvUnhandledRejection TypeError) (with_stats (Obj []) second))
  /\ text_of "github-stars" (snd (onDOMContentLoaded Page.offline second))
     = Some "-"
  /\ (let bare := Page.opened
                    [(CONFIG.CACHE_KEY, Text.q "{'timestamp':1700000000000}")]
                    (Page.t0 + 60000) in
      GitHubStats.loadStats Page.offline bare
      = (Normal tt, with_stats Undefined bare)).
Proof. vm_compute. repeat split. Qed.

(** ** C7: the sweep *)

(** The sweep removes a record that is twenty-five hours old. *)
Example sweep_removes_stale_record :
  let st := Page.opened
              [("theme", "dark");
               ("die_old", Text.q "{'timestamp':1699910000000}");
               (CONFIG.CACHE_KEY, Page.record)] Page.t0 in
  StorageManager.clearOldCache st
  = (Normal tt,
     emit (EvRemoveItem "die_old")
       (with_storage [("theme", "dark"); (CONFIG.CACHE_KEY, Page.record)] st)).
Proof. vm_compute. reflexivity. Qed.

(** C7, where the code departs from it. The sweep runs first in the
    handler, and stops at the first namespaced item that makes it
    throw: a stale record listed after a stats record that was cut
    short stays in the storage, while the same record listed before it
    is removed. *)
Theorem sweep_stops_at_unreadable_item :
  let stale := Text.q "{'timestamp':1699910000000}" in
  let cut := Text.q "{'data':{'stars':12345,'fo" in
  let st := Page.opened [(CONFIG.CACHE_KEY, cut); ("die_old", stale)]
              Page.t0 in
  let st' := Page.opened [("die_old", stale); (CONFIG.CACHE_KEY, cut)]
               Page.t0 in
  js_sub (num Page.t0) (num 1699910000000) = Normal (Number.of_Z 90000000)
  /\ StorageManager.clearOldCache st = (Normal tt, st)
  /\ lookup "die_old" (localStorage (snd (onDOMContentLoaded Page.offline st)))
     = Some stale
  /\ lookup "die_old" (localStorage (snd (StorageManager.clearOldCache st')))
     = None
  /\ trace (snd (onDOMContentLoaded Page.offline st'))
     = [EvText "detailed-issues" "0"; EvText "detailed-watchers" "168";
        EvText "detailed-forks" "879"; EvText "detailed-stars" "10.2k";
        EvText "github-forks" "879"; EvText "github-stars" "10.2k";
        EvFetch CONFIG.GITHUB_API_URL; EvRemoveItem "die_old"].
Proof. vm_compute. repeat split. Qed.

(** ** C4: formatting of numbers *)

(** *** Rounding to binary64 *)

Lemma digits2_pos_size p : digits2_pos p = Pos.size p.
Proof. induction p; cbn; congruence. Qed.

Lemma digits2_pos_bounds p :
  2 ^ (Zpos (digits2_pos p) - 1) <= Zpos p < 2 ^ Zpos (digits2_pos p).
Proof.
  rewrite digits2_pos_size. split.
  - pose proof (Pos.size_le p) as H.
    apply Pos2Z.pos_le_pos in H. rewrite Pos2Z.inj_pow in H.
    replace (Zpos (Pos.size p)) with (Zpos (Pos.size p) - 1 + 1) in H by lia.
    rewrite Z.pow_add_r in H by lia.
    change (Zpos p~0) with (2 * Zpos p) in H. change (2 ^ 1) with 2 in H. lia.
  - pose proof (Pos.size_gt p) as H.
    apply Pos2Z.pos_lt_pos in H. rewrite Pos2Z.inj_pow in H. exact H.
Qed.

Lemma digits2_pos_unique p k :
  2 ^ (k - 1) <= Zpos p < 2 ^ k -> Zpos (digits2_pos p) = k.
Proof.
  intros [L U]. destruct (digits2_pos_bounds p) as [L' U'].
  assert (0 < k).
  { destruct (Z.lt_trichotomy 0 k) as [|[<-|N]]; [assumption|cbn in U; lia|].
    rewrite (Z.pow_neg_r 2 k) in U by lia. lia. }
  assert (Zpos (digits2_pos p) - 1 < k).
  { apply (Z.pow_lt_mono_r_iff 2); lia. }
  assert (k - 1 < Zpos (digits2_pos p)).
  { apply (Z.pow_lt_mono_r_iff 2); lia. }
  lia.
Qed.

Lemma Zdigits2_unique q k :
  2 ^ (k - 1) <= q < 2 ^ k -> 0 < q -> Zdigits2 q = k.
Proof.
  intros B P. destruct q as [|p|p]; try lia. cbn [Zdigits2].
  apply digits2_pos_unique. exact B.
Qed.

Lemma record_of_loc_m q l : shr_m (shr_record_of_loc q l) = q.
Proof. destruct l as [|[]]; reflexivity. Qed.

Lemma record_of_loc_loc q l : loc_of_shr_record (shr_record_of_loc q l) = l.
Proof. destruct l as [|[]]; reflexivity. Qed.

Lemma shr_fexp_keep q e l :
  Zdigits2 q = 53 -> -1074 <= e ->
  shr_fexp Number.prec Number.emax q e l = (shr_record_of_loc q l, e).
Proof.
  intros Hd He. unfold shr_fexp. rewrite Hd.
  replace (fexp Number.prec Number.emax (53 + e) - e) with 0
    by (unfold fexp, emin, Number.prec, Number.emax; lia).
  reflexivity.
Qed.

Lemma shr_fexp_halve q e l :
  Zdigits2 q = 54 -> -1075 <= e ->
  shr_fexp Number.prec Number.emax q e l
  = (shr_1 (shr_record_of_loc q l), e + 1).
Proof.
  intros Hd He. unfold shr_fexp. rewrite Hd.
  replace (fexp Number.prec Number.emax (54 + e) - e) with 1
    by (unfold fexp, emin, Number.prec, Number.emax; lia).
  reflexivity.
Qed.

(** The second half of [binary_round_aux]: a rounded mantissa of 53
    bits is kept, the mantissa 2^53 is halved. *)
Lemma round_aux_finish mx ex lx mrs e1 :
  shr_fexp Number.prec Number.emax mx ex lx = (mrs, e1) ->
  2 ^ 52 <= round_nearest_even (shr_m mrs) (loc_of_shr_record mrs) <= 2 ^ 53 ->
  -1074 <= e1 <= 970 ->
  exists mz ez,
    binary_round_aux Number.prec Number.emax false mx ex lx
    = S754_finite false mz ez
    /\ Zpos mz * 2 ^ (ez - e1)
       = round_nearest_even (shr_m mrs) (loc_of_shr_record mrs)
    /\ e1 <= ez <= e1 + 1
    /\ 2 ^ 52 <= Zpos mz < 2 ^ 53.
Proof.
  intros Hs Hm He. unfold binary_round_aux. rewrite Hs.
  set (m1 := round_nearest_even _ _) in *.
  destruct (Z.eq_dec m1 (2 ^ 53)) as [E|N].
  - rewrite E. rewrite shr_fexp_halve by (try reflexivity; lia).
    cbn [shr_record_of_loc shr_1 shr_m Z.pow Z.pow_pos Pos.iter Z.mul Pos.mul].
    exists (4503599627370496)%positive, (e1 + 1).
    destruct (Z.leb_spec (e1 + 1) (Number.emax - Number.prec));
      [|unfold Number.emax, Number.prec in *; lia].
    split; [reflexivity|]. split; [|split; [lia|split; reflexivity]].
    replace (e1 + 1 - e1) with 1 by lia. reflexivity.
  - assert (Hd : Zdigits2 m1 = 53)
      by (apply Zdigits2_unique; [change (53 - 1) with 52|]; lia).
    rewrite shr_fexp_keep by (try assumption; lia).
    cbn [shr_record_of_loc shr_m].
    destruct m1 as [|p|p]; try lia.
    exists p, e1.
    destruct (Z.leb_spec e1 (Number.emax - Number.prec));
      [|unfold Number.emax, Number.prec in *; lia].
    split; [reflexivity|]. split; [|split; lia].
    replace (e1 - e1) with 0 by lia. lia.
Qed.

Lemma round_nearest_even_cases q l :
  round_nearest_even q l = q \/ round_nearest_even q l = q + 1.
Proof. destruct l as [|[]]; cbn; try destruct (Z.even q); auto. Qed.

(** A mantissa of 53 bits is rounded to itself or to its successor. *)
Lemma round_aux_53 q e l :
  2 ^ 52 <= q < 2 ^ 53 -> -1074 <= e <= 970 ->
  exists mz ez,
    binary_round_aux Number.prec Number.emax false q e l
    = S754_finite false mz ez
    /\ (Zpos mz * 2 ^ (ez - e) = q \/ Zpos mz * 2 ^ (ez - e) = q + 1)
    /\ e <= ez <= e + 1
    /\ 2 ^ 52 <= Zpos mz < 2 ^ 53.
Proof.
  intros Hq He.
  assert (Hd : Zdigits2 q = 53)
    by (apply Zdigits2_unique; [change (53 - 1) with 52|]; lia).
  pose proof (shr_fexp_keep q e l Hd ltac:(lia)) as Hs.
  destruct (round_aux_finish q e l _ _ Hs) as (mz & ez & E & V & B & N).
  - rewrite record_of_loc_m, record_of_loc_loc.
    destruct (round_nearest_even_cases q l) as [-> | ->]; lia.
  - exact He.
  - exists mz, ez. split; [exact E|]. split; [|split; [exact B|exact N]].
    rewrite V, record_of_loc_m, record_of_loc_loc.
    apply round_nearest_even_cases.
Qed.

(** A mantissa of 54 bits loses its last bit, and is rounded to the
    nearest of its two neighbours with 53 bits, the even one when it
    lies halfway between them. *)
Lemma round_aux_54 q e l :
  2 ^ 53 <= q < 2 ^ 54 -> -1075 <= e <= 969 ->
  exists mz ez,
    binary_round_aux Number.prec Number.emax false q e l
    = S754_finite false mz ez
    /\ (Zpos mz * 2 ^ (ez - e) = q \/ Zpos mz * 2 ^ (ez - e) = q + 1
        \/ (Zpos mz * 2 ^ (ez - e) = q - 1 /\ l = loc_Exact))
    /\ e + 1 <= ez <= e + 2
    /\ 2 ^ 52 <= Zpos mz < 2 ^ 53.
Proof.
  intros Hq He.
  assert (Hd : Zdigits2 q = 54)
    by (apply Zdigits2_unique; [change (54 - 1) with 53|]; lia).
  pose proof (shr_fexp_halve q e l Hd ltac:(lia)) as Hs.
  assert (P : forall mz ez, e + 1 <= ez ->
            Zpos mz * 2 ^ (ez - e) = 2 * (Zpos mz * 2 ^ (ez - (e + 1)))).
  { intros mz ez Hz. replace (ez - e) with (ez - (e + 1) + 1) by lia.
    rewrite Z.pow_add_r by lia. change (2 ^ 1) with 2. lia. }
  destruct q as [|[p|p|]|]; try lia.
  - (* odd *)
    destruct (round_aux_finish _ e l _ _ Hs) as (mz & ez & E & V & B & N);
      [|lia|].
    + destruct l as [|[]]; cbn [shr_record_of_loc shr_1 shr_m
                                  loc_of_shr_record orb round_nearest_even];
        try destruct (Z.even (Zpos p)); lia.
    + exists mz, ez. split; [exact E|]. split; [|split; [lia|exact N]].
      rewrite P by lia. rewrite V.
      destruct l as [|[]]; cbn [shr_record_of_loc shr_1 shr_m
                                  loc_of_shr_record orb round_nearest_even];
        try destruct (Z.even (Zpos p));
        first [left; lia | right; left; lia
              | right; right; split; [lia|reflexivity]].
  - (* even *)
    destruct (round_aux_finish _ e l _ _ Hs) as (mz & ez & E & V & B & N);
      [|lia|].
    + destruct l as [|[]]; cbn [shr_record_of_loc shr_1 shr_m
                                  loc_of_shr_record orb round_nearest_even];
        lia.
    + exists mz, ez. split; [exact E|]. split; [|split; [lia|exact N]].
      rewrite P by lia. rewrite V.
      destruct l as [|[]]; cbn [shr_record_of_loc shr_1 shr_m
                                  loc_of_shr_record orb round_nearest_even];
        left; lia.
Qed.

(** *** The Number of an integer below 2^53 *)

Lemma iter_xO_value p d : Zpos (Pos.iter xO p d) = Zpos p * 2 ^ Zpos d.
Proof.
  induction d as [|d IH] using Pos.peano_ind.
  - cbn [Pos.iter]. change (2 ^ 1) with 2. lia.
  - rewrite Pos.iter_succ, Pos2Z.inj_xO, IH, Pos2Z.inj_succ.
    rewrite Z.pow_succ_r by lia. lia.
Qed.

Lemma of_Z_normal n :
  0 < n < 2 ^ 53 ->
  exists m e,
    Number.of_Z n = S754_finite false m e
    /\ Zpos m = n * 2 ^ (- e) /\ -52 <= e <= 0 /\ 2 ^ 52 <= Zpos m < 2 ^ 53.
Proof.
  intros Hn. destruct n as [|p|p]; try lia.
  unfold Number.of_Z, binary_normalize, binary_round.
  pose proof (digits2_pos_bounds p) as Hb.
  set (d := Zpos (digits2_pos p)) in *.
  assert (Hd : 1 <= d <= 53).
  { split; [unfold d; lia|].
    destruct (Z.le_gt_cases d 53) as [|G]; [assumption|].
    assert (2 ^ 53 <= 2 ^ (d - 1)) by (apply Z.pow_le_mono_r; lia). lia. }
  replace (fexp Number.prec Number.emax (d + 0)) with (d - 53)
    by (unfold fexp, emin, Number.prec, Number.emax; lia).
  assert (Hp : 2 ^ (d - 1) * 2 ^ (53 - d) = 2 ^ 52)
    by (rewrite <- Z.pow_add_r by lia; f_equal; lia).
  assert (Hp' : 2 ^ d * 2 ^ (53 - d) = 2 ^ 53)
    by (rewrite <- Z.pow_add_r by lia; f_equal; lia).
  assert (Hpos : 0 < 2 ^ (53 - d)) by (apply Z.pow_pos_nonneg; lia).
  assert (A : exists mz,
             shl_align p 0 (d - 53) = (mz, d - 53)
             /\ Zpos mz = Zpos p * 2 ^ (53 - d)).
  { unfold shl_align. destruct (d - 53 - 0) as [|k|k] eqn:Ek; try lia.
    - exists p. replace (d - 53) with 0 by lia. split; [reflexivity|].
      replace (53 - d) with 0 by lia. lia.
    - eexists. split; [reflexivity|]. rewrite iter_xO_value.
      f_equal. f_equal. lia. }
  destruct A as (mz & -> & Hmz).
  assert (Hq : 2 ^ 52 <= Zpos mz < 2 ^ 53) by (rewrite Hmz; nia).
  assert (Hdz : Zdigits2 (Zpos mz) = 53)
    by (apply Zdigits2_unique; [change (53 - 1) with 52|]; lia).
  pose proof (shr_fexp_keep (Zpos mz) (d - 53) loc_Exact Hdz ltac:(lia)) as Hs.
  destruct (round_aux_finish _ _ _ _ _ Hs) as (m & e & E & V & B & N);
    [cbn; lia|lia|].
  cbn [shr_record_of_loc shr_m loc_of_shr_record round_nearest_even] in V.
  exists m, e. split; [exact E|].
  assert (e = d - 53).
  { destruct (Z.eq_dec e (d - 53)) as [|Ne]; [assumption|].
    replace (e - (d - 53)) with 1 in V by lia. change (2 ^ 1) with 2 in V.
    lia. }
  subst e. replace (d - 53 - (d - 53)) with 0 in V by lia.
  replace (- (d - 53)) with (53 - d) by lia.
  split; [lia|]. split; [lia|exact N].
Qed.

(** *** Division by 1000 *)

Lemma of_Z_1000 : Number.of_Z 1000 = S754_finite false M1000 (-43).
Proof. reflexivity. Qed.

Lemma div_core_1000 m e :
  2 ^ 52 <= Zpos m < 2 ^ 53 -> -52 <= e <= 0 ->
  SFdiv_core_binary Number.prec Number.emax (Zpos m) e (Zpos M1000) (-43)
  = ((Zpos m * 2 ^ 53) / Zpos M1000, e - 10,
     if (Zpos m * 2 ^ 53) mod Zpos M1000 =? 0 then loc_Exact
     else loc_Inexact (2 * ((Zpos m * 2 ^ 53) mod Zpos M1000) ?= Zpos M1000)).
Proof.
  intros Hm He. unfold SFdiv_core_binary.
  rewrite (Zdigits2_unique (Zpos m) 53)
    by (try (change (53 - 1) with 52); lia).
  change (Zdigits2 (Zpos M1000)) with 53.
  replace (Z.min (fexp Number.prec Number.emax (53 + e - (53 + -43)))
             (e - -43)) with (e - 10)
    by (unfold fexp, emin, Number.prec, Number.emax; lia).
  replace (e - -43 - (e - 10)) with 53 by lia.
  rewrite Z.shiftl_mul_pow2 by lia.
  unfold Z.div, Z.modulo.
  destruct (Z.div_eucl (Zpos m * 2 ^ 53) (Zpos M1000)) as [q r].
  reflexivity.
Qed.

(** The quotient of a Number with 53 bits by 1000 is a Number within
    2^(e-10) of the exact quotient, where e is the exponent of the
    dividend: with R its mantissa in units of 2^(e-10),
    |R * 1000 * 2^43 - m * 2^53| <= 1000 * 2^43. *)
Lemma div_1000_close m e :
  2 ^ 52 <= Zpos m < 2 ^ 53 -> -52 <= e <= 0 ->
  exists mz ez,
    Number.div (S754_finite false m e) (Number.of_Z 1000)
    = S754_finite false mz ez
    /\ e - 10 <= ez <= e - 8
    /\ 2 ^ 52 <= Zpos mz < 2 ^ 53
    /\ Z.abs (Zpos mz * 2 ^ (ez - (e - 10)) * Zpos M1000 - Zpos m * 2 ^ 53)
       <= Zpos M1000.
Proof.
  intros Hm He. rewrite of_Z_1000. unfold Number.div, SFdiv.
  rewrite (div_core_1000 m e Hm He). cbn [xorb].
  set (a := Zpos m * 2 ^ 53).
  pose proof (Z.div_mod a (Zpos M1000) ltac:(lia)) as Hdm.
  pose proof (Z.mod_pos_bound a (Zpos M1000) ltac:(lia)) as Hr.
  set (q := a / Zpos M1000) in *. set (r := a mod Zpos M1000) in *.
  assert (Hq : 2 ^ 52 <= q < 2 ^ 54).
  { unfold M1000 in *. unfold a in *. split; nia. }
  destruct (Z.lt_ge_cases q (2 ^ 53)) as [Lo|Hi].
  - destruct (round_aux_53 q (e - 10)
                (if r =? 0 then loc_Exact
                 else loc_Inexact (2 * r ?= Zpos M1000)))
      as (mz & ez & E & V & B & N); [lia|lia|].
    exists mz, ez. split; [exact E|]. split; [lia|]. split; [exact N|].
    destruct V as [-> | ->]; lia.
  - destruct (round_aux_54 q (e - 10)
                (if r =? 0 then loc_Exact
                 else loc_Inexact (2 * r ?= Zpos M1000)))
      as (mz & ez & E & V & B & N); [lia|lia|].
    exists mz, ez. split; [exact E|]. split; [lia|]. split; [exact N|].
    destruct V as [-> | [-> | [-> L]]]; try lia.
    destruct (Z.eqb_spec r 0); [lia|discriminate].
Qed.

(** *** formatNumber on integers *)

Lemma geb_1000 n m e :
  1000 <= n ->
  Zpos m = n * 2 ^ (- e) -> -52 <= e <= 0 -> 2 ^ 52 <= Zpos m < 2 ^ 53 ->
  Number.geb (S754_finite false m e) (Number.of_Z 1000) = true.
Proof.
  intros Hn Hm He Hb. rewrite of_Z_1000.
  unfold Number.geb, SFleb, SFcompare.
  assert (Hp : 0 < 2 ^ (- e)) by (apply Z.pow_pos_nonneg; lia).
  destruct (Z.compare_spec (-43) e) as [<-|L|G]; [|reflexivity|].
  - change (Pos.compare_cont Eq M1000 m) with (M1000 ?= m)%positive.
    rewrite Pos2Z.inj_compare.
    change (- -43) with 43 in Hm.
    destruct (Z.compare_spec (Zpos M1000) (Zpos m)) as [| |G];
      try reflexivity.
    unfold M1000 in G. lia.
  - assert (2 ^ 44 <= 2 ^ (- e)) by (apply Z.pow_le_mono_r; lia). nia.
Qed.

Lemma toFixed1_finite m e :
  e < 0 -> Zpos m < 2 ^ 53 ->
  Number.toFixed1 (S754_finite false m e)
  = one_decimal ((20 * Zpos m + 2 ^ (- e)) / (2 * 2 ^ (- e))).
Proof.
  intros He Hm. unfold Number.toFixed1, Number.magnitude.
  destruct (Z.leb_spec 0 e); [lia|].
  cbn [Number.is_negative].
  assert (Hp : 0 < 2 ^ (- e)) by (apply Z.pow_pos_nonneg; lia).
  destruct (Z.leb_spec (2 ^ (- e) * 10 ^ 21) (Zpos m)); [nia|].
  reflexivity.
Qed.

Lemma nearest_tenth n R P :
  1024 <= P -> Z.abs (1000 * R - n * P) <= 1000 ->
  Z.abs (100 * ((20 * R + P) / (2 * P)) - n) <= 50.
Proof.
  intros HP Hc.
  pose proof (Z.div_mod (20 * R + P) (2 * P) ltac:(lia)) as Hdm.
  pose proof (Z.mod_pos_bound (20 * R + P) (2 * P) ltac:(lia)) as Hr.
  set (k := (20 * R + P) / (2 * P)) in *.
  set (r := (20 * R + P) mod (2 * P)) in *.
  assert (U : P * (200 * k - 2 * n - 100) < 2 * P) by nia.
  assert (L : P * (2 * n - 200 * k - 100) < 2 * P) by nia.
  assert (200 * k - 2 * n - 100 < 2) by nia.
  assert (2 * n - 200 * k - 100 < 2) by nia.
  lia.
Qed.

Lemma formatNumber_large n :
  1000 <= n < 2 ^ 53 ->
  exists m,
    Utils.formatNumber (num n) = Normal (one_decimal m ++ "k")%string
    /\ Z.abs (100 * m - n) <= 50.
Proof.
  intros Hn.
  destruct (of_Z_normal n ltac:(lia)) as (m1 & e1 & E1 & V1 & B1 & N1).
  destruct (div_1000_close m1 e1 N1 B1) as (mz & ez & E & Be & Nz & C).
  set (den := 2 ^ (- ez)).
  exists ((20 * Zpos mz + den) / (2 * den)).
  split.
  - unfold Utils.formatNumber, js_ge, js_div, num.
    cbn [ToNumber cbind]. rewrite E1.
    rewrite (geb_1000 n m1 e1) by (try assumption; lia).
    rewrite E. rewrite toFixed1_finite by lia. reflexivity.
  - set (a := ez - (e1 - 10)) in *.
    assert (Ha : 0 <= a <= 2) by (unfold a; lia).
    assert (Hpa : 0 < 2 ^ a) by (apply Z.pow_pos_nonneg; lia).
    assert (Hden : 0 < den) by (apply Z.pow_pos_nonneg; lia).
    assert (HP : den * 2 ^ a = 2 ^ (10 - e1)).
    { unfold den, a. rewrite <- Z.pow_add_r by lia. f_equal. lia. }
    assert (HP' : 2 ^ (10 - e1) = 1024 * 2 ^ (- e1)).
    { replace (10 - e1) with (10 + - e1) by lia.
      rewrite Z.pow_add_r by lia. reflexivity. }
    assert (Hpe : 0 < 2 ^ (- e1)) by (apply Z.pow_pos_nonneg; lia).
    replace ((20 * Zpos mz + den) / (2 * den))
      with ((20 * (Zpos mz * 2 ^ a) + 2 ^ (10 - e1)) / (2 * 2 ^ (10 - e1))).
    + apply nearest_tenth; [nia|].
      unfold M1000 in C. rewrite V1 in C. rewrite HP'.
      change (2 ^ 53) with (1024 * 8796093022208) in C. lia.
    + rewrite <- HP.
      replace (20 * (Zpos mz * 2 ^ a) + den * 2 ^ a)
        with ((20 * Zpos mz + den) * 2 ^ a) by ring.
      replace (2 * (den * 2 ^ a)) with (2 * den * 2 ^ a) by ring.
      apply Z.div_mul_cancel_r; lia.
Qed.

Lemma formatNumber_small_table :
  forallb
    (fun k =>
       match Utils.formatNumber (num (Z.of_nat k)) with
       | Normal text => String.eqb text (Number.decimal (Z.of_nat k))
       | Throw _ => false
       end)
    (seq 0 1000)
  = true.
Proof. vm_compute. reflexivity. Qed.

Lemma formatNumber_small n :
  0 <= n < 1000 ->
  Utils.formatNumber (num n) = Normal (Number.decimal n).
Proof.
  intros Hn.
  pose proof (proj1 (forallb_forall _ _) formatNumber_small_table
                (Z.to_nat n)) as H.
  cbv beta in H. rewrite Z2Nat.id in H by lia.
  specialize (H ltac:(apply in_seq; lia)).
  destruct (Utils.formatNumber (num n)) as [text|]; [|discriminate].
  apply String.eqb_eq in H. congruence.
Qed.

(** The three values the specification gives. *)
Example formatNumber_examples :
  Utils.formatNumber (num 10200) = Normal "10.2k"
  /\ Utils.formatNumber (num 999) = Normal "999"
  /\ Utils.formatNumber (num 1000) = Normal "1.0k".
Proof. vm_compute. repeat split. Qed.

(** Halfway cases go either way, as the binary quotient falls. *)
Example formatNumber_ties :
  Utils.formatNumber (num 1150) = Normal "1.1k"
  /\ Utils.formatNumber (num 1250) = Normal "1.3k"
  /\ Utils.formatNumber (num 1350) = Normal "1.4k"
  /\ Utils.formatNumber (num 1450) = Normal "1.4k".
Proof. vm_compute. repeat split. Qed.

(** C4, as the code has it. For every integer n with 0 <= n < 2^53,
    [formatNumber] returns the decimal digits of n when n < 1000, and
    otherwise a tenth m/10 nearest to n/1000, written with one decimal
    place and followed by k. *)
Theorem formatNumber_on_integers n :
  0 <= n < 2 ^ 53 ->
  exists text,
    Utils.formatNumber (num n) = Normal text /\ formatted n text.
Proof.
  intros Hn. unfold formatted.
  destruct (Z.ltb_spec n 1000) as [S|L].
  - exists (Number.decimal n). split; [|reflexivity].
    apply formatNumber_small. lia.
  - destruct (formatNumber_large n ltac:(lia)) as (m & E & B).
    exists (one_decimal m ++ "k")%string. split; [exact E|].
    exists m. split; [reflexivity|exact B].
Qed.

Lemma formatNumber_witness :
  0 <= 10200 < 2 ^ 53
  /\ exists text,
      Utils.formatNumber (num 10200) = Normal text /\ formatted 10200 text.
Proof.
  split; [lia|]. apply (formatNumber_on_integers 10200). lia.
Defined.

(** Beyond 2^53 the quotient is too coarse: 36028797018964152 is a
    Number, one thousandth of it is 36028797018964.152, and the text
    has .1 where the nearest tenth is .2. *)
Lemma formatNumber_large_integer :
  Number.magnitude (Number.of_Z 36028797018964152) = (36028797018964152, 1)
  /\ Utils.formatNumber (num 36028797018964152)
     = Normal "36028797018964.1k"
  /\ ~ formatted 36028797018964152 "36028797018964.1k".
Proof.
  split; [vm_compute; reflexivity|]. split; [vm_compute; reflexivity|].
  unfold formatted. cbn [Z.ltb Z.compare Pos.compare Pos.compare_cont].
  intros (m & E & B).
  assert (m = 360287970189642) by lia. subst m.
  vm_compute in E. discriminate.
Qed.

(** ** Integer timestamps

    [Date.now()] is an integer, and so is the timestamp of a record the
    program wrote. On integers below 2^53 the subtraction and the
    comparisons of the read are exact. *)

Lemma shr_1_even z :
  0 < z ->
  shr_1 {| shr_m := 2 * z; shr_r := false; shr_s := false |}
  = {| shr_m := z; shr_r := false; shr_s := false |}.
Proof. destruct z; try lia. reflexivity. Qed.

Lemma iter_shr_exact k : forall m,
  0 < m ->
  iter_pos shr_1 k
    {| shr_m := m * 2 ^ Zpos k; shr_r := false; shr_s := false |}
  = {| shr_m := m; shr_r := false; shr_s := false |}.
Proof.
  induction k as [k IH|k IH|]; intros m Hm; cbn [iter_pos].
  - assert (Hp : 0 < 2 ^ Zpos k) by (apply Z.pow_pos_nonneg; lia).
    replace (m * 2 ^ Zpos k~1) with (2 * (m * 2 ^ Zpos k * 2 ^ Zpos k)).
    + rewrite shr_1_even by nia. rewrite IH by nia. apply IH. exact Hm.
    + change (Zpos k~1) with (2 * Zpos k + 1).
      rewrite Z.pow_add_r, Z.pow_mul_r by lia.
      change (2 ^ 2) with 4. change (2 ^ 1) with 2.
      replace (4 ^ Zpos k) with (2 ^ Zpos k * 2 ^ Zpos k).
      * ring.
      * rewrite <- Z.pow_mul_l. reflexivity.
  - assert (Hp : 0 < 2 ^ Zpos k) by (apply Z.pow_pos_nonneg; lia).
    replace (m * 2 ^ Zpos k~0) with (m * 2 ^ Zpos k * 2 ^ Zpos k).
    + rewrite IH by nia. apply IH. exact Hm.
    + change (Zpos k~0) with (2 * Zpos k).
      rewrite Z.pow_mul_r by lia. change (2 ^ 2) with 4.
      replace (4 ^ Zpos k) with (2 ^ Zpos k * 2 ^ Zpos k).
      * ring.
      * rewrite <- Z.pow_mul_l. reflexivity.
  - change (2 ^ 1) with 2. replace (m * 2) with (2 * m) by lia.
    apply shr_1_even. exact Hm.
Qed.

(** The exponent of the Number of c: the number of bits of c, less 53. *)
Lemma exponent_unique c m e m' e' :
  0 < c ->
  Zpos m = c * 2 ^ (- e) -> e <= 0 -> 2 ^ 52 <= Zpos m < 2 ^ 53 ->
  Zpos m' = c * 2 ^ (- e') -> e' <= 0 -> 2 ^ 52 <= Zpos m' < 2 ^ 53 ->
  m = m' /\ e = e'.
Proof.
  intros Hc Hm He Bm Hm' He' Bm'.
  assert (e = e').
  { destruct (Z.lt_trichotomy e e') as [L|[E|G]]; [exfalso|exact E|exfalso].
    - assert (Hp : 0 < 2 ^ (- e')) by (apply Z.pow_pos_nonneg; lia).
      replace (- e) with (- e' + (e' - e)) in Hm by lia.
      rewrite Z.pow_add_r in Hm by lia.
      assert (2 <= 2 ^ (e' - e))
        by (change 2 with (2 ^ 1) at 1; apply Z.pow_le_mono_r; lia).
      nia.
    - assert (Hp : 0 < 2 ^ (- e)) by (apply Z.pow_pos_nonneg; lia).
      replace (- e') with (- e + (e - e')) in Hm' by lia.
      rewrite Z.pow_add_r in Hm' by lia.
      assert (2 <= 2 ^ (e - e'))
        by (change 2 with (2 ^ 1) at 1; apply Z.pow_le_mono_r; lia).
      nia. }
  subst e'. split; [|reflexivity].
  apply Pos2Z.inj. congruence.
Qed.

(** Normalising c * 2^(-e) at exponent e gives the Number of c. *)
Lemma normalize_scaled c e :
  0 <= c < 2 ^ 53 -> -52 <= e <= 0 ->
  binary_normalize Number.prec Number.emax (c * 2 ^ (- e)) e false
  = Number.of_Z c.
Proof.
  intros Hc He.
  destruct (Z.eq_dec c 0) as [->|Hnz]; [reflexivity|].
  destruct (of_Z_normal c ltac:(lia)) as (m0 & e0 & E0 & V0 & B0 & N0).
  rewrite E0.
  assert (Hpe : 0 < 2 ^ (- e)) by (apply Z.pow_pos_nonneg; lia).
  assert (Hpe0 : 0 < 2 ^ (- e0)) by (apply Z.pow_pos_nonneg; lia).
  (* the scaled mantissa in terms of the normal one *)
  destruct (c * 2 ^ (- e)) as [|p|p] eqn:Ep; try nia.
  unfold binary_normalize, binary_round.
  assert (Hdp : Zpos (digits2_pos p) = 53 + e0 - e).
  { apply digits2_pos_unique. rewrite <- Ep.
    destruct (Z.le_gt_cases e0 e) as [L|G].
    - (* c * 2^-e0 = c * 2^-e * 2^(e - e0) *)
      assert (Hs : 2 ^ (- e0) = 2 ^ (- e) * 2 ^ (e - e0))
        by (rewrite <- Z.pow_add_r by lia; f_equal; lia).
      assert (H1 : 2 ^ (53 + e0 - e - 1) * 2 ^ (e - e0) = 2 ^ 52)
        by (rewrite <- Z.pow_add_r by lia; f_equal; lia).
      assert (H2 : 2 ^ (53 + e0 - e) * 2 ^ (e - e0) = 2 ^ 53)
        by (rewrite <- Z.pow_add_r by lia; f_equal; lia).
      assert (0 < 2 ^ (e - e0)) by (apply Z.pow_pos_nonneg; lia).
      rewrite Hs in V0. nia.
    - assert (Hs : 2 ^ (- e) = 2 ^ (- e0) * 2 ^ (e0 - e))
        by (rewrite <- Z.pow_add_r by lia; f_equal; lia).
      assert (H1 : 2 ^ 52 * 2 ^ (e0 - e) = 2 ^ (53 + e0 - e - 1))
        by (change 52 with (53 - 1);
            rewrite <- Z.pow_add_r by lia; f_equal; lia).
      assert (H2 : 2 ^ 53 * 2 ^ (e0 - e) = 2 ^ (53 + e0 - e))
        by (rewrite <- Z.pow_add_r by lia; f_equal; lia).
      assert (0 < 2 ^ (e0 - e)) by (apply Z.pow_pos_nonneg; lia).
      rewrite Hs. nia. }
  rewrite Hdp.
  replace (fexp Number.prec Number.emax (53 + e0 - e + e)) with e0
    by (unfold fexp, emin, Number.prec, Number.emax; lia).
  assert (A : exists mx ex,
             shl_align p e e0 = (mx, ex)
             /\ shr_fexp Number.prec Number.emax (Zpos mx) ex loc_Exact
                = ({| shr_m := Zpos m0; shr_r := false; shr_s := false |}, e0)).
  { unfold shl_align. destruct (e0 - e) as [|k|k] eqn:Ek.
    - exists p, e. split; [reflexivity|].
      assert (e = e0) by lia. subst e0.
      assert (Zpos p = Zpos m0) by congruence.
      rewrite shr_fexp_keep; [cbn; congruence| |lia].
      apply Zdigits2_unique; [change (53 - 1) with 52|]; lia.
    - exists p, e. split; [reflexivity|].
      unfold shr_fexp. cbn [Zdigits2]. rewrite Hdp.
      replace (fexp Number.prec Number.emax (53 + e0 - e + e) - e)
        with (Zpos k)
        by (unfold fexp, emin, Number.prec, Number.emax; lia).
      cbn [shr_record_of_loc shr].
      replace (Zpos p) with (Zpos m0 * 2 ^ Zpos k).
      + rewrite iter_shr_exact by lia. f_equal. lia.
      + rewrite <- Ep, V0, <- Ek.
        replace (- e) with (- e0 + (e0 - e)) by lia.
        rewrite Z.pow_add_r by lia. ring.
    - eexists _, e0. split; [reflexivity|].
      assert (Zpos (Pos.iter xO p k) = Zpos m0) as ->.
      { rewrite iter_xO_value, <- Ep, V0.
        replace (- e0) with (- e + Zpos k) by lia.
        rewrite Z.pow_add_r by lia. ring. }
      rewrite shr_fexp_keep; [reflexivity| |lia].
      apply Zdigits2_unique; [change (53 - 1) with 52|]; lia. }
  destruct A as (mx & ex & -> & Hs).
  destruct (round_aux_finish _ _ _ _ _ Hs) as (m & ez & E & V & B & N);
    [cbn; lia|lia|].
  cbn [shr_m loc_of_shr_record round_nearest_even] in V.
  rewrite E.
  assert (ez = e0).
  { destruct (Z.eq_dec ez e0) as [|Ne]; [assumption|].
    replace (ez - e0) with 1 in V by lia. change (2 ^ 1) with 2 in V. lia. }
  subst ez. replace (e0 - e0) with 0 in V by lia.
  f_equal. apply Pos2Z.inj. lia.
Qed.

Lemma shl_align_value m e e' :
  e' <= e -> Zpos (fst (shl_align m e e')) = Zpos m * 2 ^ (e - e').
Proof.
  intros H. unfold shl_align. destruct (e' - e) as [|k|k] eqn:Ek; try lia.
  - cbn [fst]. replace (e - e') with 0 by lia. lia.
  - cbn [fst]. rewrite iter_xO_value. f_equal. f_equal. lia.
Qed.

(** Subtraction of integers below 2^53 is exact. *)
Lemma sub_of_Z a b :
  0 <= b <= a -> a < 2 ^ 53 ->
  Number.sub (Number.of_Z a) (Number.of_Z b) = Number.of_Z (a - b).
Proof.
  intros Hb Ha.
  destruct (Z.eq_dec b 0) as [->|Hbz].
  - replace (a - 0) with a by lia.
    destruct (Z.eq_dec a 0) as [->|Haz]; [reflexivity|].
    destruct (of_Z_normal a ltac:(lia)) as (m & e & -> & _). reflexivity.
  - destruct (of_Z_normal a ltac:(lia)) as (ma & ea & Ea & Va & Ba & Na).
    destruct (of_Z_normal b ltac:(lia)) as (mb & eb & Eb & Vb & Bb & Nb).
    rewrite Ea, Eb. unfold Number.sub, SFsub. cbn [cond_Zopp].
    set (ez := Z.min ea eb).
    rewrite (shl_align_value ma ea ez), (shl_align_value mb eb ez)
      by (unfold ez; lia).
    rewrite <- (normalize_scaled (a - b) ez) by (unfold ez; lia).
    f_equal. rewrite Va, Vb.
    assert (P1 : 2 ^ (- ea) * 2 ^ (ea - ez) = 2 ^ (- ez))
      by (rewrite <- Z.pow_add_r by (unfold ez; lia); f_equal; lia).
    assert (P2 : 2 ^ (- eb) * 2 ^ (eb - ez) = 2 ^ (- ez))
      by (rewrite <- Z.pow_add_r by (unfold ez; lia); f_equal; lia).
    rewrite <- !Z.mul_assoc, P1, P2. ring.
Qed.

(** Comparison of integers below 2^53 is the comparison of their
    Numbers. *)
Lemma compare_of_Z x y :
  0 <= x < 2 ^ 53 -> 0 <= y < 2 ^ 53 ->
  SFcompare (Number.of_Z x) (Number.of_Z y) = Some (x ?= y).
Proof.
  intros Hx Hy.
  destruct (Z.eq_dec x 0) as [->|Hxz]; destruct (Z.eq_dec y 0) as [->|Hyz].
  - reflexivity.
  - destruct (of_Z_normal y ltac:(lia)) as (m & e & -> & _).
    cbn. destruct y; try lia. reflexivity.
  - destruct (of_Z_normal x ltac:(lia)) as (m & e & -> & _).
    cbn. destruct x; try lia. reflexivity.
  - destruct (of_Z_normal x ltac:(lia)) as (mx & ex & -> & Vx & Bx & Nx).
    destruct (of_Z_normal y ltac:(lia)) as (my & ey & -> & Vy & By & Ny).
    cbn [SFcompare]. f_equal.
    assert (Hpx : 0 < 2 ^ (- ex)) by (apply Z.pow_pos_nonneg; lia).
    assert (Hpy : 0 < 2 ^ (- ey)) by (apply Z.pow_pos_nonneg; lia).
    destruct (Z.compare_spec ex ey) as [E|L|G].
    + subst ey.
      change (Pos.compare_cont Eq mx my) with (mx ?= my)%positive.
      rewrite Pos2Z.inj_compare, Vx, Vy.
      destruct (Z.compare_spec x y) as [E|L|G].
      * subst y. apply Z.compare_refl.
      * apply Z.compare_lt_iff. nia.
      * apply Z.compare_gt_iff. nia.
    + symmetry. apply Z.compare_lt_iff.
      replace (- ex) with (- ey + (ey - ex)) in Vx by lia.
      rewrite Z.pow_add_r in Vx by lia.
      assert (HK : 2 <= 2 ^ (ey - ex))
        by (change 2 with (2 ^ 1) at 1; apply Z.pow_le_mono_r; lia).
      destruct (Z.lt_ge_cases x y) as [|Hge]; [assumption|exfalso].
      assert (y * 2 ^ (- ey) <= x * 2 ^ (- ey)) by nia.
      assert (x * 2 ^ (- ey) * 2 <= x * 2 ^ (- ey) * 2 ^ (ey - ex)) by nia.
      lia.
    + symmetry. apply Z.compare_gt_iff.
      replace (- ey) with (- ex + (ex - ey)) in Vy by lia.
      rewrite Z.pow_add_r in Vy by lia.
      assert (HK : 2 <= 2 ^ (ex - ey))
        by (change 2 with (2 ^ 1) at 1; apply Z.pow_le_mono_r; lia).
      destruct (Z.lt_ge_cases y x) as [|Hge]; [lia|exfalso].
      assert (x * 2 ^ (- ex) <= y * 2 ^ (- ex)) by nia.
      assert (y * 2 ^ (- ex) * 2 <= y * 2 ^ (- ex) * 2 ^ (ex - ey)) by nia.
      lia.
Qed.

Lemma ltb_of_Z x y :
  0 <= x < 2 ^ 53 -> 0 <= y < 2 ^ 53 ->
  Number.ltb (Number.of_Z x) (Number.of_Z y) = (x <? y).
Proof.
  intros Hx Hy. unfold Number.ltb, SFltb. rewrite compare_of_Z by assumption.
  unfold Z.ltb. destruct (x ?= y); reflexivity.
Qed.

Lemma age_of_integers ts now :
  0 <= ts <= now -> now < 2 ^ 53 ->
  js_sub (num now) (num ts) = Normal (Number.of_Z (now - ts)).
Proof.
  intros H1 H2. unfold js_sub, num. cbn [ToNumber cbind].
  rewrite sub_of_Z by assumption. reflexivity.
Qed.

(** A record stamped at [ts] is valid at [now] exactly when
    now - ts < 1800000. *)
Lemma fresh_at_integers ts now :
  0 <= ts <= now -> now < 2 ^ 53 ->
  (fresh_at (num ts) now <-> now - ts < 1800000).
Proof.
  intros H1 H2. unfold fresh_at. rewrite age_of_integers by assumption.
  split.
  - intros (age & E & L). injection E as <-.
    unfold D in L. rewrite ltb_of_Z in L by lia. apply Z.ltb_lt. exact L.
  - intros L. eexists. split; [reflexivity|].
    unfold D. rewrite ltb_of_Z by lia. apply Z.ltb_lt. exact L.
Qed.

Section IntegerTimestamp.

Variables (st : state) (s : string) (parsed : value) (ts : Z).
Hypothesis held : lookup CONFIG.CACHE_KEY (localStorage st) = Some s.
Hypothesis nonempty : s <> "".
Hypothesis parses : JSON.parse s = Normal parsed.
Hypothesis stamped : Get parsed "timestamp" = Normal (num ts).
Hypothesis past : 0 <= ts <= clock st.
Hypothesis safe : clock st < 2 ^ 53.

(** With an integer timestamp the read returns the record while
    now - ts < 1800000, and removes it from then on; thirty minutes to
    the millisecond is too old. *)
Lemma read_integer_timestamp :
  GitHubStats.getCachedStats st
  = if clock st - ts <? 1800000 then (Normal parsed, st)
    else (Normal Null, evicted st).
Proof.
  rewrite (read_record st s held nonempty parsed parses (num ts) stamped
             (Number.of_Z (clock st - ts)) (age_of_integers _ _ past safe)).
  unfold D. rewrite ltb_of_Z by lia. reflexivity.
Qed.

Lemma read_thirty_minutes_old :
  clock st = ts + 1800000 ->
  GitHubStats.getCachedStats st = (Normal Null, evicted st).
Proof.
  intros E. rewrite read_integer_timestamp.
  destruct (Z.ltb_spec (clock st - ts) 1800000); [lia|reflexivity].
Qed.

Lemma read_older_than_thirty_minutes :
  1800000 <= clock st - ts ->
  GitHubStats.getCachedStats st = (Normal Null, evicted st).
Proof.
  intros E. rewrite read_integer_timestamp.
  destruct (Z.ltb_spec (clock st - ts) 1800000); [lia|reflexivity].
Qed.

End IntegerTimestamp.

(** With a record stamped at [ts], visits made at times from [ts] to
    less than thirty minutes later send no request. *)
Lemma visits_within_thirty_minutes s parsed ts l st :
  s <> "" ->
  JSON.parse s = Normal parsed ->
  Get parsed "timestamp" = Normal (num ts) ->
  lookup CONFIG.CACHE_KEY (localStorage st) = Some s ->
  0 <= ts ->
  (forall t net, In (t, net) l -> ts <= t < ts + 1800000 /\ t < 2 ^ 53) ->
  fetches (trace (visits l st)) = fetches (trace st).
Proof.
  intros Hne Hp Hts Hl Hpos Hin.
  destruct (Get_total _ _ _ Hts "data") as [data Hd].
  apply (visits_hit s parsed (num ts) data Hne Hp Hts Hd l st Hl).
  intros t net Ht. destruct (Hin t net Ht) as [B S].
  apply fresh_at_integers; lia.
Qed.

(** ** The sweep, when every item can be read *)

Lemma removeIfOld_eval key item st :
  lookup key (localStorage st) = Some item ->
  StorageManager.removeIfOld key st
  = match verdict (clock st) key item with
    | Normal true =>
        (Normal tt,
         emit (EvRemoveItem key)
           (with_storage (remove_item key (localStorage st)) st))
    | Normal false => (Normal tt, st)
    | Throw e => (Throw e, st)
    end.
Proof.
  intros Hl. unfold StorageManager.removeIfOld, verdict.
  destruct (prefix "die_" key); [|reflexivity]. run. rewrite Hl.
  destruct (ToBoolean (Str item)); [|reflexivity].
  cbn [ToString]. run.
  destruct (JSON.parse item) as [parsed|e]; [|reflexivity].
  destruct (Get parsed "timestamp") as [timestamp|e]; [|reflexivity].
  destruct (js_sub (num (clock st)) timestamp) as [age|e]; [|reflexivity].
  destruct (js_gt (Num age) StorageManager.day) as [[]|e]; reflexivity.
Qed.

Lemma lookup_app_fresh {A} k (pre rest : list (string * A)) :
  ~ In k (map fst pre) -> lookup k (pre ++ rest)%list = lookup k rest.
Proof.
  induction pre as [|[k' a] pre IH]; cbn; [reflexivity|].
  intros Hn. destruct (String.eqb_spec k k') as [->|_]; [tauto|].
  apply IH. tauto.
Qed.

Lemma remove_item_fresh {A} k (l : list (string * A)) :
  ~ In k (map fst l) -> remove_item k l = l.
Proof.
  induction l as [|[k' a] l IH]; cbn; [reflexivity|].
  intros Hn. destruct (String.eqb_spec k k') as [->|_]; [tauto|].
  rewrite IH by tauto. reflexivity.
Qed.

Lemma remove_item_app {A} k (pre rest : list (string * A)) :
  remove_item k (pre ++ rest)%list
  = (remove_item k pre ++ remove_item k rest)%list.
Proof.
  induction pre as [|[k' a] pre IH]; cbn; [reflexivity|].
  destruct (String.eqb k k'); rewrite IH; reflexivity.
Qed.

Lemma filter_keys_incl {A} (f : string * A -> bool) l k :
  In k (map fst (filter f l)) -> In k (map fst l).
Proof.
  rewrite !in_map_iff. intros ((k', a) & E & Hin).
  apply filter_In in Hin. exists (k', a). tauto.
Qed.

(** The loop over the keys that remain: the storage is the swept part
    of what has been visited, followed by what has not. *)
Lemma sweep_loop now rest : forall pre st,
  NoDup (map fst (pre ++ rest)%list) ->
  clock st = now ->
  localStorage st
  = (filter (fun entry => negb (is_old now entry)) pre ++ rest)%list ->
  (forall k v, In (k, v) rest -> exists b, verdict now k v = Normal b) ->
  exists st',
    forEach (map fst rest) StorageManager.removeIfOld st = (Normal tt, st')
    /\ clock st' = now
    /\ localStorage st'
       = filter (fun entry => negb (is_old now entry)) (pre ++ rest)%list.
Proof.
  induction rest as [|[k v] rest IH]; intros pre st Hnd Hc Hs Hr.
  - exists st. rewrite app_nil_r in *. cbn. auto.
  - cbn [map fst forEach]. unfold bind at 1.
    assert (Hk : ~ In k (map fst pre) /\ ~ In k (map fst rest)).
    { rewrite map_app in Hnd. cbn in Hnd.
      apply NoDup_remove_2 in Hnd. rewrite in_app_iff in Hnd. tauto. }
    assert (Hl : lookup k (localStorage st) = Some v).
    { rewrite Hs, lookup_app_fresh.
      - cbn. rewrite String.eqb_refl. reflexivity.
      - intros Hin. apply filter_keys_incl in Hin. tauto. }
    rewrite (removeIfOld_eval k v st Hl), Hc.
    destruct (Hr k v (or_introl eq_refl)) as [b Hb].
    assert (Hnd' : NoDup (map fst ((pre ++ [(k, v)]) ++ rest)%list))
      by (rewrite <- app_assoc; exact Hnd).
    assert (Hr' : forall k' v', In (k', v') rest ->
                  exists b', verdict now k' v' = Normal b')
      by (intros k' v' Hin; apply Hr; right; exact Hin).
    assert (Ho : is_old now (k, v) = b)
      by (unfold is_old; cbn [fst snd]; rewrite Hb; destruct b; reflexivity).
    rewrite Hb. destruct b.
    + destruct (IH (pre ++ [(k, v)])%list
                  (emit (EvRemoveItem k)
                     (with_storage (remove_item k (localStorage st)) st)))
        as (st' & E & C & S); try assumption.
      * cbn [localStorage emit with_storage].
        rewrite Hs, remove_item_app, filter_app. cbn [filter].
        rewrite Ho. cbn [negb]. rewrite app_nil_r.
        rewrite remove_item_fresh
          by (intros Hin; apply filter_keys_incl in Hin; tauto).
        cbn [remove_item]. rewrite String.eqb_refl.
        rewrite remove_item_fresh by tauto. reflexivity.
      * exists st'. rewrite <- app_assoc in S. auto.
    + destruct (IH (pre ++ [(k, v)])%list st) as (st' & E & C & S);
        try assumption.
      * rewrite Hs, filter_app. cbn [filter].
        rewrite Ho. cbn [negb].
        rewrite <- app_assoc. reflexivity.
      * exists st'. rewrite <- app_assoc in S. auto.
Qed.

(** When no two items share a key and the sweep can read every item,
    it ends normally and the storage it leaves is the storage without
    the items it finds older than a day. *)
Lemma sweep_removes_all_old st :
  NoDup (map fst (localStorage st)) ->
  (forall k v, In (k, v) (localStorage st) ->
               exists b, verdict (clock st) k v = Normal b) ->
  exists st',
    StorageManager.clearOldCache st = (Normal tt, st')
    /\ localStorage st'
       = filter (fun entry => negb (is_old (clock st) entry))
           (localStorage st).
Proof.
  intros Hnd Hr.
  destruct (sweep_loop (clock st) (localStorage st) [] st)
    as (st' & E & _ & S); try assumption; try reflexivity.
  exists st'. split; [|exact S].
  unfold StorageManager.clearOldCache, try_catch, bind at 1, storage_keys.
  rewrite E. reflexivity.
Qed.

Lemma lookup_filtered_out {A} (f : string * A -> bool) k a l :
  NoDup (map fst l) -> In (k, a) l -> f (k, a) = false ->
  lookup k (filter f l) = None.
Proof.
  induction l as [|[k' a'] l IH]; cbn; [tauto|].
  intros Hnd [E|Hin] Hf.
  - injection E as -> ->. rewrite Hf.
    apply NoDup_cons_iff in Hnd. destruct Hnd as [Hn _].
    destruct (lookup k (filter f l)) eqn:El; [|reflexivity].
    exfalso. apply Hn. apply (filter_keys_incl f).
    clear - El. induction (filter f l) as [|[k1 a1] r IHr]; cbn in *;
      [discriminate|].
    destruct (String.eqb_spec k k1) as [->|_]; [left; reflexivity|].
    right. apply IHr. exact El.
  - apply NoDup_cons_iff in Hnd. destruct Hnd as [Hn Hnd].
    destruct (f (k', a')); [|apply IH; assumption].
    cbn. destruct (String.eqb_spec k k') as [->|_]; [|apply IH; assumption].
    exfalso. apply Hn. apply in_map_iff. exists (k', a). auto.
Qed.

(** A namespaced record with an integer timestamp more than
    twenty-four hours in the past is found old. *)
Lemma verdict_stale now key item parsed ts :
  prefix "die_" key = true ->
  item <> "" ->
  JSON.parse item = Normal parsed ->
  Get parsed "timestamp" = Normal (num ts) ->
  0 <= ts <= now -> now < 2 ^ 53 ->
  86400000 < now - ts ->
  verdict now key item = Normal true.
Proof.
  intros Hp Hne Hj Hts Hb Hs Hold. unfold verdict. rewrite Hp.
  cbn [ToBoolean]. destruct (String.eqb_spec item ""); [contradiction|].
  cbn [negb]. rewrite Hj. cbn [cbind]. rewrite Hts. cbn [cbind].
  rewrite age_of_integers by assumption. cbn [cbind].
  rewrite day_value. unfold js_gt, num. cbn [ToNumber cbind].
  unfold Number.gtb. change (SFltb ?a ?b) with (Number.ltb a b).
  rewrite ltb_of_Z by lia.
  destruct (Z.ltb_spec 86400000 (now - ts)); [reflexivity|lia].
Qed.

(** X7. The sweep under the condition the code needs: if no two items
    share a key and no item of the storage makes the sweep throw, every
    namespaced record stamped more than twenty-four hours ago is absent
    afterwards. *)
Lemma sweep_removes_stale_keys st key item parsed ts :
  NoDup (map fst (localStorage st)) ->
  (forall k v, In (k, v) (localStorage st) ->
               exists b, verdict (clock st) k v = Normal b) ->
  In (key, item) (localStorage st) ->
  prefix "die_" key = true ->
  item <> "" ->
  JSON.parse item = Normal parsed ->
  Get parsed "timestamp" = Normal (num ts) ->
  0 <= ts <= clock st -> clock st < 2 ^ 53 ->
  86400000 < clock st - ts ->
  exists st',
    StorageManager.clearOldCache st = (Normal tt, st')
    /\ lookup key (localStorage st') = None.
Proof.
  intros Hnd Hr Hin Hp Hne Hj Hts Hb Hs Hold.
  destruct (sweep_removes_all_old st Hnd Hr) as (st' & E & S).
  exists st'. split; [exact E|]. rewrite S.
  apply (lookup_filtered_out _ key item); try assumption.
  unfold is_old. cbn [fst snd].
  rewrite (verdict_stale _ _ _ parsed ts) by assumption. reflexivity.
Qed.

(** * Further properties

    What the functions of the pipeline do on every input: their
    outcomes, what they leave alone, and where they can fail. *)

(** ** The outcomes of the cache read *)

Lemma lookup_remove_item_other {A} k k' (l : list (string * A)) :
  k <> k' -> lookup k (remove_item k' l) = lookup k l.
Proof.
  intros Hn. induction l as [|[k1 a] l IH]; cbn; [reflexivity|].
  destruct (String.eqb_spec k' k1) as [->|N1].
  - rewrite IH. destruct (String.eqb_spec k k1); [contradiction|reflexivity].
  - cbn. rewrite IH. reflexivity.
Qed.

Lemma lookup_set_item_other {A} k k' (a : A) (l : list (string * A)) :
  k <> k' -> lookup k (set_item k' a l) = lookup k l.
Proof.
  intros Hn. induction l as [|[k1 a1] l IH]; cbn.
  - destruct (String.eqb_spec k k'); [contradiction|reflexivity].
  - destruct (String.eqb_spec k' k1) as [->|N1]; cbn.
    + destruct (String.eqb_spec k k1); [contradiction|reflexivity].
    + rewrite IH. reflexivity.
Qed.

Lemma read_cases st :
  GitHubStats.getCachedStats st = (Normal Null, st)
  \/ (exists s parsed,
        lookup CONFIG.CACHE_KEY (localStorage st) = Some s
        /\ JSON.parse s = Normal parsed
        /\ GitHubStats.getCachedStats st = (Normal Null, evicted st))
  \/ (exists s parsed timestamp,
        lookup CONFIG.CACHE_KEY (localStorage st) = Some s
        /\ s <> ""
        /\ JSON.parse s = Normal parsed
        /\ Get parsed "timestamp" = Normal timestamp
        /\ fresh_at timestamp (clock st)
        /\ ToBoolean parsed = true
        /\ GitHubStats.getCachedStats st = (Normal parsed, st)).
Proof.
  destruct (lookup CONFIG.CACHE_KEY (localStorage st)) as [s|] eqn:Hl;
    [|left; apply read_absent; exact Hl].
  destruct (String.eqb_spec s "") as [->|Hne];
    [left; apply read_empty; exact Hl|].
  destruct (JSON.parse s) as [parsed|e] eqn:Hp;
    [|left; exact (read_malformed st s Hl Hne e Hp)].
  destruct (Get parsed "timestamp") as [timestamp|e] eqn:Hts;
    [|left; exact (read_no_timestamp st s Hl Hne parsed Hp e Hts)].
  destruct (js_sub (num (clock st)) timestamp) as [age|e] eqn:Ha;
    [|left;
      exact (read_bad_timestamp st s Hl Hne parsed Hp timestamp Hts e Ha)].
  pose proof (read_record st s Hl Hne parsed Hp timestamp Hts age Ha) as R.
  destruct (Number.ltb age D) eqn:Hlt.
  - right. right. exists s, parsed, timestamp.
    assert (F : fresh_at timestamp (clock st)) by (exists age; auto).
    repeat split; try assumption.
    destruct (Get_total _ _ _ Hts "data") as [data Hd].
    eapply (fresh_truthy s parsed timestamp data); eassumption.
  - right. left. exists s, parsed. auto.
Qed.


(** ** The outcomes of the fetch *)

Lemma fetch_cases net st :
  GitHubStats.fetchFromAPI net st
  = GitHubStats.showFallbackStats (after_fetch net st)
  \/ exists r data a b c d,
      reply net = Some r /\ ok r = true
      /\ JSON.parse (body r) = Normal data
      /\ snapshot_of_response data = Normal (snapshot a b c d)
      /\ GitHubStats.fetchFromAPI net st
         = render_or_fallback
             (after_cacheStats (snapshot a b c d)
                (with_stats (snapshot a b c d) (after_fetch net st))).
Proof.
  destruct (reply net) as [r|] eqn:Hr;
    [|left; apply fetch_failure_handled; unfold fetch_fails;
      rewrite Hr; exact I].
  destruct (ok r) eqn:Hok;
    [|left; apply fetch_failure_handled; unfold fetch_fails;
      rewrite Hr; left; exact Hok].
  destruct (JSON.parse (body r)) as [data|e] eqn:Hp;
    [|left; apply fetch_failure_handled; unfold fetch_fails;
      rewrite Hr; right; exists e; exact Hp].
  destruct (snapshot_of_response data) as [snap|e] eqn:Hs;
    [|left; exact (fetch_shape_error net st r data e Hr Hok Hp Hs)].
  right. unfold snapshot_of_response in Hs.
  destruct (Get data "stargazers_count") as [a|] eqn:Ea; [|discriminate].
  destruct (Get data "forks_count") as [b|] eqn:Eb; [|discriminate].
  destruct (Get data "subscribers_count") as [c|] eqn:Ec; [|discriminate].
  destruct (Get data "open_issues_count") as [d|] eqn:Ed; [|discriminate].
  cbn [cbind] in Hs. injection Hs as <-.
  exists r, data, a, b, c, d. repeat split; try assumption.
  - unfold snapshot_of_response. rewrite Ea, Eb, Ec, Ed. reflexivity.
  - exact (fetch_success_steps net st r data a b c d Hr Hok Hp Ea Eb Ec Ed).
Qed.

Lemma clock_after_cacheStats v st :
  clock (after_cacheStats v st) = clock st.
Proof. unfold after_cacheStats. destruct (takes_record v st); reflexivity. Qed.

Lemma writes_after_cacheStats v st :
  cache_writes (trace (after_cacheStats v st))
  = if takes_record v st then S (cache_writes (trace st))
    else cache_writes (trace st).
Proof. unfold after_cacheStats. destruct (takes_record v st); reflexivity. Qed.

Lemma fetch_effects net st :
  let st' := snd (GitHubStats.fetchFromAPI net st) in
  clock st' = clock st + latency net
  /\ (cache_writes (trace st') <= S (cache_writes (trace st)))%nat
  /\ rejections (trace st') = rejections (trace st).
Proof.
  cbv zeta. split; [|split].
  - destruct (fetch_cases net st)
      as [E|(r & data & a & b & c & d & _ & _ & _ & _ & E)]; rewrite E.
    + destruct (display_showFallbackStats (after_fetch net st))
        as (_ & S2 & _). exact S2.
    + set (cached := after_cacheStats _ _).
      destruct (same_store_render_or_fallback cached) as (_ & S2 & _).
      rewrite S2. apply clock_after_cacheStats.
  - destruct (fetch_cases net st)
      as [E|(r & data & a & b & c & d & _ & _ & _ & _ & E)]; rewrite E.
    + destruct (display_showFallbackStats (after_fetch net st))
        as (_ & _ & _ & _ & S5). rewrite S5. cbn. auto.
    + set (cached := after_cacheStats _ _).
      destruct (same_store_render_or_fallback cached) as (_ & _ & _ & _ & S5).
      rewrite S5. unfold cached. rewrite writes_after_cacheStats.
      destruct (takes_record _ _); cbn; auto.
  - assert (P : preserves (fun s => rejections (trace s))
                  (GitHubStats.fetchFromAPI net)) by preserve.
    exact (P st).
Qed.

(** X2. The fetch has three outcomes and no other, whatever the
    network does.  The fallback is shown with nothing stored (the
    request was rejected, the status was not a success, the body was
    not JSON, or it was the JSON null, whose fields cannot be read).
    Or the snapshot of the four fields of the parsed body is held, the
    storage takes its record, and it is rendered: one cache write, the
    record under the stats key at the end.  Or the snapshot is held,
    the storage refuses the record, the throw is swallowed, and it is
    rendered all the same: no cache write, the storage as it was.  In
    the last two the fallback is shown if rendering throws.  Every
    outcome ends normally, after exactly one request and at most one
    cache write, with the clock advanced by the time the request
    took. *)
Theorem fetchFromAPI_outcomes net st :
  let st' := snd (GitHubStats.fetchFromAPI net st) in
  fst (GitHubStats.fetchFromAPI net st) = Normal tt
  /\ fetches (trace st') = S (fetches (trace st))
  /\ (cache_writes (trace st') <= S (cache_writes (trace st)))%nat
  /\ clock st' = clock st + latency net
  /\ ((GitHubStats.fetchFromAPI net st
       = GitHubStats.showFallbackStats (after_fetch net st)
       /\ localStorage st' = localStorage st
       /\ cache_writes (trace st') = cache_writes (trace st))
      \/ exists r data a b c d,
          reply net = Some r /\ ok r = true
          /\ JSON.parse (body r) = Normal data
          /\ snapshot_of_response data = Normal (snapshot a b c d)
          /\ let snap := snapshot a b c d in
             let held := with_stats snap (after_fetch net st) in
             (takes_record snap held = true
              /\ GitHubStats.fetchFromAPI net st
                 = render_or_fallback (stored snap held)
              /\ lookup CONFIG.CACHE_KEY (localStorage st')
                 = Some (record_text snap (clock st + latency net))
              /\ cache_writes (trace st') = S (cache_writes (trace st)))
             \/ (takes_record snap held = false
                 /\ GitHubStats.fetchFromAPI net st = render_or_fallback held
                 /\ localStorage st' = localStorage st
                 /\ cache_writes (trace st') = cache_writes (trace st))).
Proof.
  cbv zeta. destruct (fetch_effects net st) as (C & W & _).
  split; [apply fetchFromAPI_never_throws|].
  split; [apply fetchFromAPI_one_fetch|].
  split; [exact W|]. split; [exact C|].
  destruct (fetch_cases net st)
    as [E|(r & data & a & b & c & d & Hr & Hok & Hp & Hs & E)].
  - left. split; [exact E|]. rewrite E.
    destruct (display_showFallbackStats (after_fetch net st))
      as (S1 & _ & _ & _ & S5).
    split; [exact S1|exact S5].
  - right. exists r, data, a, b, c, d.
    split; [exact Hr|]. split; [exact Hok|]. split; [exact Hp|].
    split; [exact Hs|].
    set (snap := snapshot a b c d) in *.
    set (held := with_stats snap (after_fetch net st)) in *.
    destruct (same_store_render_or_fallback (after_cacheStats snap held))
      as (S1 & _ & _ & _ & S5).
    rewrite <- E in S1, S5.
    destruct (takes_record snap held) eqn:T.
    + left. rewrite (after_cacheStats_taken snap held T) in E, S1, S5.
      split; [reflexivity|]. split; [exact E|].
      split; [rewrite S1; apply lookup_set_item|].
      rewrite S5. reflexivity.
    + right. rewrite (after_cacheStats_refused snap held T) in E, S1, S5.
      split; [reflexivity|]. split; [exact E|].
      split; [rewrite S1; reflexivity|].
      rewrite S5. reflexivity.
Qed.

(** ** Where a load can fail *)

Lemma same_store_with_stats v st : same_store st (with_stats v st).
Proof. repeat split. Qed.

Lemma load_cases net st :
  (exists st1,
      (st1 = st \/ st1 = evicted st)
      /\ GitHubStats.loadStats net st = GitHubStats.fetchFromAPI net st1)
  \/ exists s parsed timestamp data,
      lookup CONFIG.CACHE_KEY (localStorage st) = Some s
      /\ JSON.parse s = Normal parsed
      /\ Get parsed "timestamp" = Normal timestamp
      /\ fresh_at timestamp (clock st)
      /\ Get parsed "data" = Normal data
      /\ GitHubStats.loadStats net st
         = GitHubStats.updateDOM (with_stats data st).
Proof.
  destruct (read_cases st)
    as [E|[(s & parsed & _ & _ & E)
          |(s & parsed & timestamp & Hl & Hne & Hp & Hts & Hf & _ & _)]].
  - left. exists st. split; [left; reflexivity|].
    unfold GitHubStats.loadStats, bind at 1. rewrite E. reflexivity.
  - left. exists (evicted st). split; [right; reflexivity|].
    unfold GitHubStats.loadStats, bind at 1. rewrite E. reflexivity.
  - right. destruct (Get_total _ _ _ Hts "data") as [data Hd].
    exists s, parsed, timestamp, data. repeat split; try assumption.
    exact (loadStats_hit s parsed timestamp data Hne Hp Hts Hd net st Hl Hf).
Qed.

(** X3. A load can fail in one place only: on the cache-hit branch,
    while rendering the data of a fresh record. When [loadStats]
    throws, the storage held a record that parses and is fresh, the
    throw is the one of [updateDOM] on its data, no request was sent
    and the storage is as it was. *)
Theorem load_fails_only_on_cache_hit net st e st' :
  GitHubStats.loadStats net st = (Throw e, st') ->
  exists s parsed timestamp data,
    lookup CONFIG.CACHE_KEY (localStorage st) = Some s
    /\ JSON.parse s = Normal parsed
    /\ Get parsed "timestamp" = Normal timestamp
    /\ fresh_at timestamp (clock st)
    /\ Get parsed "data" = Normal data
    /\ GitHubStats.updateDOM (with_stats data st) = (Throw e, st')
    /\ same_store st st'.
Proof.
  intros H.
  destruct (load_cases net st)
    as [(st1 & _ & E)|(s & parsed & timestamp & data & Hl & Hp & Hts & Hf & Hd & E)].
  - rewrite E in H. pose proof (fetchFromAPI_never_throws net st1) as N.
    rewrite H in N. discriminate N.
  - exists s, parsed, timestamp, data. rewrite E in H.
    repeat split; try assumption;
      pose proof (display_updateDOM (with_stats data st)) as S;
      rewrite H in S; cbn [snd] in S; destruct S as (S1 & S2 & S3 & S4 & S5);
      assumption.
Qed.

Lemma load_fails_witness :
  GitHubStats.loadStats Page.offline
    (Page.opened
       [(CONFIG.CACHE_KEY, Text.q "{'data':{},'timestamp':1700000000120}")]
       (Page.t0 + 60000))
  = (Throw TypeError,
     with_stats (Obj [])
       (Page.opened
          [(CONFIG.CACHE_KEY, Text.q "{'data':{},'timestamp':1700000000120}")]
          (Page.t0 + 60000)))
  /\ same_store
       (Page.opened
          [(CONFIG.CACHE_KEY, Text.q "{'data':{},'timestamp':1700000000120}")]
          (Page.t0 + 60000))
       (with_stats (Obj [])
          (Page.opened
             [(CONFIG.CACHE_KEY,
               Text.q "{'data':{},'timestamp':1700000000120}")]
             (Page.t0 + 60000))).
Proof.
  assert (H : GitHubStats.loadStats Page.offline
                (Page.opened
                   [(CONFIG.CACHE_KEY,
                     Text.q "{'data':{},'timestamp':1700000000120}")]
                   (Page.t0 + 60000))
              = (Throw TypeError,
                 with_stats (Obj [])
                   (Page.opened
                      [(CONFIG.CACHE_KEY,
                        Text.q "{'data':{},'timestamp':1700000000120}")]
                      (Page.t0 + 60000))))
    by (vm_compute; reflexivity).
  split; [exact H|].
  destruct (load_fails_only_on_cache_hit _ _ _ _ H)
    as (_ & _ & _ & _ & _ & _ & _ & _ & _ & _ & S).
  exact S.
Defined.

(** ** One page load *)

Lemma preserves_rejections_showFallbackStats :
  preserves (fun s => rejections (trace s)) GitHubStats.showFallbackStats.
Proof. preserve. Qed.

Lemma sweep_is_normal st : fst (StorageManager.clearOldCache st) = Normal tt.
Proof.
  unfold StorageManager.clearOldCache, try_catch.
  match goal with
  | |- context [match ?body st with _ => _ end] =>
      destruct (body st) as [[[]|e] st1]
  end; reflexivity.
Qed.

Lemma load_effects net st :
  let st' := snd (GitHubStats.loadStats net st) in
  (fetches (trace st') <= S (fetches (trace st)))%nat
  /\ (cache_writes (trace st') + fetches (trace st)
      <= cache_writes (trace st) + fetches (trace st'))%nat
  /\ rejections (trace st') = rejections (trace st)
  /\ (forall e, fst (GitHubStats.loadStats net st) = Throw e ->
                fetches (trace st') = fetches (trace st)).
Proof.
  cbv zeta.
  destruct (load_cases net st)
    as [(st1 & Hst & E)|(s & parsed & timestamp & data & Hl & Hp & Hts & Hf & Hd & E)];
    rewrite E.
  - destruct (fetch_effects net st1) as (_ & W & R).
    pose proof (fetchFromAPI_one_fetch net st1) as F.
    pose proof (fetchFromAPI_never_throws net st1) as N.
    assert (T : fetches (trace st1) = fetches (trace st)
                /\ cache_writes (trace st1) = cache_writes (trace st)
                /\ rejections (trace st1) = rejections (trace st))
      by (destruct Hst as [-> | ->]; repeat split).
    destruct T as (T1 & T2 & T3).
    rewrite F, R, T1, T3. rewrite T2 in W.
    repeat split; try lia.
    intros e He. rewrite N in He. discriminate He.
  - destruct (display_updateDOM (with_stats data st)) as (_ & _ & _ & S4 & S5).
    assert (P : preserves (fun s => rejections (trace s)) GitHubStats.updateDOM)
      by preserve.
    rewrite S4, S5, (P (with_stats data st)). cbn [trace with_stats].
    repeat split; lia.
Qed.

Lemma page_load_eval net st :
  onDOMContentLoaded net st
  = (Normal tt,
     match GitHubStats.loadStats net
             (with_stats Null (snd (StorageManager.clearOldCache st))) with
     | (Normal _, st2) => st2
     | (Throw e, st2) => emit (EvUnhandledRejection e) st2
     end).
Proof.
  unfold onDOMContentLoaded. rewrite log_skip.
  unfold bind at 1, ret at 1. unfold bind at 1.
  pose proof (sweep_is_normal st) as N.
  destruct (StorageManager.clearOldCache st) as [[[]|e] st1];
    cbn [fst snd] in *; [|discriminate N].
  unfold GitHubStats.new, GitHubStats.init. run.
  destruct (GitHubStats.loadStats net (with_stats Null st1))
    as [[[]|e] st2]; reflexivity.
Qed.

(** X4. One run of the [DOMContentLoaded] handler ends normally,
    sends at most one request, writes the cache at most as often as it
    sends a request, and leaves at most one rejection unhandled, which
    it does only when it sent no request. *)
Theorem page_load_budget net st :
  let st' := snd (onDOMContentLoaded net st) in
  fst (onDOMContentLoaded net st) = Normal tt
  /\ (fetches (trace st') <= S (fetches (trace st)))%nat
  /\ (cache_writes (trace st') + fetches (trace st)
      <= cache_writes (trace st) + fetches (trace st'))%nat
  /\ (rejections (trace st') + fetches (trace st')
      <= S (rejections (trace st) + fetches (trace st)))%nat.
Proof.
  cbv zeta. rewrite page_load_eval. cbn [fst snd].
  assert (Pf : preserves (fun s => fetches (trace s))
                 StorageManager.clearOldCache) by preserve.
  assert (Pw : preserves (fun s => cache_writes (trace s))
                 StorageManager.clearOldCache) by preserve.
  assert (Pr : preserves (fun s => rejections (trace s))
                 StorageManager.clearOldCache) by preserve.
  specialize (Pf st). specialize (Pw st). specialize (Pr st).
  cbv beta in Pf, Pw, Pr.
  set (st1 := snd (StorageManager.clearOldCache st)) in *.
  destruct (load_effects net (with_stats Null st1)) as (L1 & L2 & L3 & L4).
  cbn [trace with_stats] in L1, L2, L3, L4.
  destruct (GitHubStats.loadStats net (with_stats Null st1))
    as [[[]|e] st2];
    cbn [fst snd trace emit rejections fetches cache_writes] in *.
  - split; [reflexivity|]. repeat split; lia.
  - specialize (L4 e eq_refl). split; [reflexivity|]. repeat split; lia.
Qed.

(** ** What the sweep leaves alone *)

Lemma swept_refl now st : swept now st st.
Proof. repeat split. left. reflexivity. Qed.

Lemma swept_trans now st1 st2 st3 :
  swept now st1 st2 -> swept now st2 st3 -> swept now st1 st3.
Proof.
  intros (A1 & A2 & A3 & A4 & A5 & A6 & A7 & A8)
         (B1 & B2 & B3 & B4 & B5 & B6 & B7 & B8).
  repeat split; try congruence.
  intros k. destruct (B8 k) as [E|(E & item & Hi & Hv)].
  - rewrite E. apply A8.
  - destruct (A8 k) as [E'|(E' & _)]; [|congruence].
    right. split; [exact E|]. exists item. rewrite <- E'. auto.
Qed.

Lemma removeIfOld_absent key st :
  lookup key (localStorage st) = None ->
  StorageManager.removeIfOld key st = (Normal tt, st).
Proof.
  intros Hl. unfold StorageManager.removeIfOld.
  destruct (prefix "die_" key); [|reflexivity]. run. rewrite Hl. reflexivity.
Qed.

Lemma removeIfOld_swept key st :
  swept (clock st) st (snd (StorageManager.removeIfOld key st)).
Proof.
  destruct (lookup key (localStorage st)) as [item|] eqn:Hl;
    [|rewrite removeIfOld_absent by exact Hl; apply swept_refl].
  rewrite (removeIfOld_eval key item st Hl).
  destruct (verdict (clock st) key item) as [[]|e] eqn:Hv;
    cbn [snd]; try apply swept_refl.
  repeat split. intros k. cbn [localStorage emit with_storage].
  destruct (String.eqb_spec k key) as [->|Hne].
  - right. split; [apply lookup_remove_item|]. exists item. auto.
  - left. apply lookup_remove_item_other. exact Hne.
Qed.

Lemma forEach_swept keys : forall st,
  swept (clock st) st (snd (forEach keys StorageManager.removeIfOld st)).
Proof.
  induction keys as [|key keys IH]; intros st; [apply swept_refl|].
  cbn [forEach]. unfold bind.
  pose proof (removeIfOld_swept key st) as H1.
  destruct (StorageManager.removeIfOld key st) as [[[]|e] st1]; cbn [snd] in *;
    [|exact H1].
  eapply swept_trans; [exact H1|].
  assert (C : clock st1 = clock st) by (destruct H1 as (C & _); exact C).
  rewrite <- C. apply IH.
Qed.

Lemma sweep_swept st :
  swept (clock st) st (snd (StorageManager.clearOldCache st)).
Proof.
  unfold StorageManager.clearOldCache, try_catch, bind at 1, storage_keys.
  pose proof (forEach_swept (map fst (localStorage st)) st) as H.
  destruct (forEach (map fst (localStorage st)) StorageManager.removeIfOld st)
    as [[[]|e] st1]; exact H.
Qed.

Lemma verdict_prefix now key item :
  verdict now key item = Normal true -> prefix "die_" key = true.
Proof.
  unfold verdict. destruct (prefix "die_" key); [reflexivity|discriminate].
Qed.

(** X5. The sweep never throws and only removes: it sends no request,
    writes neither the cache nor a text, and leaves every stored item
    as it was except for items it removes, each of them an item it
    found older than a day. In particular a key outside the namespace
    is never touched, also when the sweep stops early. *)
Theorem sweep_only_removes_old st :
  let st' := snd (StorageManager.clearOldCache st) in
  fst (StorageManager.clearOldCache st) = Normal tt
  /\ swept (clock st) st st'
  /\ (forall k, prefix "die_" k = false ->
                lookup k (localStorage st') = lookup k (localStorage st))
  /\ (forall k item, lookup k (localStorage st') = Some item ->
                     lookup k (localStorage st) = Some item).
Proof.
  cbv zeta. pose proof (sweep_swept st) as H.
  split; [apply sweep_is_normal|]. split; [exact H|].
  destruct H as (_ & _ & _ & _ & _ & _ & _ & H). split.
  - intros k Hp. destruct (H k) as [E|(_ & item & _ & Hv)]; [exact E|].
    apply verdict_prefix in Hv. congruence.
  - intros k item Hk. destruct (H k) as [E|(E & _)]; congruence.
Qed.

Lemma verdict_young now key item parsed ts :
  prefix "die_" key = true ->
  item <> "" ->
  JSON.parse item = Normal parsed ->
  Get parsed "timestamp" = Normal (num ts) ->
  0 <= ts <= now -> now < 2 ^ 53 ->
  now - ts <= 86400000 ->
  verdict now key item = Normal false.
Proof.
  intros Hp Hne Hj Hts Hb Hs Hy. unfold verdict. rewrite Hp.
  cbn [ToBoolean]. destruct (String.eqb_spec item ""); [contradiction|].
  cbn [negb]. rewrite Hj. cbn [cbind]. rewrite Hts. cbn [cbind].
  rewrite age_of_integers by assumption. cbn [cbind].
  rewrite day_value. unfold js_gt, num. cbn [ToNumber cbind].
  unfold Number.gtb. change (SFltb ?a ?b) with (Number.ltb a b).
  rewrite ltb_of_Z by lia.
  destruct (Z.ltb_spec 86400000 (now - ts)); [lia|reflexivity].
Qed.

(** X6. The sweep keeps a namespaced record that is at most twenty-four
    hours old, a record of exactly twenty-four hours included (the
    test is age > 24 h), whatever else the storage holds. *)
Theorem sweep_keeps_day_old_record st key item parsed ts :
  lookup key (localStorage st) = Some item ->
  prefix "die_" key = true ->
  item <> "" ->
  JSON.parse item = Normal parsed ->
  Get parsed "timestamp" = Normal (num ts) ->
  0 <= ts <= clock st -> clock st < 2 ^ 53 ->
  clock st - ts <= 86400000 ->
  lookup key (localStorage (snd (StorageManager.clearOldCache st)))
  = Some item.
Proof.
  intros Hl Hp Hne Hj Hts Hb Hs Hy.
  destruct (sweep_swept st) as (_ & _ & _ & _ & _ & _ & _ & H).
  destruct (H key) as [E|(_ & item' & Hi & Hv)]; [congruence|].
  assert (item' = item) by congruence. subst item'.
  rewrite (verdict_young _ _ _ parsed ts) in Hv by assumption. discriminate.
Qed.

Lemma sweep_keeps_day_old_record_witness :
  lookup "die_day"
    (localStorage
       (snd (StorageManager.clearOldCache
               (Page.opened
                  [("die_old", Text.q "{'timestamp':1699910000000}");
                   ("die_day", Text.q "{'timestamp':1699913600000}")]
                  Page.t0))))
  = Some (Text.q "{'timestamp':1699913600000}").
Proof.
  eapply (sweep_keeps_day_old_record
            (Page.opened
               [("die_old", Text.q "{'timestamp':1699910000000}");
                ("die_day", Text.q "{'timestamp':1699913600000}")]
               Page.t0)
            "die_day" _ _ 1699913600000).
  - reflexivity.
  - reflexivity.
  - discriminate.
  - vm_compute. reflexivity.
  - vm_compute. reflexivity.
  - vm_compute. split; discriminate.
  - reflexivity.
  - vm_compute. discriminate.
Defined.

Lemma sweep_removes_stale_keys_witness :
  lookup "die_old"
    (localStorage
       (snd (StorageManager.clearOldCache
               (Page.opened
                  [("theme", "dark");
                   ("die_old", Text.q "{'timestamp':1699910000000}");
                   (CONFIG.CACHE_KEY, Page.record)] Page.t0))))
  = None.
Proof.
  destruct (sweep_removes_stale_keys
              (Page.opened
                 [("theme", "dark");
                  ("die_old", Text.q "{'timestamp':1699910000000}");
                  (CONFIG.CACHE_KEY, Page.record)] Page.t0)
              "die_old" (Text.q "{'timestamp':1699910000000}")
              (Obj [("timestamp", num 1699910000000)]) 1699910000000)
    as (st' & E & L).
  - repeat constructor; cbn; intuition discriminate.
  - intros k v [H|[H|[H|[]]]]; injection H as <- <-;
      eexists; vm_compute; reflexivity.
  - right. left. reflexivity.
  - reflexivity.
  - discriminate.
  - vm_compute. reflexivity.
  - reflexivity.
  - vm_compute. split; discriminate.
  - reflexivity.
  - reflexivity.
  - rewrite E. exact L.
Defined.

(** ** What rendering leaves alone *)

Lemma same_layout_refl ids d : same_layout ids d d.
Proof. intros id. destruct (lookup id d); auto. Qed.

Lemma same_layout_trans ids d1 d2 d3 :
  same_layout ids d1 d2 -> same_layout ids d2 d3 -> same_layout ids d1 d3.
Proof.
  intros H1 H2 id. specialize (H1 id). specialize (H2 id).
  destruct (lookup id d1), (lookup id d2), (lookup id d3);
    try contradiction; try exact I.
  destruct H1 as [R1 E1], H2 as [R2 E2]. split; [congruence|].
  intros N. rewrite (E2 N). apply E1. exact N.
Qed.

Lemma same_layout_set_text ids id text d :
  In id ids -> same_layout ids d (set_text id text d).
Proof.
  intros Hin id'. unfold set_text.
  destruct (lookup id d) as [el|] eqn:Hl; [|apply same_layout_refl].
  destruct (String.eqb_spec id' id) as [->|Hne].
  - rewrite Hl, lookup_set_item. split; [reflexivity|]. tauto.
  - rewrite lookup_set_item_other by exact Hne.
    destruct (lookup id' d); auto.
Qed.

Lemma writes_ret ids {A} (a : A) : writes_text_of ids (ret a).
Proof. intros st. apply same_layout_refl. Qed.

Lemma writes_lift ids {A} (c : completion A) : writes_text_of ids (lift c).
Proof. intros st. apply same_layout_refl. Qed.

Lemma writes_bind ids {A B} (m : M A) (k : A -> M B) :
  writes_text_of ids m -> (forall a, writes_text_of ids (k a)) ->
  writes_text_of ids (bind m k).
Proof.
  intros Hm Hk st. unfold bind. specialize (Hm st).
  destruct (m st) as [[a|e] st1]; cbn [snd] in *; [|exact Hm].
  eapply same_layout_trans; [exact Hm|apply Hk].
Qed.

Lemma writes_updateElement ids id text :
  In id ids -> writes_text_of ids (GitHubStats.updateElement id text).
Proof.
  intros Hin st. rewrite updateElement_write. cbn [snd]. unfold write.
  destruct (lookup id (document st)); [|apply same_layout_refl].
  cbn [document emit with_document]. apply same_layout_set_text. exact Hin.
Qed.

Lemma writes_animateNumber ids id v :
  writes_text_of ids (GitHubStats.animateNumber id v).
Proof.
  intros st. rewrite animateNumber_schedule. cbn [snd]. unfold schedule.
  destruct (lookup id (document st)); apply same_layout_refl.
Qed.

Lemma writes_updateFormatted ids id name :
  In id ids -> writes_text_of ids (GitHubStats.updateFormatted id name).
Proof.
  intros Hin. unfold GitHubStats.updateFormatted, GitHubStats.stat.
  repeat first
    [ apply writes_updateElement; exact Hin
    | apply writes_lift
    | apply writes_bind; [|intro]
    | solve [intros st; apply same_layout_refl] ].
Qed.

Lemma writes_updateDOM : writes_text_of slot_ids GitHubStats.updateDOM.
Proof.
  assert (I1 : In "github-stars" slot_ids) by (cbn; tauto).
  assert (I2 : In "github-forks" slot_ids) by (cbn; tauto).
  assert (I3 : In "detailed-stars" slot_ids) by (cbn; tauto).
  assert (I4 : In "detailed-forks" slot_ids) by (cbn; tauto).
  assert (I5 : In "detailed-watchers" slot_ids) by (cbn; tauto).
  assert (I6 : In "detailed-issues" slot_ids) by (cbn; tauto).
  unfold GitHubStats.updateDOM, GitHubStats.stat.
  repeat first
    [ apply writes_updateFormatted; assumption
    | apply writes_updateElement; assumption
    | apply writes_animateNumber
    | apply writes_lift
    | apply writes_ret
    | apply writes_bind; [|intro]
    | match goal with
      | |- writes_text_of _ (match ?x with _ => _ end) => destruct x
      | |- writes_text_of _ (if ?b then _ else _) => destruct b
      end
    | solve [intros st; apply same_layout_refl] ].
Qed.

(** X8. Rendering changes nothing but the text of the six stat slots,
    whatever snapshot is held and also when it throws midway: the
    storage, the clock and the window are as they were, no request is
    sent, no element appears or disappears or changes its rectangle,
    and an element that is not one of the six slots is as it was. *)
Theorem rendering_touches_six_slots st :
  let st' := snd (GitHubStats.updateDOM st) in
  same_store st st'
  /\ same_layout slot_ids (document st) (document st')
  /\ (forall id, ~ In id slot_ids ->
                 lookup id (document st') = lookup id (document st))
  /\ (forall id, lookup id (document st') = None
                 <-> lookup id (document st) = None).
Proof.
  cbv zeta. pose proof (writes_updateDOM st) as H.
  split; [apply display_updateDOM|]. split; [exact H|]. split.
  - intros id Hn. specialize (H id).
    destruct (lookup id (document st)),
      (lookup id (document (snd (GitHubStats.updateDOM st))));
      try contradiction; [|reflexivity].
    destruct H as [_ E]. rewrite (E Hn). reflexivity.
  - intros id. specialize (H id).
    destruct (lookup id (document st)),
      (lookup id (document (snd (GitHubStats.updateDOM st))));
      try contradiction; split; intros; congruence.
Qed.

(** ** Formatting what is not a count *)

Lemma ltb_not_geb (x y : Number.number) :
  Number.ltb x y = true -> Number.geb x y = false.
Proof.
  unfold Number.ltb, Number.geb, SFltb, SFleb. rewrite (SFcompare_swap x y).
  destruct (SFcompare x y) as [[]|]; cbn; congruence.
Qed.

(** X9. [formatNumber] outside the counts it is meant for. It throws a
    TypeError on undefined and on null, and on no Number, string or
    boolean. A Number below 1000, a negative one of any size included,
    is written in full; NaN gives NaN; Infinity gives Infinityk. *)
Theorem formatNumber_edge_cases :
  Utils.formatNumber Undefined = Throw TypeError
  /\ Utils.formatNumber Null = Throw TypeError
  /\ (forall x, exists text, Utils.formatNumber (Num x) = Normal text)
  /\ (forall s, exists text, Utils.formatNumber (Str s) = Normal text)
  /\ (forall b, exists text, Utils.formatNumber (Bool b) = Normal text)
  /\ (forall x, Number.ltb x (Number.of_Z 1000) = true ->
                Utils.formatNumber (Num x) = Normal (Number.toString x))
  /\ Utils.formatNumber (Num Number.NaN) = Normal "NaN"
  /\ Utils.formatNumber (Num Number.Infinity) = Normal "Infinityk"
  /\ Utils.formatNumber (Num Number.neg_Infinity) = Normal "-Infinity"
  /\ Utils.formatNumber (num (-5000)) = Normal "-5000".
Proof.
  split; [reflexivity|]. split; [reflexivity|].
  split; [intros x; rewrite formatNumber_Num; eauto|].
  split.
  { intros s. unfold Utils.formatNumber, js_ge, js_div.
    cbn [ToNumber cbind call_toString ToString].
    unfold num. cbn [ToNumber cbind].
    match goal with |- context [if ?b then _ else _] => destruct b end;
      eauto. }
  split.
  { intros [|]; vm_compute; eauto. }
  split.
  { intros x Hx. rewrite formatNumber_Num. unfold abbreviate.
    rewrite (ltb_not_geb _ _ Hx). reflexivity. }
  repeat split; vm_compute; reflexivity.
Qed.

(** ** Debounced functions *)

Section DebounceFacts.

Import Timers.

Variables A S : Type.
Variable func : A -> S -> completion unit * S.
Variable wait : option Z.

Local Abbreviation gap := (Z.max 0 (Debounce.delay wait)).

(** After a call exactly one timer waits: the one of this call. *)
Lemma debounce_call t args w :
  Debounce.consistent gap w ->
  let now := Z.max (time (Debounce.loop w)) t in
  let w' := Debounce.step func wait w (Call t args) in
  pending (Debounce.loop w')
  = [{| handle := next_handle (Debounce.loop w); due := now + gap;
        task := args |}]
  /\ time (Debounce.loop w') = now
  /\ Debounce.timeout w' = Some (next_handle (Debounce.loop w))
  /\ Debounce.user w' = Debounce.user w
  /\ Debounce.log w' = Called now args :: Debounce.log w.
Proof.
  destruct w as [[now0 pend nh] to u lg]. unfold Debounce.consistent.
  cbn [Debounce.loop Debounce.log Debounce.timeout pending].
  intros (_ & Hp). cbv zeta.
  unfold Debounce.step, Debounce.debounce, Debounce.executedFunction.
  cbn [Debounce.loop Debounce.log Debounce.timeout Debounce.user at_time
       time pending next_handle].
  destruct pend as [|x [|y r]]; [| |contradiction].
  - destruct to; cbn; repeat split.
  - destruct Hp as (-> & _). cbn. rewrite Z.eqb_refl. cbn. repeat split.
Qed.

Lemma debounce_step w i :
  Debounce.consistent gap w ->
  Debounce.consistent gap (Debounce.step func wait w i).
Proof.
  intros Hc. destruct i as [t args|t|t change].
  - destruct (debounce_call t args w Hc) as (P & T & TO & U & L).
    unfold Debounce.consistent. rewrite P, TO, L.
    destruct Hc as (Hs & _). split; [exact Hs|].
    cbn [handle task due]. split; [reflexivity|]. eauto.
  - destruct w as [[now0 pend nh] to u lg]. destruct Hc as (Hs & Hp).
    cbn [Debounce.loop Debounce.log Debounce.timeout pending] in Hs, Hp.
    unfold Debounce.step, take_due.
    cbn [Debounce.loop Debounce.log Debounce.timeout Debounce.user at_time
         time pending next_handle].
    destruct pend as [|x [|y r]]; [| |contradiction].
    + split; [exact Hs|exact I].
    + destruct Hp as (-> & t0 & r & -> & Hd). cbn [earliest].
      destruct (Z.leb_spec (due x) (Z.max now0 t)) as [Hle|Hgt].
      * unfold Debounce.later.
        cbn [Debounce.loop Debounce.log Debounce.timeout Debounce.user].
        destruct (func (task x) u) as [c s1].
        unfold Debounce.consistent.
        cbn [Debounce.loop Debounce.log Debounce.timeout clearTimeout
             pending time without filter handle].
        rewrite Z.eqb_refl. cbn [negb filter].
        split; [|exact I]. cbn [Debounce.served_latest].
        split; [split; [reflexivity|lia]|exact Hs].
      * split; [exact Hs|]. cbn. split; [reflexivity|]. eauto.
  - destruct Hc as (Hs & Hp). split; [exact Hs|exact Hp].
Qed.

Lemma debounce_run inputs : forall w,
  Debounce.consistent gap w ->
  Debounce.consistent gap (Debounce.run func wait inputs w).
Proof.
  induction inputs as [|i inputs IH]; intros w Hc; [exact Hc|].
  cbn [Debounce.run fold_left]. apply IH, debounce_step, Hc.
Qed.

Lemma debounce_start t (s : S) :
  Debounce.consistent gap (@Debounce.start A S t s).
Proof. split; exact I. Qed.

End DebounceFacts.


Lemma debounce_tick A S
  (func : A -> S -> completion unit * S) wait inputs w0 t1 args t :
  Debounce.consistent (Z.max 0 (Debounce.delay wait)) w0 ->
  let w := Debounce.run func wait (inputs ++ [Timers.Call t1 args]) w0 in
  let w' := Debounce.step func wait w (Timers.Tick t) in
  let called := Timers.time (Debounce.loop w) in
  let now := Z.max called t in
  (called + Z.max 0 (Debounce.delay wait) <= now ->
   Debounce.log w'
   = Timers.Ran now args (Timers.threw (fst (func args (Debounce.user w))))
       :: Debounce.log w
   /\ Debounce.user w' = snd (func args (Debounce.user w))
   /\ Timers.pending (Debounce.loop w') = [])
  /\ (now < called + Z.max 0 (Debounce.delay wait) ->
      Debounce.log w' = Debounce.log w
      /\ Debounce.user w' = Debounce.user w
      /\ Timers.pending (Debounce.loop w') = Timers.pending (Debounce.loop w)).
Proof.
  intros Hc0. cbv zeta. unfold Debounce.run. rewrite fold_left_app.
  cbn [fold_left]. fold (Debounce.run func wait inputs w0).
  pose proof (debounce_run A S func wait inputs _ Hc0) as Hc.
  clear Hc0. revert Hc.
  generalize (Debounce.run func wait inputs w0). clear w0. intros w0 Hc.
  destruct (debounce_call A S func wait t1 args w0 Hc) as (P & T & TO & U & L).
  set (w := Debounce.step func wait w0 (Timers.Call t1 args)) in *.
  destruct w as [[now pend nh] to u lg].
  cbn [Debounce.loop Debounce.log Debounce.timeout Debounce.user
       Timers.pending Timers.time] in *.
  subst pend to. unfold Debounce.step, Timers.take_due.
  cbn [Debounce.loop Debounce.log Debounce.timeout Debounce.user
       Timers.at_time Timers.time Timers.pending Timers.next_handle
       Timers.earliest Timers.due Timers.handle Timers.task].
  rewrite T. split; intros H.
  - destruct (Z.leb_spec (Z.max (Timers.time (Debounce.loop w0)) t1
                          + Z.max 0 (Debounce.delay wait))
                (Z.max (Z.max (Timers.time (Debounce.loop w0)) t1) t));
      [|lia].
    unfold Debounce.later.
    cbn [Debounce.loop Debounce.log Debounce.timeout Debounce.user
         Timers.task].
    destruct (func args u) as [c s1].
    cbn [Debounce.loop Debounce.log Debounce.user Timers.clearTimeout
         Timers.pending Timers.time Timers.without filter Timers.handle
         fst snd].
    rewrite Z.eqb_refl. cbn [negb filter].
    repeat split.
  - destruct (Z.leb_spec (Z.max (Timers.time (Debounce.loop w0)) t1
                          + Z.max 0 (Debounce.delay wait))
                (Z.max (Z.max (Timers.time (Debounce.loop w0)) t1) t));
      [lia|].
    repeat split.
Qed.


(** ** Throttled functions *)

Section ThrottleFacts.

Import Timers.

Variables A S : Type.
Variable func : A -> S -> completion unit * S.
Variable limit : option Z.

Local Abbreviation gap := (Z.max 0 (Throttle.delay limit)).




End ThrottleFacts.



(** ** The navbar *)

Lemma debounce_user_invariant A S (func : A -> S -> completion unit * S)
  wait (P : S -> Prop) inputs : forall w,
  P (Debounce.user w) ->
  (forall a s, P s -> P (snd (func a s))) ->
  (forall t change, In (Timers.Env t change) inputs ->
                    forall s, P s -> P (change s)) ->
  P (Debounce.user (Debounce.run func wait inputs w)).
Proof.
  induction inputs as [|i inputs IH]; intros w Hw Hf He; [exact Hw|].
  cbn [Debounce.run fold_left]. apply IH; [|exact Hf|].
  - destruct i as [t args|t|t change].
    + unfold Debounce.step, Debounce.debounce, Debounce.executedFunction.
      cbn. exact Hw.
    + unfold Debounce.step.
      destruct (Timers.take_due _) as [[tm lp]|]; [|exact Hw].
      unfold Debounce.later. cbn [Debounce.user].
      specialize (Hf (Timers.task tm) (Debounce.user w) Hw).
      destruct (func (Timers.task tm) (Debounce.user w)) as [c s1].
      exact Hf.
    + cbn. apply (He t change); [left; reflexivity|exact Hw].
  - intros t change Hin. apply (He t change). right. exact Hin.
Qed.

Lemma updateNavbar_flag p :
  NavbarScroll.scrolled (NavbarScroll.updateNavbar p)
  = Number.gtb (NavbarScroll.pageYOffset p) (Number.of_Z 50).
Proof.
  destruct p as [y st flag n]. unfold NavbarScroll.updateNavbar. cbn.
  destruct (Number.gtb _ _), flag; reflexivity.
Qed.

Lemma updateNavbar_styled first p :
  NavbarScroll.styled first p ->
  NavbarScroll.styled first (NavbarScroll.updateNavbar p).
Proof.
  destruct p as [y st flag n].
  unfold NavbarScroll.updateNavbar, NavbarScroll.styled. cbn.
  destruct (Number.gtb _ _), flag; cbn; auto.
Qed.

Lemma scroll_changes_offset t change hs t1 y :
  In (Timers.Env t change)
    (NavbarScroll.inputs_of hs ++ NavbarScroll.scroll t1 y) ->
  exists y', forall p,
    change p
    = {| NavbarScroll.pageYOffset := y';
         NavbarScroll.navbar := NavbarScroll.navbar p;
         NavbarScroll.scrolled := NavbarScroll.scrolled p;
         NavbarScroll.style_writes := NavbarScroll.style_writes p |}.
Proof.
  rewrite in_app_iff. intros [Hin|Hin].
  - unfold NavbarScroll.inputs_of in Hin. apply in_flat_map in Hin.
    destruct Hin as ([t' y'|t'] & _ & Hin); cbn in Hin.
    + destruct Hin as [E|[E|[]]]; [|discriminate E].
      injection E as _ <-. exists y'. reflexivity.
    + destruct Hin as [E|[]]. discriminate E.
  - cbn in Hin. destruct Hin as [E|[E|[]]]; [|discriminate E].
    injection E as _ <-. exists y. reflexivity.
Qed.

(** X14. The navbar follows the last scroll. After any scrolling, a
    scroll to the offset y, and the loop running timers 10 ms or more
    after it, [scrolled] is set exactly when y > 50 (so not at 50
    itself), the navbar is dark when it is set and cleared, or as it
    was at first, when it is not, and no timer is left. A loop that
    runs timers earlier leaves the navbar as it is. *)
Theorem navbar_follows_the_last_scroll first t0 y0 happenings t1 y t :
  let w0 :=
    Debounce.start t0
      (NavbarScroll.updateNavbar
         {| NavbarScroll.pageYOffset := y0; NavbarScroll.navbar := first;
            NavbarScroll.scrolled := false;
            NavbarScroll.style_writes := 0 |}) in
  let w :=
    Debounce.run NavbarScroll.handler (Some 10)
      (NavbarScroll.inputs_of happenings ++ NavbarScroll.scroll t1 y) w0 in
  let w' := Debounce.step NavbarScroll.handler (Some 10) w (Timers.Tick t) in
  let called := Timers.time (Debounce.loop w) in
  NavbarScroll.new (Some first) t0 y0 = Some w0
  /\ (called + 10 <= Z.max called t ->
      NavbarScroll.scrolled (Debounce.user w')
      = Number.gtb y (Number.of_Z 50)
      /\ NavbarScroll.styled first (Debounce.user w')
      /\ Timers.pending (Debounce.loop w') = [])
  /\ (Z.max called t < called + 10 -> Debounce.user w' = Debounce.user w).
Proof.
  cbv zeta. split; [reflexivity|].
  set (p0 := NavbarScroll.updateNavbar _).
  assert (C0 : Debounce.consistent (Z.max 0 (Debounce.delay (Some 10)))
                 (@Debounce.start unit NavbarScroll.page t0 p0))
    by apply debounce_start.
  assert (St : NavbarScroll.styled first
                 (Debounce.user
                    (Debounce.run NavbarScroll.handler (Some 10)
                       (NavbarScroll.inputs_of happenings
                        ++ NavbarScroll.scroll t1 y)
                       (Debounce.start t0 p0)))).
  { apply (debounce_user_invariant unit NavbarScroll.page
             NavbarScroll.handler (Some 10) (NavbarScroll.styled first)).
    - apply updateNavbar_styled. right. reflexivity.
    - intros a s. apply updateNavbar_styled.
    - intros t' change Hin s Hs.
      destruct (scroll_changes_offset _ _ _ _ _ Hin) as [y' E].
      rewrite E. exact Hs. }
  assert (Off : NavbarScroll.pageYOffset
                  (Debounce.user
                     (Debounce.run NavbarScroll.handler (Some 10)
                        (NavbarScroll.inputs_of happenings
                         ++ NavbarScroll.scroll t1 y)
                        (Debounce.start t0 p0))) = y).
  { unfold Debounce.run, NavbarScroll.scroll. rewrite fold_left_app.
    reflexivity. }
  unfold NavbarScroll.scroll in *.
  change (NavbarScroll.inputs_of happenings ++ [?e; ?c])%list
    with (NavbarScroll.inputs_of happenings ++ [e] ++ [c])%list in *.
  rewrite app_assoc in *.
  match goal with
  | |- context [Debounce.run _ _ (?xs ++ [Timers.Call t1 tt])%list _] =>
      destruct (debounce_tick unit NavbarScroll.page NavbarScroll.handler
                  (Some 10) xs (Debounce.start t0 p0) t1 tt t C0)
        as [Late Early]
  end.
  cbn [Debounce.delay] in Late, Early.
  change (Z.max 0 10) with 10 in Late, Early.
  split.
  - intros H. destruct (Late H) as (_ & U & P). rewrite U, P.
    cbn [NavbarScroll.handler snd].
    rewrite updateNavbar_flag, Off.
    split; [reflexivity|]. split; [|reflexivity].
    apply updateNavbar_styled. exact St.
  - intros H. destruct (Early H) as (_ & U & _). exact U.
Qed.

(** ** The count-up animation *)


Section AnimationFacts.

Variable pow : Number.number -> Number.number -> Number.number.
Variables (id : string) (startTime : Number.number).




End AnimationFacts.



Section UndefinedTarget.

Variable pow : Number.number -> Number.number -> Number.number.
Variables (id : string) (startTime : Number.number).



End UndefinedTarget.



(** ** Decimal digits, written and read back *)

Lemma uint_value_acc d : forall acc,
  Zpos (Pos.of_uint_acc d acc) = uint_value d (Zpos acc).
Proof.
  induction d; intros acc; cbn [Pos.of_uint_acc uint_value];
    try reflexivity; rewrite IHd; f_equal; lia.
Qed.

Lemma uint_value_of_uint d : Z.of_N (Pos.of_uint d) = uint_value d 0.
Proof.
  induction d; cbn [Pos.of_uint uint_value]; try reflexivity;
    try exact IHd; cbn [Z.of_N]; rewrite uint_value_acc; reflexivity.
Qed.

Lemma uint_value_to_uint n : uint_value (N.to_uint n) 0 = Z.of_N n.
Proof.
  rewrite <- uint_value_of_uint.
  change (Pos.of_uint (N.to_uint n)) with (N.of_uint (N.to_uint n)).
  rewrite DecimalN.Unsigned.of_to. reflexivity.
Qed.

Lemma read_digits_uint d : forall rest acc cnt,
  Text.read_digits 10 (NilEmpty.string_of_uint d ++ rest) acc cnt
  = Text.read_digits 10 rest (uint_value d acc)
      (cnt + Z.of_nat (Decimal.nb_digits d)).
Proof.
  induction d; intros rest acc cnt;
    cbn [NilEmpty.string_of_uint String.append uint_value Decimal.nb_digits];
    [rewrite Z.add_0_r; reflexivity|..];
    (cbn [Text.read_digits];
     match goal with
     | |- context [Text.digit_in 10 ?c] =>
         let v := eval vm_compute in (Text.digit_in 10 c) in
         change (Text.digit_in 10 c) with v
     end;
     cbv iota; rewrite IHd; f_equal; lia).
Qed.

Lemma to_uint_not_nil n : N.to_uint n <> Decimal.Nil.
Proof.
  destruct n as [|p]; [discriminate|].
  apply DecimalPos.Unsigned.to_uint_nonnil.
Qed.

Lemma decimal_string n :
  Number.decimal n = NilEmpty.string_of_uint (N.to_uint (Z.to_N n)).
Proof.
  unfold Number.decimal, NilZero.string_of_uint.
  pose proof (to_uint_not_nil (Z.to_N n)) as H.
  destruct (N.to_uint (Z.to_N n)); [contradiction|reflexivity..].
Qed.

Lemma read_digits_stop rest acc cnt :
  no_digit_ahead rest -> Text.read_digits 10 rest acc cnt = (acc, cnt, rest).
Proof.
  destruct rest as [|c r]; cbn [no_digit_ahead Text.read_digits];
    [reflexivity|]. intros ->. reflexivity.
Qed.

(** The digits of n, followed by something else, read back as n. *)
Lemma read_decimal n rest :
  0 <= n -> no_digit_ahead rest ->
  Text.read_digits 10 (Number.decimal n ++ rest) 0 0
  = (n, Z.of_nat (Decimal.nb_digits (N.to_uint (Z.to_N n))), rest).
Proof.
  intros Hn Hr. rewrite decimal_string, read_digits_uint.
  rewrite read_digits_stop by exact Hr.
  rewrite uint_value_to_uint, Z2N.id by exact Hn. reflexivity.
Qed.

Lemma to_uint_lead p :
  match Pos.to_uint p with
  | Decimal.Nil | Decimal.D0 _ => False
  | _ => True
  end.
Proof.
  pose proof (DecimalN.Unsigned.to_of (Pos.to_uint p)) as H.
  change (N.of_uint (Pos.to_uint p)) with (Pos.of_uint (Pos.to_uint p)) in H.
  rewrite DecimalPos.Unsigned.of_to in H. cbn [N.to_uint] in H.
  pose proof (DecimalPos.Unsigned.to_uint_nonzero p) as Hz.
  pose proof (DecimalPos.Unsigned.to_uint_nonnil p) as Hn.
  unfold Decimal.unorm in H.
  destruct (Decimal.nzhead (Pos.to_uint p)) eqn:E;
    try (rewrite H; exact I).
  - rewrite H in Hz. contradiction.
  - exfalso. exact (DecimalFacts.nzhead_nonzero _ _ E).
Qed.

(** The digits of n start with a digit, which is 0 only for n = 0. *)
Lemma decimal_head n :
  0 <= n ->
  exists c r,
    Number.decimal n = String c r
    /\ 48 <= Text.code c <= 57
    /\ (Text.code c = 48 -> r = "").
Proof.
  intros Hn. rewrite decimal_string.
  destruct (Z.to_N n) as [|p]; cbn [N.to_uint].
  - exists "0"%char, "". repeat split; vm_compute; congruence.
  - pose proof (to_uint_lead p) as H.
    destruct (Pos.to_uint p); try contradiction;
      cbn [NilEmpty.string_of_uint]; eexists; eexists;
      (split; [reflexivity|]); vm_compute; repeat split; congruence.
Qed.

Lemma uint_shift_value d j : forall acc,
  uint_value (uint_shift d j) acc = uint_value d acc * 10 ^ Z.of_nat j.
Proof.
  induction d; intros acc; cbn [uint_shift uint_value]; try apply IHd.
  revert acc. induction j as [|j IH]; intros acc.
  - cbn. lia.
  - change (Nat.iter (S j) Decimal.D0 Decimal.Nil)
      with (Decimal.D0 (Nat.iter j Decimal.D0 Decimal.Nil)).
    cbn [uint_value]. rewrite IH, Nat2Z.inj_succ, Z.pow_succ_r by lia.
    lia.
Qed.

Lemma uint_shift_string d j :
  NilEmpty.string_of_uint (uint_shift d j)
  = (NilEmpty.string_of_uint d ++ Number.zeros j)%string.
Proof.
  induction d; cbn [uint_shift NilEmpty.string_of_uint String.append];
    try (rewrite IHd; reflexivity).
  induction j as [|j IH]; [reflexivity|].
  change (Nat.iter (S j) Decimal.D0 Decimal.Nil)
    with (Decimal.D0 (Nat.iter j Decimal.D0 Decimal.Nil)).
  cbn [NilEmpty.string_of_uint Number.zeros]. rewrite IH.
  reflexivity.
Qed.

(** Appending j zeros to the digits of s gives the digits of s * 10^j. *)
Lemma decimal_shift s j :
  0 < s ->
  Number.decimal (s * 10 ^ Z.of_nat j)
  = (Number.decimal s ++ Number.zeros j)%string.
Proof.
  intros Hs. rewrite !decimal_string, <- uint_shift_string. f_equal.
  destruct (Z.to_N s) as [|p] eqn:Ep; [lia|]. cbn [N.to_uint].
  assert (V : N.of_uint (uint_shift (Pos.to_uint p) j)
              = Z.to_N (s * 10 ^ Z.of_nat j)).
  { apply N2Z.inj. unfold N.of_uint.
    rewrite uint_value_of_uint, uint_shift_value.
    change (Pos.to_uint p) with (N.to_uint (Npos p)).
    rewrite uint_value_to_uint, <- Ep, !Z2N.id; [reflexivity| |lia].
    apply Z.mul_nonneg_nonneg; [lia|]. apply Z.pow_nonneg. lia. }
  rewrite <- V, DecimalN.Unsigned.to_of.
  pose proof (to_uint_lead p) as H.
  destruct (Pos.to_uint p); try contradiction; reflexivity.
Qed.

(** ** The Number of a decimal integer literal *)

Lemma eqb_eq (x y : Number.number) : Number.eqb x y = true -> x = y.
Proof.
  destruct x as [a|a| |a m e], y as [b|b| |b m' e']; cbn [Number.eqb];
    try discriminate; try reflexivity.
  - intros H. apply Bool.eqb_prop in H. congruence.
  - intros H. apply Bool.eqb_prop in H. congruence.
  - intros H. apply andb_prop in H. destruct H as [H He].
    apply andb_prop in H. destruct H as [Hs Hm].
    apply Bool.eqb_prop in Hs. apply Pos.eqb_eq in Hm.
    apply Z.eqb_eq in He. congruence.
Qed.

Lemma eqb_same (x : Number.number) : x <> Number.NaN -> Number.eqb x x = true.
Proof.
  destruct x as [a|a| |a m e]; cbn [Number.eqb]; intros H.
  - apply Bool.eqb_reflx.
  - apply Bool.eqb_reflx.
  - reflexivity.
  - rewrite Bool.eqb_reflx, Pos.eqb_refl, Z.eqb_refl. reflexivity.
Qed.

Lemma of_Z_inj x y :
  0 <= x < 2 ^ 53 -> 0 <= y < 2 ^ 53 ->
  Number.of_Z x = Number.of_Z y -> x = y.
Proof.
  intros Hx Hy E. pose proof (compare_of_Z x y Hx Hy) as C.
  rewrite E, compare_of_Z in C by assumption.
  injection C as C. rewrite Z.compare_refl in C.
  apply Z.compare_eq. symmetry. exact C.
Qed.

(** An even mantissa of 54 bits, exact, is halved. *)
Lemma round_aux_54_even h e :
  2 ^ 52 <= Zpos h < 2 ^ 53 -> -1075 <= e <= 969 ->
  binary_round_aux Number.prec Number.emax false (2 * Zpos h) e loc_Exact
  = S754_finite false h (e + 1).
Proof.
  intros Hh He.
  destruct (round_aux_54 (2 * Zpos h) e loc_Exact ltac:(lia) He)
    as (mz & ez & E & V & B & N).
  rewrite E.
  assert (P : Zpos mz * 2 ^ (ez - e) = 2 * (Zpos mz * 2 ^ (ez - (e + 1)))).
  { replace (ez - e) with (ez - (e + 1) + 1) by lia.
    rewrite Z.pow_add_r by lia. change (2 ^ 1) with 2. lia. }
  assert (V' : Zpos mz * 2 ^ (ez - (e + 1)) = Zpos h)
    by (rewrite P in V; lia).
  assert (ez = e + 1).
  { destruct (Z.eq_dec ez (e + 1)) as [|Ne]; [assumption|].
    replace (ez - (e + 1)) with 1 in V' by lia. change (2 ^ 1) with 2 in V'.
    lia. }
  subst ez. replace (e + 1 - (e + 1)) with 0 in V' by lia.
  change (2 ^ 0) with 1 in V'. f_equal. lia.
Qed.

Lemma div_eucl_1 a : Z.div_eucl a 1 = (a, 0).
Proof.
  generalize (Z_div_mod a 1 ltac:(lia)).
  destruct (Z.div_eucl a 1) as [q r]. intros [H1 H2]. f_equal; lia.
Qed.

Lemma Zdigits2_bounds p k :
  0 < p < 2 ^ k -> 0 <= k -> 1 <= Zdigits2 p <= k.
Proof.
  intros Hp Hk. destruct p as [|q|q]; try lia. cbn [Zdigits2].
  pose proof (digits2_pos_bounds q) as Hb. split; [lia|].
  destruct (Z.le_gt_cases (Zpos (digits2_pos q)) k) as [|G]; [assumption|].
  assert (2 ^ k <= 2 ^ (Zpos (digits2_pos q) - 1))
    by (apply Z.pow_le_mono_r; lia). lia.
Qed.

Lemma div_core_1 p :
  0 < p < 2 ^ 54 ->
  SFdiv_core_binary Number.prec Number.emax p 0 1 0
  = (p * 2 ^ (54 - Zdigits2 p), Zdigits2 p - 54, loc_Exact).
Proof.
  intros Hp. unfold SFdiv_core_binary.
  pose proof (Zdigits2_bounds p 54 Hp ltac:(lia)) as Hd.
  change (Zdigits2 1) with 1.
  replace (Z.min (fexp Number.prec Number.emax (Zdigits2 p + 0 - (1 + 0)))
             (0 - 0)) with (Zdigits2 p - 54)
    by (unfold fexp, emin, Number.prec, Number.emax; lia).
  destruct (0 - 0 - (Zdigits2 p - 54)) as [|k|k] eqn:Ek; try lia.
  - replace (54 - Zdigits2 p) with 0 by lia. rewrite Z.mul_1_r.
    rewrite div_eucl_1. reflexivity.
  - rewrite Z.shiftl_mul_pow2 by lia. rewrite div_eucl_1.
    replace (54 - Zdigits2 p) with (Zpos k) by lia. reflexivity.
Qed.

(** Below 2^53 an integer literal is the Number of the integer. *)
Lemma of_ratio_int p :
  0 < p < 2 ^ 53 -> Number.of_ratio false p 1 = Number.of_Z p.
Proof.
  intros Hp. unfold Number.of_ratio. destruct p as [|q|q]; try lia.
  rewrite div_core_1 by lia.
  pose proof (Zdigits2_bounds (Zpos q) 53 Hp ltac:(lia)) as Hd.
  set (d := Zdigits2 (Zpos q)) in *.
  assert (Hb : 2 ^ (d - 1) <= Zpos q < 2 ^ d)
    by (unfold d; cbn [Zdigits2]; apply digits2_pos_bounds).
  assert (Hp1 : 2 ^ (d - 1) * 2 ^ (53 - d) = 2 ^ 52)
    by (rewrite <- Z.pow_add_r by lia; f_equal; lia).
  assert (Hp2 : 2 ^ d * 2 ^ (53 - d) = 2 ^ 53)
    by (rewrite <- Z.pow_add_r by lia; f_equal; lia).
  assert (Hpos : 0 < 2 ^ (53 - d)) by (apply Z.pow_pos_nonneg; lia).
  assert (H54 : 2 ^ (54 - d) = 2 * 2 ^ (53 - d)).
  { replace (54 - d) with (53 - d + 1) by lia.
    rewrite Z.pow_add_r by lia. change (2 ^ 1) with 2. lia. }
  assert (Hh : exists h, Zpos h = Zpos q * 2 ^ (53 - d)).
  { destruct (Zpos q * 2 ^ (53 - d)) as [|h|h] eqn:Eh; try nia.
    exists h. reflexivity. }
  destruct Hh as [h Hh].
  replace (Zpos q * 2 ^ (54 - d)) with (2 * Zpos h) by (rewrite H54; lia).
  rewrite round_aux_54_even by (try nia; lia).
  destruct (of_Z_normal (Zpos q) Hp) as (m & e & E & Hm & He & Bm).
  rewrite E.
  destruct (exponent_unique (Zpos q) h (d - 53) m e) as [-> <-];
    try lia; try nia.
  - replace (- (d - 53)) with (53 - d) by lia. exact Hh.
  - f_equal. lia.
Qed.

(** From 2^53 on it has a positive exponent. *)
Lemma of_ratio_big p :
  2 ^ 53 <= p < 2 ^ 54 ->
  exists m e, Number.of_ratio false p 1 = S754_finite false m e /\ 1 <= e.
Proof.
  intros Hp. unfold Number.of_ratio. destruct p as [|q|q]; try lia.
  rewrite div_core_1 by lia.
  assert (Hd : Zdigits2 (Zpos q) = 54)
    by (apply Zdigits2_unique; [change (54 - 1) with 53|]; lia).
  rewrite Hd. change (54 - 54) with 0. rewrite Z.mul_1_r.
  destruct (round_aux_54 (Zpos q) 0 loc_Exact Hp ltac:(lia))
    as (mz & ez & E & _ & B & _).
  exists mz, ez. split; [exact E|lia].
Qed.

(** ** [Number::toString] of an integer below 2^53 *)

Lemma magnitude_of_Z n :
  0 < n < 2 ^ 53 ->
  exists m e den,
    Number.of_Z n = S754_finite false m e
    /\ 0 < den /\ Number.magnitude (Number.of_Z n) = (n * den, den).
Proof.
  intros Hn. destruct (of_Z_normal n Hn) as (m & e & E & Hm & He & Bm).
  exists m, e, (2 ^ (- e)). split; [exact E|].
  split; [apply Z.pow_pos_nonneg; lia|].
  rewrite E. unfold Number.magnitude.
  destruct (Z.leb_spec 0 e).
  - replace e with 0 by lia. cbn [Z.opp Z.pow]. rewrite Hm.
    replace e with 0 by lia. cbn [Z.opp Z.pow]. f_equal. lia.
  - rewrite Hm. reflexivity.
Qed.

Lemma find_scale_up_spec den num fuel : forall k,
  0 < den ->
  den * 10 ^ (k - 1) <= num < den * 10 ^ (k - 1 + Z.of_nat fuel) ->
  1 <= k ->
  let r := Number.find_scale_up fuel num den k in
  k <= r /\ den * 10 ^ (r - 1) <= num < den * 10 ^ r.
Proof.
  induction fuel as [|fuel IH]; intros k Hd Hb Hk; cbv zeta.
  - cbn [Z.of_nat] in Hb. rewrite Z.add_0_r in Hb. lia.
  - cbn [Number.find_scale_up].
    destruct (Z.ltb_spec num (den * 10 ^ k)) as [Hlt|Hge].
    + split; [lia|]. split; [apply Hb|exact Hlt].
    + destruct (IH (k + 1) Hd) as [H1 H2]; try lia.
      replace (k + 1 - 1) with k by lia. split; [exact Hge|].
      replace (k + Z.of_nat fuel) with (k - 1 + Z.of_nat (S fuel)) by lia.
      apply Hb.
Qed.

Lemma pow10_pos k : 0 <= k -> 0 < 10 ^ k.
Proof. intros H. apply Z.pow_pos_nonneg; lia. Qed.

(** The number of decimal digits of n, as toString finds it. *)
Lemma decimal_exponent_int n den :
  0 < n < 2 ^ 53 -> 0 < den ->
  let L := Number.decimal_exponent (n * den) den in
  1 <= L <= 16 /\ 10 ^ (L - 1) <= n < 10 ^ L.
Proof.
  intros Hn Hd. cbv zeta. unfold Number.decimal_exponent.
  destruct (Z.leb_spec den (n * den)) as [_|Hlt]; [|nia].
  destruct (find_scale_up_spec den (n * den) 400 1 Hd) as [H1 [H2 H3]];
    [|lia|].
  - change (1 - 1) with 0. change (10 ^ 0) with 1.
    split; [nia|].
    assert (2 ^ 53 <= 10 ^ (0 + Z.of_nat 400)).
    { transitivity (10 ^ 16); [vm_compute; discriminate|].
      apply Z.pow_le_mono_r; lia. }
    nia.
  - set (L := Number.find_scale_up 400 (n * den) den 1) in *.
    pose proof (pow10_pos (L - 1) ltac:(lia)) as P1.
    pose proof (pow10_pos L ltac:(lia)) as P2.
    assert (B : 10 ^ (L - 1) <= n < 10 ^ L) by nia.
    split; [|exact B]. split; [lia|].
    destruct (Z.le_gt_cases L 16) as [|G]; [assumption|].
    assert (10 ^ 16 <= 10 ^ (L - 1)) by (apply Z.pow_le_mono_r; lia).
    assert (2 ^ 53 < 10 ^ 16) by (vm_compute; reflexivity). lia.
Qed.

(** n is s * 10^j for an s that does not end in 0. *)
Lemma trailing_zeros n :
  0 < n -> exists s j, n = s * 10 ^ Z.of_nat j /\ 0 < s /\ s mod 10 <> 0.
Proof.
  intros Hn. assert (H0 : 0 <= n) by lia. revert Hn. pattern n.
  apply Z_lt_induction; [|exact H0].
  clear n H0. intros n IH Hn.
  destruct (Z.eq_dec (n mod 10) 0) as [E|N].
  - destruct (IH (n / 10)) as (s & j & Hs & Ps & Ms).
    + split; [apply Z.div_pos; lia|]. apply Z.div_lt; lia.
    + pose proof (Z.div_mod n 10 ltac:(lia)). lia.
    + exists s, (S j). rewrite Nat2Z.inj_succ, Z.pow_succ_r by lia.
      pose proof (Z.div_mod n 10 ltac:(lia)). split; [lia|auto].
  - exists n, O. cbn. split; [lia|auto].
Qed.

Lemma of_Z_finite n :
  0 < n < 2 ^ 53 ->
  exists m e, Number.of_Z n = S754_finite false m e /\ e <= 0.
Proof.
  intros Hn. destruct (of_Z_normal n Hn) as (m & e & E & _ & He & _).
  exists m, e. split; [exact E|lia].
Qed.

(** Which integers p, as decimal literals, denote the Number of n:
    only n itself, among those below 2n. *)
Lemma literal_of_int n p :
  0 < n < 2 ^ 53 -> 0 < p <= 2 * n ->
  Number.eqb (Number.of_ratio false p 1) (Number.of_Z n) = (p =? n).
Proof.
  intros Hn Hp. destruct (of_Z_finite n Hn) as (m & e & E & He).
  destruct (Z.eqb_spec p n) as [->|Hne].
  - rewrite of_ratio_int by exact Hn. apply eqb_same. rewrite E. discriminate.
  - destruct (Number.eqb _ _) eqn:Eq; [exfalso|reflexivity].
    apply eqb_eq in Eq. destruct (Z.lt_ge_cases p (2 ^ 53)) as [Hlt|Hge].
    + rewrite of_ratio_int in Eq by lia.
      apply of_Z_inj in Eq; lia.
    + destruct (of_ratio_big p) as (m' & e' & E' & He'); [lia|].
      rewrite E', E in Eq. injection Eq as _ Ee. lia.
Qed.

Section ToStringOfInteger.

Variables (n den L : Z).
Hypothesis n_range : 0 < n < 2 ^ 53.
Hypothesis den_pos : 0 < den.
Hypothesis L_pos : 1 <= L.
Hypothesis L_digits : 10 ^ (L - 1) <= n < 10 ^ L.

Lemma candidates_int k :
  1 <= k <= L ->
  Number.candidates (Number.of_Z n) (n * den) den L k
  = if n mod 10 ^ (L - k) =? 0 then Some (n / 10 ^ (L - k), L) else None.
Proof.
  intros Hk. unfold Number.candidates.
  pose proof (pow10_pos (L - k) ltac:(lia)) as PE.
  pose proof (pow10_pos (k - 1) ltac:(lia)) as PK.
  assert (PL : 10 ^ (L - k) * 10 ^ (k - 1) = 10 ^ (L - 1))
    by (rewrite <- Z.pow_add_r by lia; f_equal; lia).
  assert (PL' : 10 ^ (L - k) * 10 ^ k = 10 ^ L)
    by (rewrite <- Z.pow_add_r by lia; f_equal; lia).
  assert (Hq : (if 0 <=? k - L then n * den * 10 ^ (k - L) else n * den)
               / (if 0 <=? k - L then den else den * 10 ^ (L - k))
               = n / 10 ^ (L - k)).
  { destruct (Z.leb_spec 0 (k - L)).
    - replace (k - L) with 0 by lia. replace (L - k) with 0 by lia.
      change (10 ^ 0) with 1. rewrite Z.mul_1_r, Z.div_1_r.
      apply Z.div_mul; lia.
    - rewrite (Z.mul_comm n den). apply Z.div_mul_cancel_l; lia. }
  rewrite Hq. set (lo := n / 10 ^ (L - k)).
  pose proof (Z.div_mod n (10 ^ (L - k)) ltac:(lia)) as DM.
  pose proof (Z.mod_pos_bound n (10 ^ (L - k)) PE) as MB.
  fold lo in DM.
  assert (Hlo : 10 ^ (k - 1) <= lo < 10 ^ k) by (unfold lo; nia).
  unfold Number.of_decimal.
  destruct (Z.leb_spec 0 (L - k)) as [_|]; [|lia].
  rewrite !literal_of_int by nia.
  destruct (Z.leb_spec (10 ^ (k - 1)) lo) as [_|]; [|lia].
  replace ((lo + 1) * 10 ^ (L - k) =? n) with false
    by (symmetry; apply Z.eqb_neq; nia).
  rewrite andb_false_r. cbn [andb].
  destruct (Z.eqb_spec (n mod 10 ^ (L - k)) 0) as [E0|N0].
  - replace (lo * 10 ^ (L - k) =? n) with true
      by (symmetry; apply Z.eqb_eq; lia).
    destruct (Z.eqb_spec lo (10 ^ k)); [lia|reflexivity].
  - replace (lo * 10 ^ (L - k) =? n) with false
      by (symmetry; apply Z.eqb_neq; lia).
    reflexivity.
Qed.

Variables (s : Z) (j : nat).
Hypothesis n_split : n = s * 10 ^ Z.of_nat j.
Hypothesis s_pos : 0 < s.
Hypothesis s_last : s mod 10 <> 0.

Lemma zeros_below_digits : Z.of_nat j < L.
Proof.
  pose proof (pow10_pos (Z.of_nat j) ltac:(lia)) as P.
  apply (Z.pow_lt_mono_r_iff 10); [lia|lia|]. nia.
Qed.

Lemma not_a_multiple k :
  1 <= k -> Z.of_nat j < L - k -> n mod 10 ^ (L - k) <> 0.
Proof.
  intros Hk Hj Hm. apply Z.mod_divide in Hm;
    [|pose proof (pow10_pos (L - k) ltac:(lia)); lia].
  destruct Hm as [q Hq]. apply s_last.
  pose proof (pow10_pos (Z.of_nat j) ltac:(lia)) as P.
  replace (L - k) with (L - k - Z.of_nat j - 1 + 1 + Z.of_nat j) in Hq by lia.
  rewrite !Z.pow_add_r in Hq by lia. change (10 ^ 1) with 10 in Hq.
  assert (Es : s = q * 10 ^ (L - k - Z.of_nat j - 1) * 10) by nia.
  rewrite Es. apply Z.mod_mul. lia.
Qed.

Lemma shortest_int fuel : forall k,
  1 <= k <= L - Z.of_nat j ->
  L - Z.of_nat j - k < Z.of_nat fuel ->
  Number.shortest fuel (Number.of_Z n) (n * den) den L k
  = (s, L, L - Z.of_nat j).
Proof.
  pose proof (pow10_pos (Z.of_nat j) ltac:(lia)) as P.
  induction fuel as [|fuel IH]; intros k Hk Hf; [cbn in Hf; lia|].
  cbn [Number.shortest]. rewrite candidates_int by lia.
  destruct (Z.eq_dec k (L - Z.of_nat j)) as [->|Hne].
  - replace (L - (L - Z.of_nat j)) with (Z.of_nat j) by lia.
    rewrite n_split, Z.mod_mul, Z.div_mul by lia. reflexivity.
  - destruct (Z.eqb_spec (n mod 10 ^ (L - k)) 0) as [E0|_].
    + exfalso. exact (not_a_multiple k ltac:(lia) ltac:(lia) E0).
    + apply IH; lia.
Qed.

End ToStringOfInteger.

(** [Number::toString] of an integer below 2^53 is its decimal
    digits. *)
Lemma toString_of_Z n :
  0 <= n < 2 ^ 53 -> Number.toString (Number.of_Z n) = Number.decimal n.
Proof.
  intros Hn. destruct (Z.eq_dec n 0) as [->|Hne]; [reflexivity|].
  assert (Hp : 0 < n < 2 ^ 53) by lia.
  destruct (magnitude_of_Z n Hp) as (m & e & den & E & Hd & Hm).
  destruct (decimal_exponent_int n den Hp Hd) as (HL & HLd).
  destruct (trailing_zeros n ltac:(lia)) as (s & j & Hs & Ps & Ms).
  pose proof (zeros_below_digits n _ Hp (proj1 HL) HLd s j Hs Ps) as Hj.
  rewrite E. cbn [Number.toString]. unfold Number.toString_pos.
  rewrite <- E, Hm.
  rewrite (shortest_int n den _ Hp Hd (proj1 HL) HLd s j Hs Ps Ms 17 1)
    by lia.
  unfold Number.format_digits.
  set (L := Number.decimal_exponent (n * den) den) in *.
  destruct (Z.leb_spec (L - Z.of_nat j) L); [|lia].
  destruct (Z.leb_spec L 21); [|lia]. cbn [andb].
  replace (L - (L - Z.of_nat j)) with (Z.of_nat j) by lia.
  rewrite Nat2Z.id, <- decimal_shift by exact Ps. rewrite <- Hs. reflexivity.
Qed.

(** ** Integers in JSON text *)

Lemma serialize_int n :
  0 <= n < 2 ^ 53 -> JSON.serialize (num n) = Some (Number.decimal n).
Proof.
  intros Hn. unfold num. destruct (Z.eq_dec n 0) as [->|Hne]; [reflexivity|].
  destruct (of_Z_finite n ltac:(lia)) as (m & e & E & _).
  cbn [JSON.serialize]. rewrite E, <- E, toString_of_Z by exact Hn.
  reflexivity.
Qed.

Lemma literal_zero_exponent n :
  0 <= n < 2 ^ 53 ->
  Number.of_ratio false ((n * 1 + 0) * 1) 1 = Number.of_Z n.
Proof.
  intros Hn. replace ((n * 1 + 0) * 1) with n by lia.
  destruct (Z.eq_dec n 0) as [->|Hne]; [reflexivity|].
  apply of_ratio_int. lia.
Qed.

(** The digits of an integer below 2^53, where a member of an object
    may stand, are read as the Number of that integer. *)
Lemma decimal_is_number_text n :
  0 <= n < 2 ^ 53 -> number_text (Number.decimal n) (num n).
Proof.
  intros Hn fuel rest (r & Hr).
  assert (Hnd : no_digit_ahead rest)
    by (destruct Hr as [-> | ->]; reflexivity).
  pose proof (read_decimal n rest ltac:(lia) Hnd) as Hread.
  rewrite decimal_string in *.
  pose proof (to_uint_not_nil (Z.to_N n)) as Hnil.
  assert (Hz : forall l, N.to_uint (Z.to_N n) = Decimal.D0 l
                         -> l = Decimal.Nil).
  { intros l El. destruct (Z.to_N n) as [|p]; [injection El as <-; reflexivity|].
    pose proof (to_uint_lead p) as H. cbn [N.to_uint] in El.
    rewrite El in H. contradiction. }
  set (count := Z.of_nat (Decimal.nb_digits (N.to_uint (Z.to_N n)))) in *.
  assert (Hc : 0 < count).
  { unfold count. destruct (N.to_uint (Z.to_N n)); [contradiction|cbn; lia..]. }
  assert (Hone : forall l, N.to_uint (Z.to_N n) = Decimal.D0 l -> count = 1).
  { intros l El. unfold count. rewrite El, (Hz l El). reflexivity. }
  destruct (N.to_uint (Z.to_N n)) as [|l|l|l|l|l|l|l|l|l|l] eqn:Ed;
    [contradiction|..];
    cbn [NilEmpty.string_of_uint String.append] in *;
    cbn [JSON.parse_value JSON.skip_ws];
    (match goal with
     | |- context [Text.code ?c] =>
         let v := eval vm_compute in (Text.code c) in
         change (Text.code c) with v
     end);
    cbn [Z.eqb Pos.eqb orb];
    unfold JSON.parse_number; rewrite Hread;
    try rewrite (Hone l eq_refl);
    (destruct (Z.eqb_spec count 0); [lia|]);
    cbn [orb Z.ltb Z.compare Pos.compare Pos.compare_cont];
    destruct Hr as [-> | ->]; cbn;
    rewrite literal_zero_exponent by exact Hn; reflexivity.
Qed.

(** ** The cache record as text *)

Lemma append_assoc (a b c : string) :
  ((a ++ b) ++ c = a ++ (b ++ c))%string.
Proof.
  induction a as [|x a IH]; cbn; [reflexivity|]. rewrite IH. reflexivity.
Qed.

Lemma append_empty (a : string) : (a ++ "" = a)%string.
Proof.
  induction a as [|x a IH]; cbn; [reflexivity|]. rewrite IH. reflexivity.
Qed.

Lemma stringify_record v1 v2 v3 v4 v5 t1 t2 t3 t4 t5 :
  JSON.serialize v1 = Some t1 -> JSON.serialize v2 = Some t2 ->
  JSON.serialize v3 = Some t3 -> JSON.serialize v4 = Some t4 ->
  JSON.serialize v5 = Some t5 ->
  JSON.stringify (Obj [("data", snapshot v1 v2 v3 v4); ("timestamp", v5)])
  = record_string t1 t2 t3 t4 t5.
Proof.
  intros H1 H2 H3 H4 H5. unfold JSON.stringify, snapshot, record_string.
  cbn [JSON.serialize]. rewrite H1, H2, H3, H4, H5.
  repeat first [rewrite append_assoc | rewrite append_empty
               | progress cbn [String.append]].
  reflexivity.
Qed.

Lemma parse_value_unfold fuel s :
  JSON.parse_value (S fuel) s
  = match JSON.skip_ws s with
    | String c r =>
        if Text.code c =? 123 then
          match JSON.skip_ws r with
          | String "}" r' => Some (Obj [], r')
          | r' => JSON.parse_members fuel r' []
          end
        else if Text.code c =? 91 then
          match JSON.skip_ws r with
          | String "]" r' => Some (Arr [], r')
          | r' => JSON.parse_elements fuel r' []
          end
        else if Text.code c =? 34 then
          match JSON.parse_chars r "" None with
          | Some (t, r') => Some (Str t, r')
          | None => None
          end
        else if Text.code c =? 116
        then JSON.literal "true" (Bool true) (String c r)
        else if Text.code c =? 102
        then JSON.literal "false" (Bool false) (String c r)
        else if Text.code c =? 110 then JSON.literal "null" Null (String c r)
        else JSON.parse_number (String c r)
    | EmptyString => None
    end.
Proof. reflexivity. Qed.

Lemma parse_members_unfold fuel s acc :
  JSON.parse_members (S fuel) s acc
  = match JSON.skip_ws s with
    | String c r =>
        if Text.code c =? 34 then
          match JSON.parse_chars r "" None with
          | Some (k, r1) =>
              match JSON.skip_ws r1 with
              | String ":" r2 =>
                  match JSON.parse_value fuel r2 with
                  | Some (v, r3) =>
                      match JSON.skip_ws r3 with
                      | String "," r4 =>
                          JSON.parse_members fuel r4 (JSON.define k v acc)
                      | String "}" r4 =>
                          Some (Obj (JSON.define k v acc), r4)
                      | _ => None
                      end
                  | None => None
                  end
              | _ => None
              end
          | None => None
          end
        else None
    | EmptyString => None
    end.
Proof. reflexivity. Qed.

Lemma parse_record_string t1 t2 t3 t4 t5 v1 v2 v3 v4 v5 :
  number_text t1 v1 -> number_text t2 v2 -> number_text t3 v3 ->
  number_text t4 v4 -> number_text t5 v5 ->
  JSON.parse (record_string t1 t2 t3 t4 t5)
  = Normal (Obj [("data", snapshot v1 v2 v3 v4); ("timestamp", v5)]).
Proof.
  intros H1 H2 H3 H4 H5. unfold JSON.parse.
  assert (F : exists f, (2 * String.length (record_string t1 t2 t3 t4 t5) + 2
                         = 8 + f)%nat).
  { unfold record_string. cbn [Text.q String.append String.length].
    eexists. rewrite Nat.add_comm. cbn [Nat.add Nat.mul]. reflexivity. }
  destruct F as [f ->]. cbn [Nat.add]. unfold record_string.
  assert (E : forall r, ends_value (String "," r)) by (intros r; exists r; auto).
  assert (E' : forall r, ends_value (String "}" r))
    by (intros r; exists r; auto).
  repeat first
    [ rewrite H1 by first [apply E|apply E']
    | rewrite H2 by first [apply E|apply E']
    | rewrite H3 by first [apply E|apply E']
    | rewrite H4 by first [apply E|apply E']
    | rewrite H5 by first [apply E|apply E']
    | rewrite parse_members_unfold
    | rewrite parse_value_unfold
    | progress cbn -[JSON.parse_value JSON.parse_members JSON.parse_elements] ].
  reflexivity.
Qed.

Lemma record_text_of_integers a b c d now :
  0 <= a < 2 ^ 53 -> 0 <= b < 2 ^ 53 -> 0 <= c < 2 ^ 53 ->
  0 <= d < 2 ^ 53 -> 0 <= now < 2 ^ 53 ->
  record_text (snapshot (num a) (num b) (num c) (num d)) now
  = record_string (Number.decimal a) (Number.decimal b) (Number.decimal c)
      (Number.decimal d) (Number.decimal now).
Proof.
  intros Ha Hb Hc Hd Hn. unfold record_text.
  apply stringify_record; apply serialize_int; assumption.
Qed.

Lemma parse_record_text a b c d now :
  0 <= a < 2 ^ 53 -> 0 <= b < 2 ^ 53 -> 0 <= c < 2 ^ 53 ->
  0 <= d < 2 ^ 53 -> 0 <= now < 2 ^ 53 ->
  JSON.parse (record_text (snapshot (num a) (num b) (num c) (num d)) now)
  = Normal (Obj [("data", snapshot (num a) (num b) (num c) (num d));
                 ("timestamp", num now)]).
Proof.
  intros Ha Hb Hc Hd Hn.
  rewrite record_text_of_integers by assumption.
  apply parse_record_string; apply decimal_is_number_text; assumption.
Qed.

Lemma record_text_not_empty a b c d now :
  0 <= a < 2 ^ 53 -> 0 <= b < 2 ^ 53 -> 0 <= c < 2 ^ 53 ->
  0 <= d < 2 ^ 53 -> 0 <= now < 2 ^ 53 ->
  record_text (snapshot (num a) (num b) (num c) (num d)) now <> "".
Proof.
  intros Ha Hb Hc Hd Hn.
  rewrite record_text_of_integers by assumption.
  unfold record_string. cbn [Text.q String.append]. discriminate.
Qed.

(** X17. The cache record survives its trip through text: for a
    snapshot of four integer counts and an integer time, all from 0 to
    2^53 - 1, parsing the text that [cacheStats] writes gives back the
    record, field for field. *)
Theorem cache_record_round_trip a b c d now :
  0 <= a < 2 ^ 53 -> 0 <= b < 2 ^ 53 -> 0 <= c < 2 ^ 53 ->
  0 <= d < 2 ^ 53 -> 0 <= now < 2 ^ 53 ->
  JSON.parse
    (JSON.stringify
       (Obj [("data", snapshot (num a) (num b) (num c) (num d));
             ("timestamp", num now)]))
  = Normal (Obj [("data", snapshot (num a) (num b) (num c) (num d));
                 ("timestamp", num now)]).
Proof. exact (parse_record_text a b c d now). Qed.

Lemma cache_record_round_trip_witness :
  JSON.parse
    (JSON.stringify
       (Obj [("data", snapshot (num 1234) (num 56) (num 7) (num 0));
             ("timestamp", num 1700000000000)]))
  = Normal (Obj [("data", snapshot (num 1234) (num 56) (num 7) (num 0));
                 ("timestamp", num 1700000000000)]).
Proof. apply cache_record_round_trip; lia. Defined.

(** X18. What [cacheStats] writes, [loadStats] reads back.  After a
    snapshot of four integer counts is cached at an integer time, on a
    storage that takes the write, a load less than thirty minutes later
    (the clock still below 2^53) finds the record, hands back the very
    record that was written, holds the same snapshot and renders its
    four numbers, without a request. *)
Theorem cached_snapshot_is_read_back a b c d t net st :
  0 <= a < 2 ^ 53 -> 0 <= b < 2 ^ 53 -> 0 <= c < 2 ^ 53 ->
  0 <= d < 2 ^ 53 ->
  0 <= clock st -> clock st <= t < clock st + 1800000 -> t < 2 ^ 53 ->
  let snap := snapshot (num a) (num b) (num c) (num d) in
  accepts st CONFIG.CACHE_KEY (record_text snap (clock st)) (localStorage st)
  = true ->
  let later := with_clock t (snd (GitHubStats.cacheStats snap st)) in
  GitHubStats.getCachedStats later
  = (Normal (Obj [("data", snap); ("timestamp", num (clock st))]), later)
  /\ GitHubStats.loadStats net later
     = (Normal tt,
        rendered (Number.of_Z a) (Number.of_Z b) (Number.of_Z c)
          (Number.of_Z d) (with_stats snap later))
  /\ fetches (trace (snd (GitHubStats.loadStats net later)))
     = fetches (trace st).
Proof.
  intros Ha Hb Hc Hd H0 Ht H53. cbv zeta. intros T.
  rewrite cacheStats_eval, (after_cacheStats_taken _ st T). cbn [snd].
  set (snap := snapshot (num a) (num b) (num c) (num d)).
  set (later := with_clock t (stored snap st)).
  assert (Hn : 0 <= clock st < 2 ^ 53) by lia.
  assert (Hl : lookup CONFIG.CACHE_KEY (localStorage later)
               = Some (record_text snap (clock st))).
  { unfold later, stored. cbn [with_clock emit with_storage localStorage].
    apply lookup_set_item. }
  pose proof (parse_record_text a b c d (clock st) Ha Hb Hc Hd Hn) as Hp.
  pose proof (record_text_not_empty a b c d (clock st) Ha Hb Hc Hd Hn) as Hne.
  fold snap in Hp, Hne.
  assert (Hc' : clock later = t) by reflexivity.
  assert (Hload : GitHubStats.loadStats net later
     = (Normal tt,
        rendered (Number.of_Z a) (Number.of_Z b) (Number.of_Z c)
          (Number.of_Z d) (with_stats snap later))).
  { rewrite (loadStats_hit _ _ (num (clock st)) snap Hne Hp
               eq_refl eq_refl net later Hl).
    - apply updateDOM_numbers; reflexivity.
    - rewrite Hc'. apply fresh_at_integers; lia. }
  split; [|split].
  - rewrite (read_integer_timestamp later _ _ (clock st) Hl Hne Hp eq_refl)
      by (rewrite ?Hc'; lia).
    rewrite Hc'. replace (t - clock st <? 1800000) with true; [reflexivity|].
    symmetry. apply Z.ltb_lt. lia.
  - exact Hload.
  - rewrite Hload. cbn [snd]. unfold rendered.
    destruct (same_store_painted
                (abbreviate (Number.of_Z a)) (abbreviate (Number.of_Z b))
                (abbreviate (Number.of_Z c)) (Number.toString (Number.of_Z d))
                (Num (Number.of_Z a)) (Num (Number.of_Z b))
                (Num (Number.of_Z c)) (with_stats snap later))
      as (_ & _ & _ & F & _).
    rewrite F. reflexivity.
Qed.

Lemma cached_snapshot_is_read_back_witness :
  let st := Page.opened [] 1700000000000 in
  let snap := snapshot (num 1234) (num 56) (num 7) (num 0) in
  let later :=
    with_clock 1700000060000 (snd (GitHubStats.cacheStats snap st)) in
  GitHubStats.getCachedStats later
  = (Normal (Obj [("data", snap); ("timestamp", num (clock st))]), later)
  /\ GitHubStats.loadStats Page.offline later
     = (Normal tt,
        rendered (Number.of_Z 1234) (Number.of_Z 56) (Number.of_Z 7)
          (Number.of_Z 0) (with_stats snap later))
  /\ fetches (trace (snd (GitHubStats.loadStats Page.offline later)))
     = fetches (trace st).
Proof.
  apply (cached_snapshot_is_read_back 1234 56 7 0 1700000060000
           Page.offline (Page.opened [] 1700000000000));
    first [reflexivity | cbn [Page.opened clock]; lia].
Defined.

Lemma loadStats_absent net st :
  lookup CONFIG.CACHE_KEY (localStorage st) = None ->
  GitHubStats.loadStats net st = GitHubStats.fetchFromAPI net st.
Proof.
  intros Hl. unfold GitHubStats.loadStats, bind at 1.
  rewrite (read_absent st Hl). reflexivity.
Qed.

(** X19. Two visits, one request.  With nothing cached, a first visit
    whose request is answered with four integer counts (from 0 to
    2^53 - 1) fetches once.  When the storage takes the record, a
    second visit less than thirty minutes after that answer arrived
    sends nothing, whatever the network would do then, and holds and
    renders the same four numbers.  When the storage refuses the
    record, the second visit finds nothing cached and sends a second
    request. *)
Theorem second_visit_reuses_the_fetch net1 net2 st r data a b c d t1 t2 :
  lookup CONFIG.CACHE_KEY (localStorage st) = None ->
  reply net1 = Some r ->
  ok r = true ->
  JSON.parse (body r) = Normal data ->
  Get data "stargazers_count" = Normal (num a) ->
  Get data "forks_count" = Normal (num b) ->
  Get data "subscribers_count" = Normal (num c) ->
  Get data "open_issues_count" = Normal (num d) ->
  0 <= a < 2 ^ 53 -> 0 <= b < 2 ^ 53 -> 0 <= c < 2 ^ 53 ->
  0 <= d < 2 ^ 53 ->
  0 <= t1 + latency net1 ->
  t1 + latency net1 <= t2 < t1 + latency net1 + 1800000 ->
  t2 < 2 ^ 53 ->
  let snap := snapshot (num a) (num b) (num c) (num d) in
  let taken :=
    accepts st CONFIG.CACHE_KEY (record_text snap (t1 + latency net1))
      (localStorage st) in
  let first := snd (GitHubStats.loadStats net1 (with_clock t1 st)) in
  let final := visits [(t1, net1); (t2, net2)] st in
  fetches (trace first) = S (fetches (trace st))
  /\ (taken = true ->
      fetches (trace final) = S (fetches (trace st))
      /\ stats final = snap
      /\ final
         = rendered (Number.of_Z a) (Number.of_Z b) (Number.of_Z c)
             (Number.of_Z d) (with_stats snap (with_clock t2 first)))
  /\ (taken = false ->
      fetches (trace final) = S (S (fetches (trace st)))).
Proof.
  intros Hl Hr Hok Hp Ga Gb Gc Gd Ha Hb Hc Hd H0 Ht H53. cbv zeta.
  cbn [visits].
  set (snap := snapshot (num a) (num b) (num c) (num d)).
  set (st1 := with_clock t1 st).
  assert (Hl1 : lookup CONFIG.CACHE_KEY (localStorage st1) = None)
    by exact Hl.
  rewrite (loadStats_absent net1 st1 Hl1).
  rewrite (fetch_success_numbers net1 st1 r data _ _ _ _ Hr Hok Hp
             Ga Gb Gc Gd _ _ _ _ eq_refl eq_refl eq_refl eq_refl).
  cbn [snd]. fold snap.
  set (held := with_stats snap (after_fetch net1 st1)).
  set (cached := after_cacheStats snap held).
  set (first := rendered (Number.of_Z a) (Number.of_Z b) (Number.of_Z c)
                  (Number.of_Z d) cached).
  assert (Sf : same_store cached first) by apply same_store_painted.
  destruct Sf as (S1 & S2 & _ & S4 & _).
  assert (F1 : fetches (trace first) = S (fetches (trace st))).
  { rewrite S4. unfold cached, after_cacheStats.
    destruct (takes_record snap held); reflexivity. }
  set (later := with_clock t2 first).
  split; [exact F1|]. split.
  - intros T.
    assert (Ec : cached = stored snap held)
      by exact (after_cacheStats_taken snap held T).
    assert (Hn : 0 <= t1 + latency net1 < 2 ^ 53) by lia.
    assert (Hl2 : lookup CONFIG.CACHE_KEY (localStorage later)
                  = Some (record_text snap (t1 + latency net1))).
    { unfold later. cbn [with_clock localStorage]. rewrite S1, Ec.
      unfold stored. cbn [emit with_storage localStorage].
      apply lookup_set_item. }
    pose proof (parse_record_text a b c d _ Ha Hb Hc Hd Hn) as Hq.
    pose proof (record_text_not_empty a b c d _ Ha Hb Hc Hd Hn) as Hne.
    fold snap in Hq, Hne.
    assert (Hload : GitHubStats.loadStats net2 later
       = (Normal tt,
          rendered (Number.of_Z a) (Number.of_Z b) (Number.of_Z c)
            (Number.of_Z d) (with_stats snap later))).
    { rewrite (loadStats_hit _ _ (num (t1 + latency net1)) snap Hne Hq
                 eq_refl eq_refl net2 later Hl2).
      - apply updateDOM_numbers; reflexivity.
      - apply fresh_at_integers; cbn [later with_clock clock]; lia. }
    rewrite Hload. cbn [snd].
    repeat split.
    + unfold rendered at 1.
      match goal with
      | |- fetches (trace (painted ?ta ?tb ?tc ?td ?x ?y ?z ?s)) = _ =>
          destruct (same_store_painted ta tb tc td x y z s)
            as (_ & _ & _ & F & _); rewrite F
      end.
      exact F1.
    + rewrite stats_rendered. reflexivity.
  - intros T.
    assert (Ec : cached = held)
      by exact (after_cacheStats_refused snap held T).
    assert (Hl2 : lookup CONFIG.CACHE_KEY (localStorage later) = None).
    { unfold later. cbn [with_clock localStorage]. rewrite S1, Ec.
      exact Hl. }
    rewrite (loadStats_absent net2 later Hl2), fetchFromAPI_one_fetch.
    f_equal. exact F1.
Qed.

Lemma second_visit_reuses_the_fetch_witness :
  let st := Page.opened [] Page.t0 in
  let net := Page.answer 200 Page.live in
  let snap := snapshot (num 500) (num 20) (num 5) (num 2) in
  let taken :=
    accepts st CONFIG.CACHE_KEY (record_text snap (Page.t0 + latency net))
      (localStorage st) in
  let first := snd (GitHubStats.loadStats net (with_clock Page.t0 st)) in
  let final :=
    visits [(Page.t0, net); (Page.t0 + 600000, Page.offline)] st in
  fetches (trace first) = S (fetches (trace st))
  /\ (taken = true ->
      fetches (trace final) = S (fetches (trace st))
      /\ stats final = snap
      /\ final
         = rendered (Number.of_Z 500) (Number.of_Z 20) (Number.of_Z 5)
             (Number.of_Z 2)
             (with_stats snap (with_clock (Page.t0 + 600000) first)))
  /\ (taken = false ->
      fetches (trace final) = S (S (fetches (trace st)))).
Proof.
  let parsed := eval vm_compute in (JSON.parse Page.live) in
  match parsed with
  | Normal ?data =>
      apply (second_visit_reuses_the_fetch (Page.answer 200 Page.live)
               Page.offline (Page.opened [] Page.t0)
               {| status := 200; statusText := ""; body := Page.live |}
               data 500 20 5 2 Page.t0 (Page.t0 + 600000))
  end;
    first [ reflexivity
          | vm_compute; reflexivity
          | unfold Page.t0; cbn [Page.answer latency]; lia ].
Defined.
